(** * RCAT [main.py]: grid remapping and statistics aggregation

    A shallow embedding of the remapping, re-chunking and statistics
    pipeline of [src/scripts/main.py], followed by the properties that
    the specification states about it.

    Conventions of the embedding.
    - A Python exception is [None] in the [option] monad; every function
      of the source that can raise returns [option].
    - numpy [float64] values are Rocq's primitive binary64 floats, so
      NaN, rounding and the order of additions are those of the machine.
    - Array sizes, block sizes and list positions are [nat]; the integer
      arithmetic behind [np.round] is carried out in [Z].
    - Small ordered dictionaries of one dataset (dimension sizes, block
      sizes, variables) are association lists in iteration order; the
      dictionaries keyed by participant name are [gmap]s.
    - Code of the repository that is not part of [main.py], and the
      libraries it calls (xESMF, xarray resampling, the statistics and
      region modules), enter through the class [Collaborators].
    - A dataset records the sizes of the dask blocks along each of its
      dimensions; the blocks of a variable, one array per block, follow
      from them ([dask_of]).
    - An observation dataset records which of its dimensions have an
      index and with which labels, as [Dataset.reindex] reorders data
      along a dimension with an index only. *)

From Stdlib Require Import ZArith Lia Floats Ascii.
From stdpp Require Import base option list strings gmap pretty.

#[local] Set Warnings "-abstract-large-number".

(** ** numpy scalar arithmetic *)

(** binary64 arithmetic as numpy performs it, round-to-nearest-even. *)
Module binary64.

(** An integer [0 <= z < 2^63] as a double; exact below [2^53]. *)
Definition of_Z (z : Z) : float := of_uint63 (Uint63.of_Z z).

(** An integer of either sign, [- 2^63 < z < 2^63], as a double. *)
Definition of_int (z : Z) : float :=
  if (z <? 0)%Z then (- of_Z (- z))%float else of_Z z.

(** [np.round(x)] for a double [x >= 0]: below [2^52], adding and
    subtracting [2^52] rounds to an integer with ties to even; from
    [2^52] on every double is an integer.  Infinities and NaN are
    returned as they are. *)
Definition two52 : float := 4503599627370496%float.
Definition rint (x : float) : float :=
  if (x <? two52)%float then ((x + two52) - two52)%float else x.

(** [x.astype(int)] for a double with an integer value; the conversion
    of an infinity or of NaN is not defined and is an error here. *)
Definition to_Z (x : float) : option Z :=
  match Prim2SF x with
  | S754_zero _ => Some 0%Z
  | S754_finite s m e =>
      let v := if (0 <=? e)%Z then (Z.pos m * 2 ^ e)%Z
               else (Z.pos m / 2 ^ (- e))%Z in
      Some (if s then (- v)%Z else v)
  | S754_infinity _ | S754_nan => None
  end.

(** [np.round(a / b)] *)
Definition round_div (a b : Z) : float :=
  rint (of_Z a / of_Z b).

(** [np.round(m / np.sqrt(p / c))] *)
Definition round_div_sqrt (m p c : Z) : float :=
  let n := sqrt (of_Z p / of_Z c) in
  rint (of_Z m / n).

(** The [n] integers from [lo] on. *)
Fixpoint Zrange (lo : Z) (n : nat) : list Z :=
  match n with
  | 0 => []
  | S n' => lo :: Zrange (lo + 1) n'
  end.

End binary64.

(** [np.round(a / b)] for integers [0 <= a] and [0 < b] in exact
    arithmetic: the quotient rounded to the nearest integer, ties to the
    even one.  The binary64 quotient is correctly rounded and the
    half-way points [q + 1/2] are doubles, so for sizes below [2^53]
    the double lies on the same side of the half-way point as the exact
    quotient and [binary64.round_div] returns this integer
    ([binary64_round_div_agrees] checks it up to 100000). *)
Definition np_round_div (a b : Z) : Z :=
  let q := (a / b)%Z in
  let r := (a mod b)%Z in
  if (2 * r <? b)%Z then q
  else if (b <? 2 * r)%Z then (q + 1)%Z
  else if Z.even q then q else (q + 1)%Z.

(** Agreement of the exact and the binary64 rounding on a list of sizes. *)
Definition agree_round_div (b : Z) (sizes : list Z) : bool :=
  forallb (λ a, (binary64.round_div a b =? binary64.of_Z (np_round_div a b))%float) sizes.

(** ** Arrays and datasets *)

Definition attrs : Type := list (string * string).

(** A numpy array: its shape and its elements in C (row-major) order. *)
Record ndarray : Type := mk_ndarray {
  shape : list nat;
  buf : list float;
}.

Definition ndim (a : ndarray) : nat := length (shape a).
Definition prod_list (l : list nat) : nat := foldr Nat.mul 1 l.
Definition size (a : ndarray) : nat := prod_list (shape a).

(** Lookup in an ordered dictionary: the first binding of the key. *)
Fixpoint assoc {A} (k : string) (d : list (string * A)) : option A :=
  match d with
  | [] => None
  | (k', v) :: d' => if decide (k' = k) then Some v else assoc k d'
  end.

(** A variable of a dataset: dimension names, values, attributes. *)
Record DataVar : Type := mk_DataVar {
  dv_dims : list string;
  dv_data : ndarray;
  dv_attrs : attrs;
}.

(** A coordinate: dimension names and values. *)
Record Coord : Type := mk_Coord {
  c_dims : list string;
  c_values : ndarray;
}.

(** The view of an [xarray.Dataset] that [main.py] relies on:
    [data.dims] (name and size, in iteration order), [data.chunks] (the
    dask block sizes along each dimension), the [time], [lon] and [lat]
    coordinates, [data.data_vars] and the dataset attributes. *)
Record Dataset : Type := mk_Dataset {
  ds_dims : list (string * nat);
  ds_chunks : list (string * list nat);
  ds_time : list Z;
  ds_lon : Coord;
  ds_lat : Coord;
  ds_vars : list (string * DataVar);
  ds_attrs : attrs;
}.

Definition with_chunks (ch : list (string * list nat)) (d : Dataset) : Dataset :=
  {| ds_dims := ds_dims d; ds_chunks := ch; ds_time := ds_time d;
     ds_lon := ds_lon d; ds_lat := ds_lat d; ds_vars := ds_vars d;
     ds_attrs := ds_attrs d |}.

(** ** dask blocks *)

(** Blocks of uniform size [bd] along a dimension of size [d], the last
    block holding the remainder (dask's [blockdims_from_blockshape]): a
    block size of zero on a non-empty dimension is a division by zero. *)
Definition uniform_blocks (d bd : nat) : option (list nat) :=
  if decide (d = 0) then Some [0]
  else if decide (bd = 0) then None
  else Some (replicate (d / bd) bd ++ (if decide (d mod bd = 0) then [] else [d mod bd])).

(** [Dataset.chunk(mapping)]: every key must be a dimension; a dimension
    in the mapping is cut in uniform blocks, every other one keeps its
    blocks (one block when it had none). *)
Fixpoint rechunk_dims (mapping : list (string * nat)) (old : list (string * list nat))
    (dims : list (string * nat)) : option (list (string * list nat)) :=
  match dims with
  | [] => Some []
  | (d, n) :: dims' =>
      bs ← match assoc d mapping with
           | Some c => uniform_blocks n c
           | None => Some (default [n] (assoc d old))
           end;
      rest ← rechunk_dims mapping old dims';
      Some ((d, bs) :: rest)
  end.

Definition xr_chunk (data : Dataset) (mapping : list (string * nat)) : option Dataset :=
  if decide (Forall (λ kv, is_Some (assoc kv.1 (ds_dims data))) mapping) then
    ch ← rechunk_dims mapping (ds_chunks data) (ds_dims data);
    Some (with_chunks ch data)
  else None.

(** The elements along a dimension grouped in consecutive blocks of
    the sizes [bs]: stdpp's [reshape bs l]. *)
Abbreviation split_blocks := reshape (only parsing).

(** ** [manage_chunks] *)

Definition spcdim_x : list string := ["x"; "X"; "lon"; "rlon"].
Definition spcdim_y : list string := ["y"; "Y"; "lat"; "rlat"].

(** Max number of chunks *)
Definition cmax : nat := 500.

(** [n = np.sqrt((xsize*ysize)/cmax)] and
    [c_size = np.round(np.maximum(xsize, ysize)/n).astype(int)], in
    binary64 as the source computes them: the quotient under the root is
    not exact and an exact reading would round some ties the other way.
    With an empty dimension the quotient is infinite or NaN; what
    [astype(int)] makes of it depends on the platform and there is no
    value for it here, so that a grid without points is not covered. *)
Definition space_chunk_size (xsize ysize : nat) : option nat :=
  Z.to_nat <$> binary64.to_Z
    (binary64.round_div_sqrt (Z.of_nat (xsize `max` ysize))
       (Z.of_nat xsize * Z.of_nat ysize) (Z.of_nat cmax)).

(** [np.round(data.time.size/500).astype(int)] *)
Definition time_chunk_size (tsize : nat) : nat :=
  Z.to_nat (np_round_div (Z.of_nat tsize) 500).

Definition manage_chunks (data : Dataset) (chunk_dim : string) : option Dataset :=
  if decide (chunk_dim = "space") then
    xd ← head (filter (λ x, x ∈ spcdim_x) (ds_dims data).*1);
    yd ← head (filter (λ y, y ∈ spcdim_y) (ds_dims data).*1);
    xsize ← assoc xd (ds_dims data);
    ysize ← assoc yd (ds_dims data);
    c_size ← space_chunk_size xsize ysize;
    tsize ← assoc "time" (ds_dims data);
    xr_chunk data [("time", tsize); (xd, c_size); (yd, c_size)]
  else
    tchunks ← assoc "time" (ds_chunks data);
    let nchunks := length tchunks in
    if decide (500 < nchunks) then
      tsize ← assoc "time" (ds_dims data);
      let rchunk_size := time_chunk_size tsize in
      xr_chunk data [("time", rchunk_size)]
    else Some data.

(** Number of blocks along a dimension, and over the two spatial
    dimensions together. *)
Definition n_blocks (data : Dataset) (d : string) : nat :=
  length (default [] (assoc d (ds_chunks data))).

Definition n_space_blocks (data : Dataset) (xd yd : string) : nat :=
  n_blocks data xd * n_blocks data yd.

(** ** Dense and sparse matrices *)

(** A dense two-dimensional array as the list of its rows. *)
Record matrix : Type := mk_matrix {
  nrows : nat;
  ncols : nat;
  mrows : list (list float);
}.

(** [M.T] *)
Definition transpose (M : matrix) : matrix :=
  {| nrows := ncols M; ncols := nrows M;
     mrows := (λ j, (λ r, default 0%float (r !! j)) <$> mrows M) <$> seq 0 (ncols M) |}.

(** [n] consecutive rows of length [k] of a buffer. *)
Definition rows_of (k n : nat) (l : list float) : list (list float) :=
  split_blocks (replicate n k) l.

(** [a.reshape(-1, k)]: the number of rows is inferred from the size,
    which [k] must divide. *)
Definition reshape_rows (a : ndarray) (k : nat) : option matrix :=
  if decide (k = 0) then None
  else if decide (size a mod k = 0)
  then Some {| nrows := size a / k; ncols := k; mrows := rows_of k (size a / k) (buf a) |}
  else None.

(** [M.reshape(shp)] of a dense matrix: the sizes must agree. *)
Definition reshape_to (M : matrix) (shp : list nat) : option ndarray :=
  if decide (nrows M * ncols M = prod_list shp)
  then Some {| shape := shp; buf := mjoin (mrows M) |}
  else None.

(** A sparse weight matrix of shape [(n_out, n_in)]: for every target
    cell (row) the stored entries, each a source cell (column) and its
    weight. *)
Record sparse : Type := mk_sparse {
  n_out : nat;
  n_in : nat;
  sp_rows : list (list (nat * float));
}.

(** [y += a * x] on rows. *)
Definition axpy (a : float) (x y : list float) : list float :=
  zip_with (λ xi yi, (yi + a * xi)%float) x y.

(** [A.dot(X)] for a dense [X]: each output row starts as zeros and
    accumulates [weight * X[column]] over the stored entries of the
    row, in their order. *)
Definition sparse_row_dot (X : matrix) (row : list (nat * float)) : list float :=
  foldl (λ acc e, axpy e.2 (default [] (mrows X !! e.1)) acc)
        (replicate (ncols X) 0%float) row.

Definition sparse_dot (A : sparse) (X : matrix) : option matrix :=
  if decide (n_in A = nrows X)
  then Some {| nrows := n_out A; ncols := ncols X;
               mrows := sparse_row_dot X <$> sp_rows A |}
  else None.

(** ** [_rgr_calc] *)

Definition _rgr_calc (data : ndarray) (A : sparse) (out_dims : nat * nat) : option ndarray :=
  let s := shape data in
  Ny_in ← rev s !! 1;
  Nx_in ← rev s !! 0;
  indata_flat ← reshape_rows data (Ny_in * Nx_in);
  outdata_flat ← transpose <$> sparse_dot A (transpose indata_flat);
  let N_extra_list := take (length s - 2) s in
  let '(Ny_out, Nx_out) := out_dims in
  reshape_to outdata_flat (N_extra_list ++ [Ny_out; Nx_out]).

(** The specification's wording of the same operation: every field over
    the trailing two dimensions is flattened, multiplied by the matrix,
    and the products are laid out with the target shape. *)
Definition matvec (A : sparse) (x : list float) : list float :=
  (λ row, foldl (λ acc e, (acc + e.2 * default 0 (x !! e.1))%float) 0%float row)
    <$> sp_rows A.

Definition apply_matrix_spec (A : sparse) (data : ndarray)
    (source_shape target_shape : nat * nat) : ndarray :=
  let extra := take (length (shape data) - 2) (shape data) in
  let fields := rows_of (source_shape.1 * source_shape.2) (prod_list extra) (buf data) in
  {| shape := extra ++ [target_shape.1; target_shape.2];
     buf := mjoin (matvec A <$> fields) |}.

(** ** Zero-weight rows *)

(** Modelled from the spec: [add_matrix_NaNs] of the repository's
    [grid_interpolation] module is not part of [main.py].  A row with
    all-zero weight: every weight stored for the target cell, if any,
    is zero. *)
Definition zero_weight_row (row : list (nat * float)) : bool :=
  forallb (λ e, (e.2 =? 0)%float) row.

(** Modelled from the spec: the explicit NaN-producing row of
    [add_matrix_NaNs], a single NaN weight on the first source cell. *)
Definition nan_row : list (nat * float) := [(0, nan)].

(** Modelled from the spec: [add_matrix_NaNs] of the repository's
    [grid_interpolation] module is not part of [main.py].  Rows with
    all-zero weight are detected and replaced with an explicit
    NaN-producing row; every other row is kept. *)
Definition add_matrix_NaNs (A : sparse) : sparse :=
  {| n_out := n_out A; n_in := n_in A;
     sp_rows := (λ row, if zero_weight_row row then nan_row else row) <$> sp_rows A |}.

(** ** Grids and collaborators *)

(** A grid dictionary: ['lon'], ['lat'] and, for conservative
    remapping, the cell corners ['lon_b'], ['lat_b']. *)
Record Grid : Type := mk_Grid {
  g_lon : ndarray;
  g_lat : ndarray;
  g_lon_b : option ndarray;
  g_lat_b : option ndarray;
}.

(** A boolean array, such as a region mask over the spatial
    dimensions. *)
Record Mask : Type := mk_Mask {
  mask_shape : list nat;
  mask_buf : list bool;
}.

(** One statistic's configuration: ['resample resolution'] is [None] or
    the pair of a frequency and a reducer name. *)
Record StatConf : Type := mk_StatConf {
  resample_resolution : option (string * string);
}.

(** What [main.py] calls but does not define. *)
Class Collaborators : Type := {
  (** [xe.Regridder(sgrid, tgrid, method).A] *)
  xe_Regridder : Grid → Grid → string → option sparse;
  (** [remap.fnCellCorners(lon, lat)] *)
  fnCellCorners : ndarray → ndarray → option (ndarray * ndarray);
  (** [st.calc_statistics(data, v, stat, stats_config)] *)
  calc_statistics : Dataset → string → string → gmap string StatConf → option Dataset;
  (** [gfunc.reg_mask(lon, lat, r, cut_data=False)] *)
  reg_mask : ndarray → ndarray → string → option Mask;
  (** [data.where(xa.DataArray(mask_in, dims=dims), drop=True)] *)
  xr_where_drop : Dataset → Mask → list string → option Dataset;
  (** [indata[v].to_dataset()] *)
  xr_select : Dataset → string → option Dataset;
  (** [indata.resample(time=freq).reducer('time').dropna('time', 'all')] *)
  xr_resample : Dataset → string → string → option Dataset;
  (** [pandas.to_timedelta(freq).total_seconds()] *)
  pd_total_seconds : string → option float;
}.

(** ** [get_grids] *)

Definition get_grids `{Collaborators} (nc : Dataset) (target_grid : Grid) (method : string)
    : option (Grid * Grid * (nat * nat) * (list string * list string)) :=
  '(s_grid, t_grid) ←
    (if bool_decide (method = "conservative")
        && bool_decide (assoc "lon_bnds" (ds_vars nc) = None)
     then
       '(slon_b, slat_b) ← fnCellCorners (c_values (ds_lon nc)) (c_values (ds_lat nc));
       '(tlon_b, tlat_b) ← fnCellCorners (g_lon target_grid) (g_lat target_grid);
       Some ({| g_lon := c_values (ds_lon nc); g_lat := c_values (ds_lat nc);
                g_lon_b := Some slon_b; g_lat_b := Some slat_b |},
             {| g_lon := g_lon target_grid; g_lat := g_lat target_grid;
                g_lon_b := Some tlon_b; g_lat_b := Some tlat_b |})
     else
       Some ({| g_lon := c_values (ds_lon nc); g_lat := c_values (ds_lat nc);
                g_lon_b := None; g_lat_b := None |},
             target_grid));
  if decide (ndim (g_lon t_grid) = 1) then
    let outdims := (size (g_lat t_grid), size (g_lon t_grid)) in
    let outdims_shape := (["x"], ["y"]) in
    Some (s_grid, t_grid, outdims, outdims_shape)
  else
    d0 ← shape (g_lon t_grid) !! 0;
    d1 ← shape (g_lon t_grid) !! 1;
    let outdims := (d0, d1) in
    let outdims_shape := (["y"; "x"], ["y"; "x"]) in
    Some (s_grid, t_grid, outdims, outdims_shape).

(** ** [regridding] *)

(** Consecutive slabs of [chunks] steps along the leading dimension of
    an array. *)
Definition time_slabs (chunks : list nat) (a : ndarray) : option (list ndarray) :=
  match shape a with
  | [] => None
  | T :: rest =>
      if decide (sum_list chunks = T)
      then Some (zip_with (λ tb b, {| shape := tb :: rest; buf := b |}) chunks
                   (split_blocks ((λ tb, tb * prod_list rest) <$> chunks) (buf a)))
      else None
  end.

(** The blocks of the dask array [indata[var].data] that [map_blocks]
    hands to [_rgr_calc], one after the other: slabs along the leading
    dimension when that is the only dimension cut in blocks.  A block
    that holds part of the spatial domain cannot be multiplied by the
    matrix. *)
Definition dask_blocks (indata : Dataset) (dv : DataVar) : option (list ndarray) :=
  match dv_dims dv with
  | [] => None
  | d0 :: rest =>
      chunks0 ← assoc d0 (ds_chunks indata);
      if decide (Forall (λ d, length (default [] (assoc d (ds_chunks indata))) ≤ 1) rest)
      then time_slabs chunks0 (dv_data dv)
      else None
  end.

(** The array that dask assembles from the mapped blocks, whose block
    shapes were declared as [chunks=(tchunks,) + dim_val]. *)
Definition da_assemble (tchunks : list nat) (dim_val : nat * nat) (blocks : list ndarray)
    : option ndarray :=
  if decide ((shape <$> blocks) = (λ tb, [tb; dim_val.1; dim_val.2]) <$> tchunks)
  then Some {| shape := [sum_list tchunks; dim_val.1; dim_val.2];
               buf := mjoin (buf <$> blocks) |}
  else None.

(** [xa.DataArray(rgr_data, name=var, coords=..., dims=['time', 'y', 'x'],
    attrs=...).to_dataset()]: the coordinates must fit the dimensions of
    the data. *)
Definition coord_fits (sizes : list (string * nat)) (c : Coord) : bool :=
  bool_decide (Some <$> shape (c_values c) = (λ d, assoc d sizes) <$> c_dims c).

Definition xa_DataArray_to_dataset (rgr_data : ndarray) (var : string)
    (lon lat : Coord) (time : list Z) (tchunks : list nat) (attributes : attrs)
    : option Dataset :=
  match shape rgr_data with
  | [nt; ny; nx] =>
      let sizes := [("time", nt); ("y", ny); ("x", nx)] in
      if coord_fits sizes lon && coord_fits sizes lat && bool_decide (length time = nt) then
        Some {| ds_dims := [("time", nt); ("x", nx); ("y", ny)];
                ds_chunks := [("time", tchunks); ("y", [ny]); ("x", [nx])];
                ds_time := time; ds_lon := lon; ds_lat := lat;
                ds_vars := [(var, {| dv_dims := ["time"; "y"; "x"];
                                     dv_data := rgr_data;
                                     dv_attrs := attributes |})];
                ds_attrs := [] |}
      else None
  | _ => None
  end.

(** A participant's entry in the data dictionary. *)
Record Entry : Type := mk_Entry {
  e_data : Dataset;
  e_grid : Grid;
  e_gridname : string;
}.

Definition regridding `{Collaborators} (data : gmap string Entry) (data_name var : string)
    (target_grid : Grid) (method : string) : option Dataset :=
  entry ← data !! data_name;
  let indata := e_data entry in
  dv ← assoc var (ds_vars indata);
  data_dist ← dask_blocks indata dv;
  '(sgrid, tgrid, dim_val, dim_shape) ← get_grids indata target_grid method;
  regridder ← add_matrix_NaNs <$> xe_Regridder sgrid tgrid method;
  let A := regridder in
  tchunks ← assoc "time" (ds_chunks indata);
  blocks ← mapM (λ b, _rgr_calc b A dim_val) data_dist;
  rgr_data ← da_assemble tchunks dim_val blocks;
  xa_DataArray_to_dataset rgr_data var
    {| c_dims := dim_shape.1; c_values := g_lon target_grid |}
    {| c_dims := dim_shape.2; c_values := g_lat target_grid |}
    (ds_time indata) tchunks (ds_attrs indata).

(** ** [remap_func] *)

(** The per-variable configuration read by [remap_func]. *)
Record VarConf : Type := mk_VarConf {
  regrid : option string;
  rgr_method : string;
}.

(** The target-grid dictionary that [remap_func] fills in. *)
Record Gdict : Type := mk_Gdict {
  gd_lon : option (gmap string ndarray);
  gd_lat : option (gmap string ndarray);
  gd_gridname : option string;
}.

Definition set_data (d : Dataset) (e : Entry) : Entry :=
  {| e_data := d; e_grid := e_grid e; e_gridname := e_gridname e |}.

(** [l.remove(x)]: the first occurrence is removed. *)
Fixpoint remove_first {A} `{EqDecision A} (x : A) (l : list A) : list A :=
  match l with
  | [] => []
  | y :: l' => if decide (y = x) then l' else y :: remove_first x l'
  end.

(** [for name in names: dd[name]['data'] = regridding(dd, name, ...)];
    a name that is [None] has no data to regrid. *)
Fixpoint regrid_each `{Collaborators} (names : list (option string)) (v : string)
    (target_grid : Grid) (method : string) (dd : gmap string Entry)
    : option (gmap string Entry) :=
  match names with
  | [] => Some dd
  | name :: names' =>
      nm ← name;
      rgr_data ← regridding dd nm v target_grid method;
      entry ← dd !! nm;
      regrid_each names' v target_grid method (<[nm := set_data rgr_data entry]> dd)
  end.

(** [{m: dd[m]['grid'][c] for m in names}], added to [acc]. *)
Fixpoint collect_grid (c : Grid → ndarray) (names : list string)
    (dd : gmap string Entry) (acc : gmap string ndarray) : option (gmap string ndarray) :=
  match names with
  | [] => Some acc
  | m :: names' =>
      entry ← dd !! m;
      collect_grid c names' dd (<[m := c (e_grid entry)]> acc)
  end.

Definition remap_func `{Collaborators} (dd : gmap string Entry) (v : string)
    (vconf : VarConf) (mnames : list string) (onames : list (option string))
    (gdict : Gdict) : option (gmap string Entry * Gdict) :=
  match regrid vconf with
  | None =>
      lon ← collect_grid g_lon mnames dd ∅;
      lat ← collect_grid g_lat mnames dd ∅;
      lon ← (if decide (None ∈ onames) then Some lon
             else collect_grid g_lon (omap id onames) dd lon);
      lat ← (if decide (None ∈ onames) then Some lat
             else collect_grid g_lat (omap id onames) dd lat);
      let gridname := "native_grid" in
      Some (dd, {| gd_lon := Some lon; gd_lat := Some lat; gd_gridname := Some gridname |})
  | Some target =>
      if decide (Some target ∈ onames) then
        let oname := target in
        entry ← dd !! oname;
        let target_grid := e_grid entry in
        let gridname := e_gridname entry in
        dd ← regrid_each (Some <$> mnames) v target_grid (rgr_method vconf) dd;
        dd ← (if decide (1 < length onames) then
                let obslist := remove_first (Some oname) onames in
                regrid_each obslist v target_grid (rgr_method vconf) dd
              else Some dd);
        Some (dd, {| gd_lon := Some {[oname := g_lon target_grid]};
                     gd_lat := Some {[oname := g_lat target_grid]};
                     gd_gridname := Some gridname |})
      else if decide (target ∈ mnames) then
        let mname := target in
        let modlist := remove_first mname mnames in
        entry ← dd !! mname;
        let target_grid := e_grid entry in
        let gridname := e_gridname entry in
        dd ← regrid_each (Some <$> modlist) v target_grid (rgr_method vconf) dd;
        dd ← (if decide (None ∈ onames) then Some dd
              else regrid_each onames v target_grid (rgr_method vconf) dd);
        Some (dd, {| gd_lon := Some {[mname := g_lon target_grid]};
                     gd_lat := Some {[mname := g_lat target_grid]};
                     gd_gridname := Some gridname |})
      else None
  end.

(** ** [get_masked_data] and [calc_stats] *)

(** Broadcasting of a buffer of shape [ashape] to [tshape], two shapes
    of the same length: along every axis the sizes agree or the array
    has size one and is repeated. *)
Fixpoint broadcast_buf {B} (ashape tshape : list nat) (b : list B) : option (list B) :=
  match ashape, tshape with
  | [], [] => Some b
  | a :: ashape', t :: tshape' =>
      subs ← mapM (broadcast_buf ashape' tshape')
                  (split_blocks (replicate a (prod_list ashape')) b);
      if decide (a = t) then Some (mjoin subs)
      else if decide (a = 1) then Some (mjoin (replicate t (mjoin subs)))
      else None
  | _, _ => None
  end.

(** [np.broadcast_to(mask, shp)]: the shape of the mask is aligned with
    the trailing dimensions of [shp]. *)
Definition np_broadcast_to (mask : Mask) (shp : list nat) : option Mask :=
  if decide (length (mask_shape mask) ≤ length shp) then
    b ← broadcast_buf
           (replicate (length shp - length (mask_shape mask)) 1 ++ mask_shape mask)
           shp (mask_buf mask);
    Some {| mask_shape := shp; mask_buf := b |}
  else None.

Definition get_masked_data `{Collaborators} (data : Dataset) (var : string) (mask : Mask)
    : option Dataset :=
  dv ← assoc var (ds_vars data);
  mask_in ← np_broadcast_to mask (shape (dv_data dv));
  xr_where_drop data mask_in (dv_dims dv).

(** One participant's result: ['domain'] and, with regions, ['regions']. *)
Record PStats : Type := mk_PStats {
  st_domain : Dataset;
  st_regions : option (gmap string Dataset);
}.

(** [{r: f(r) for r in keys}] *)
Definition dict_comp {A} (f : string → option A) (keys : list string)
    : option (gmap string A) :=
  foldl (λ acc r, d ← acc; a ← f r; Some (<[r := a]> d)) (Some ∅) keys.

(** Time labels are [datetime64[ns]] values: nanoseconds as integers.
    The step in whole seconds, rounded down, as a float; it is negative
    when the second label is the earlier one. *)
Definition time_step_seconds (time : list Z) : option float :=
  t1 ← time !! 1;
  t0 ← time !! 0;
  let diff := (t1 - t0)%Z in
  Some (binary64.of_int (diff / 1000000000)).

(** The body of the participant loop for a participant with data, in
    two steps.  First the data that the statistics are computed on: the
    variable on its own when the dataset holds more than two, resampled
    when the statistic asks for another time step than the data have,
    and re-chunked. *)
Definition stats_input `{Collaborators} (entry : Entry) (v stat : string)
    (chunk_dim : string) (stats_config : gmap string StatConf) : option Dataset :=
  let indata := e_data entry in
  indata ← (if decide (2 < length (ds_vars indata)) then xr_select indata v
            else Some indata);
  sconf ← stats_config !! stat;
  indata ← match resample_resolution sconf with
            | Some tresample =>
                nsec ← time_step_seconds (ds_time indata);
                sec_resample ← pd_total_seconds tresample.1;
                if (nsec =? sec_resample)%float then Some indata
                else xr_resample indata tresample.1 tresample.2
            | None => Some indata
            end;
  (* Check chunking of data *)
  manage_chunks indata chunk_dim.

(** Then the statistic on the domain and, with regions, per region. *)
Definition stats_for `{Collaborators} (entry : Entry) (v stat : string) (pool : bool)
    (chunk_dim : string) (stats_config : gmap string StatConf) (regions : list string)
    : option PStats :=
  data ← stats_input entry v stat chunk_dim stats_config;
  domain ← calc_statistics data v stat stats_config;
  match regions with
  | [] => Some {| st_domain := domain; st_regions := None |}
  | _ =>
      masks ← dict_comp (λ r, reg_mask (c_values (ds_lon data)) (c_values (ds_lat data)) r)
                regions;
      st_mdata ←
        (if pool then
           mdata ← dict_comp (λ r, masks !! r ≫= get_masked_data data v) regions;
           dict_comp (λ r, md ← mdata !! r; calc_statistics md v stat stats_config) regions
         else
           dict_comp (λ r, masks !! r ≫= get_masked_data domain v) regions);
      Some {| st_domain := domain; st_regions := Some st_mdata |}
  end.

(** [for m in ddict[f][v]: ...] with the results gathered in [acc]. *)
Fixpoint stats_loop `{Collaborators} (ms : list (string * option Entry)) (v stat : string)
    (pool : bool) (chunk_dim : string) (stats_config : gmap string StatConf)
    (regions : list string) (acc : gmap string PStats) : option (gmap string PStats) :=
  match ms with
  | [] => Some acc
  | (m, None) :: ms' =>
      (* Data not available for model m: moving on *)
      stats_loop ms' v stat pool chunk_dim stats_config regions acc
  | (m, Some entry) :: ms' =>
      r ← stats_for entry v stat pool chunk_dim stats_config regions;
      stats_loop ms' v stat pool chunk_dim stats_config regions (<[m := r]> acc)
  end.

(** One turn of [for v, f in vv.items()]. *)
Definition calc_stats_step `{Collaborators}
    (ddict : gmap string (gmap string (gmap string (option Entry))))
    (stat : string) (pool : bool) (chunk_dim : string)
    (stats_config : gmap string StatConf) (regions : list string)
    (acc : option (gmap string (gmap string PStats))) (vf : string * string)
    : option (gmap string (gmap string PStats)) :=
  st_data ← acc;
  participants ← ddict !! vf.2 ≫= (.!! vf.1);
  st_v ← stats_loop (map_to_list participants) vf.1 stat pool chunk_dim
           stats_config regions ∅;
  Some (<[vf.1 := st_v]> st_data).

(** Dictionaries are traversed through [map_to_list]; the result is a
    dictionary again, so the order of traversal does not show. *)
Definition calc_stats `{Collaborators}
    (ddict : gmap string (gmap string (gmap string (option Entry))))
    (vv : gmap string string) (stat : string) (pool : bool) (chunk_dim : string)
    (stats_config : gmap string StatConf) (regions : list string)
    : option (gmap string (gmap string PStats)) :=
  foldl (calc_stats_step ddict stat pool chunk_dim stats_config regions)
        (Some ∅) (map_to_list vv).

(** ** [get_prep_func] *)

(** A dataset as the preprocessing function sees it while one file is
    opened: the time labels and, for every variable, one flattened
    field per time step. *)
Record TimeData : Type := mk_TimeData {
  td_time : list Z;
  td_vars : list (string * list (list float));
}.

Definition n_time (data : TimeData) : nat := length (td_time data).

(** [data.diff(dim='time')]: each step minus the one before it, labelled
    with the later time. *)
Definition xr_diff_time (data : TimeData) : TimeData :=
  {| td_time := drop 1 (td_time data);
     td_vars := (λ kv, (kv.1, zip_with (zip_with (λ a b, (a - b)%float))
                                (drop 1 kv.2) kv.2)) <$> td_vars data |}.

(** [data.isel(time=slice(0, -1))] *)
Definition xr_isel_time_0_m1 (data : TimeData) : TimeData :=
  {| td_time := take (length (td_time data) - 1) (td_time data);
     td_vars := (λ kv, (kv.1, take (length kv.2 - 1) kv.2)) <$> td_vars data |}.

Definition get_prep_func (deacc : bool) : TimeData → TimeData :=
  if deacc then
    λ data, xr_diff_time data
  else
    λ data, xr_isel_time_0_m1 data.

(** ** [get_obs_data]: ascending coordinates *)

(** The observation dataset once its files are opened, restricted to the
    requested years and scaled: dimension names and sizes, the labels of
    its index coordinates other than [lon] and [lat] (a dimension without
    an entry has no index coordinate of its own), the [lon] and [lat]
    coordinates and the variables.  Labels are held as numbers; integer
    labels are exact. *)
Record ObsData : Type := mk_ObsData {
  od_dims : list (string * nat);
  od_index : list (string * list float);
  od_lon : Coord;
  od_lat : Coord;
  od_vars : list (string * DataVar);
}.

(** Position of a dimension name. *)
Fixpoint index_of (d : string) (dims : list string) : option nat :=
  match dims with
  | [] => None
  | d' :: dims' => if decide (d' = d) then Some 0 else S <$> index_of d dims'
  end.

(** The array reversed along axis [k]. *)
Definition flip_axis (k : nat) (a : ndarray) : ndarray :=
  let outer := prod_list (take k (shape a)) in
  let n := default 0 (shape a !! k) in
  let inner := prod_list (drop (S k) (shape a)) in
  {| shape := shape a;
     buf := mjoin ((λ blk, mjoin (rev (split_blocks (replicate n inner) blk)))
                      <$> split_blocks (replicate outer (n * inner)) (buf a)) |}.

(** [np.flipud(a)]: rows in reverse order; needs a dimension. *)
Definition np_flipud (a : ndarray) : option ndarray :=
  if decide (ndim a = 0) then None else Some (flip_axis 0 a).

(** An array with dimensions [dims] reversed along dimension [d], if
    it has that dimension. *)
Definition flip_dim (d : string) (dims : list string) (a : ndarray) : ndarray :=
  match index_of d dims with
  | Some k => flip_axis k a
  | None => a
  end.

(** The labels of the index of dimension [d], if it has one: [lon] and
    [lat] are indexes when they are the coordinates of dimensions of
    their own name. *)
Definition od_labels (d : string) (data : ObsData) : option (list float) :=
  if decide (d = "lon" ∧ c_dims (od_lon data) = ["lon"])
  then Some (buf (c_values (od_lon data)))
  else if decide (d = "lat" ∧ c_dims (od_lat data) = ["lat"])
  then Some (buf (c_values (od_lat data)))
  else assoc d (od_index data).

(** [pandas.Index.is_unique]: no label occurs twice, NaN counting as
    equal to NaN. *)
Definition same_label (x y : float) : bool :=
  (x =? y)%float || (PrimFloat.is_nan x && PrimFloat.is_nan y).

Fixpoint is_unique (labels : list float) : bool :=
  match labels with
  | [] => true
  | x :: labels' => forallb (λ y, negb (same_label x y)) labels' && is_unique labels'
  end.

(** Labels, coordinates and variables in reverse order along [d]. *)
Definition od_reversed (d : string) (data : ObsData) : ObsData :=
  {| od_dims := od_dims data;
     od_index := (λ kv, if decide (kv.1 = d) then (kv.1, rev kv.2) else kv) <$> od_index data;
     od_lon := {| c_dims := c_dims (od_lon data);
                  c_values := flip_dim d (c_dims (od_lon data)) (c_values (od_lon data)) |};
     od_lat := {| c_dims := c_dims (od_lat data);
                  c_values := flip_dim d (c_dims (od_lat data)) (c_values (od_lat data)) |};
     od_vars := (λ kv, (kv.1, {| dv_dims := dv_dims kv.2;
                                 dv_data := flip_dim d (dv_dims kv.2) (dv_data kv.2);
                                 dv_attrs := dv_attrs kv.2 |})) <$> od_vars data |}.

(** The labels [0, 1, ..., n - 1] that [obs_data[d]] shows for a
    dimension without an index. *)
Definition default_labels (n : nat) : list float :=
  (λ k, binary64.of_Z (Z.of_nat k)) <$> seq 0 n.

(** The dataset with [labels] as the index of a dimension [d] that had
    none. *)
Definition od_set_index (d : string) (labels : list float) (data : ObsData) : ObsData :=
  {| od_dims := od_dims data;
     od_index := od_index data ++ [(d, labels)];
     od_lon := od_lon data; od_lat := od_lat data; od_vars := od_vars data |}.

(** [obs_data.reindex({d: obs_data[d][::-1]})].  Along a dimension with
    an index everything is put in the order of the reversed labels; an
    index with a label that occurs twice cannot be reindexed.  Along a
    dimension without an index nothing is reordered: the new labels,
    [n - 1, ..., 0], become its index and the data stay as they are. *)
Definition xr_reindex_reversed (d : string) (data : ObsData) : option ObsData :=
  match od_labels d data with
  | Some labels => if is_unique labels then Some (od_reversed d data) else None
  | None =>
      n ← assoc d (od_dims data);
      Some (od_set_index d (rev (default_labels n)) data)
  end.

(** [np.diff(v)[0]] *)
Definition np_diff0 (v : list float) : option float :=
  x1 ← v !! 1;
  x0 ← v !! 0;
  Some (x1 - x0)%float.

(** The one-dimensional array [a] itself, [a[0, :]] and [a[:, 0]]. *)
Definition vector (a : ndarray) : option (list float) :=
  if decide (ndim a = 1) then Some (buf a) else None.

Definition row0 (a : ndarray) : option (list float) :=
  match shape a with
  | [ny; nx] => if decide (ny = 0) then None else Some (take nx (buf a))
  | _ => None
  end.

Definition col0 (a : ndarray) : option (list float) :=
  match shape a with
  | [ny; nx] => mapM head (split_blocks (replicate ny nx) (buf a))
  | _ => None
  end.

Definition negative (x : float) : bool := (x <? 0)%float.

(** [get_obs_data] from the line "Make sure lon/lat elements are in
    ascending order" on, for longitudes and latitudes of the same
    number of dimensions; the result is the pair of ['data'] and
    ['grid']. *)
Definition get_obs_data (obs_data : ObsData) : option (ObsData * Grid) :=
  let lons := c_values (od_lon obs_data) in
  let lats := c_values (od_lat obs_data) in
  xd ← head (filter (λ x, x ∈ spcdim_x) (od_dims obs_data).*1);
  yd ← head (filter (λ y, y ∈ spcdim_y) (od_dims obs_data).*1);
  '(lons, lats, obs_data) ←
    (if decide (ndim lons = 1) then
       d ← vector lons ≫= np_diff0;
       '(lons, obs_data) ←
         (if negative d then
            obs_data ← xr_reindex_reversed xd obs_data;
            Some (flip_axis 0 lons, obs_data)
          else Some (lons, obs_data));
       d ← vector lats ≫= np_diff0;
       '(lats, obs_data) ←
         (if negative d then
            obs_data ← xr_reindex_reversed yd obs_data;
            Some (flip_axis 0 lats, obs_data)
          else Some (lats, obs_data));
       Some (lons, lats, obs_data)
     else if decide (ndim lons = 2) then
       d ← row0 lons ≫= np_diff0;
       '(lons, obs_data) ←
         (if negative d then
            flipped ← np_flipud lons;
            obs_data ← xr_reindex_reversed xd obs_data;
            Some (flipped, obs_data)
          else Some (lons, obs_data));
       d ← col0 lats ≫= np_diff0;
       '(lats, obs_data) ←
         (if negative d then
            flipped ← np_flipud lats;
            obs_data ← xr_reindex_reversed yd obs_data;
            Some (flipped, obs_data)
          else Some (lats, obs_data));
       Some (lons, lats, obs_data)
     else Some (lons, lats, obs_data));
  let grid := {| g_lon := lons; g_lat := lats; g_lon_b := None; g_lat_b := None |} in
  Some (obs_data, grid).

(** ** dask arrays *)

(** Position of a multi-index in C (row-major) order, and the
    multi-index at a position. *)
Fixpoint ravel (shp idx : list nat) : nat :=
  match shp, idx with
  | _ :: shp', i :: idx' => i * prod_list shp' + ravel shp' idx'
  | _, _ => 0
  end.

Fixpoint unravel (shp : list nat) (k : nat) : list nat :=
  match shp with
  | [] => []
  | _ :: shp' => k / prod_list shp' :: unravel shp' (k `mod` prod_list shp')
  end.

(** A multi-index that lies within a shape. *)
Definition in_shape (idx shp : list nat) : Prop := Forall2 lt idx shp.

#[global] Instance in_shape_dec : RelDecision in_shape.
Proof. intros idx shp. unfold in_shape. apply Forall2_dec. intros x y. apply Nat.lt_dec. Defined.

(** [a[idx]] with one index per dimension. *)
Definition nd_get (a : ndarray) (idx : list nat) : option float :=
  if decide (in_shape idx (shape a)) then buf a !! ravel (shape a) idx else None.

(** A dask array: the block sizes along each dimension ([A.chunks]) and
    the blocks themselves, each an array of its own, in C order of their
    block indices. *)
Record DaskArray : Type := mk_DaskArray {
  da_chunks : list (list nat);
  da_blocks : list ndarray;
}.

Definition da_shape (A : DaskArray) : list nat := sum_list <$> da_chunks A.

(** Shape of the block with block index [bidx] and the position of its
    first element in the whole array. *)
Definition block_shape (chunks : list (list nat)) (bidx : list nat) : list nat :=
  zip_with (λ c b, default 0 (c !! b)) chunks bidx.

Definition block_offset (chunks : list (list nat)) (bidx : list nat) : list nat :=
  zip_with (λ c b, sum_list (take b c)) chunks bidx.

(** The block with block index [bidx], its elements read one by one at
    their positions in the whole array. *)
Definition da_block (read : list nat → option float) (chunks : list (list nat))
    (bidx : list nat) : option ndarray :=
  let shp := block_shape chunks bidx in
  let off := block_offset chunks bidx in
  b ← mapM (λ j, read (zip_with Nat.add off (unravel shp j))) (seq 0 (prod_list shp));
  Some {| shape := shp; buf := b |}.

Definition da_build (read : list nat → option float) (chunks : list (list nat))
    : option DaskArray :=
  let nb := length <$> chunks in
  blocks ← mapM (λ k, da_block read chunks (unravel nb k)) (seq 0 (prod_list nb));
  Some {| da_chunks := chunks; da_blocks := blocks |}.

(** [da.from_array(a, chunks)]: the blocks must add up to the shape. *)
Definition da_from_array (a : ndarray) (chunks : list (list nat)) : option DaskArray :=
  if decide (sum_list <$> chunks = shape a) then da_build (nd_get a) chunks else None.

(** The block that holds position [i] along a dimension cut in blocks
    [bs], and the position within that block. *)
Fixpoint locate (bs : list nat) (i : nat) : nat * nat :=
  match bs with
  | [] => (0, i)
  | b :: bs' =>
      if decide (i < b) then (0, i)
      else let p := locate bs' (i - b) in (S p.1, p.2)
  end.

(** [A[idx]]: the element is looked up in the block that holds it. *)
Definition da_get (A : DaskArray) (idx : list nat) : option float :=
  if decide (in_shape idx (da_shape A)) then
    let loc := zip_with locate (da_chunks A) idx in
    blk ← da_blocks A !! ravel (length <$> da_chunks A) loc.*1;
    nd_get blk loc.*2
  else None.

(** [A.rechunk(chunks)]: new blocks over the same positions; every
    element of a new block is taken from the old block that holds its
    position. *)
Definition da_rechunk (A : DaskArray) (chunks : list (list nat)) : option DaskArray :=
  if decide (sum_list <$> chunks = da_shape A) then da_build (da_get A) chunks else None.

(** [A.compute()]: the blocks put together as one array. *)
Definition da_compute (A : DaskArray) : option ndarray :=
  let shp := da_shape A in
  b ← mapM (λ k, da_get A (unravel shp k)) (seq 0 (prod_list shp));
  Some {| shape := shp; buf := b |}.

(** The blocks of a variable of a dataset: along each of its dimensions
    the blocks that the dataset records, one block where it records
    none. *)
Definition var_chunks (data : Dataset) (dims : list string) : option (list (list nat)) :=
  mapM (λ d, n ← assoc d (ds_dims data); Some (default [n] (assoc d (ds_chunks data)))) dims.

Definition dask_of (data : Dataset) (dv : DataVar) : option DaskArray :=
  chunks ← var_chunks data (dv_dims dv);
  da_from_array (dv_data dv) chunks.

(** A variable fits its dataset: one dimension of the dataset per axis,
    of that size, and one element per position. *)
Definition var_fits (data : Dataset) (dv : DataVar) : Prop :=
  Some <$> shape (dv_data dv) = (λ d, assoc d (ds_dims data)) <$> dv_dims dv
  ∧ length (buf (dv_data dv)) = size (dv_data dv).

(** ** [get_month_string] *)

(** The months of a participant as the configuration holds them: a
    Python tuple or a Python list of integers.  A tuple and a list
    never compare equal, whatever they hold. *)
Inductive pyseq : Type :=
  | py_tuple (items : list Z)
  | py_list (items : list Z).

Definition py_items (s : pyseq) : list Z :=
  match s with py_tuple l | py_list l => l end.

#[global] Instance pyseq_eq_dec : EqDecision pyseq.
Proof. solve_decision. Defined.

(** The dictionary [d] of month initials. *)
Definition month_letters : gmap Z string :=
  list_to_map [(1, "J"); (2, "F"); (3, "M"); (4, "A"); (5, "M"); (6, "J"); (7, "J");
               (8, "A"); (9, "S"); (10, "O"); (11, "N"); (12, "D")]%Z.

Definition get_month_string (mlist : pyseq) : option string :=
  let d := month_letters in
  if decide (length (py_items mlist) = 12) then Some "ANN"
  else
    let mlist := if decide (mlist = py_tuple [1; 2; 12]%Z) then py_tuple [12; 1; 2]%Z
                 else mlist in
    letters ← mapM (λ m, d !! m) (py_items mlist);
    Some (String.concat "" letters).

(** ** [get_grid_coords] *)

(** A Python index on an axis of length [n]: a negative index counts
    from the end, an index out of range is an [IndexError]. *)
Definition py_index (n : nat) (i : Z) : option nat :=
  if decide (0 ≤ i < Z.of_nat n)%Z then Some (Z.to_nat i)
  else if decide (- Z.of_nat n ≤ i < 0)%Z then Some (Z.to_nat (Z.of_nat n + i))
  else None.

(** The positions that the slice [start:stop] selects on an axis of
    length [n]: a negative bound counts from the end and bounds beyond
    the ends are clipped, so that a slice never raises. *)
Definition py_slice_bound (n : nat) (i : Z) : nat :=
  Z.to_nat (if decide (i < 0)%Z then Z.max (Z.of_nat n + i) 0 else Z.min i (Z.of_nat n)).

Definition py_slice (n : nat) (start stop : Z) : list nat :=
  let lo := py_slice_bound n start in
  let hi := py_slice_bound n stop in
  seq lo (hi - lo).

(** [a[i, j]], [a[i, start:stop]] and [a[start:stop, j]] on a
    two-dimensional array. *)
Definition np_item (a : ndarray) (i j : Z) : option float :=
  match shape a with
  | [ny; nx] =>
      i ← py_index ny i;
      j ← py_index nx j;
      buf a !! (i * nx + j)
  | _ => None
  end.

Definition np_row_slice (a : ndarray) (i start stop : Z) : option (list float) :=
  match shape a with
  | [ny; nx] =>
      i ← py_index ny i;
      mapM (λ j, buf a !! (i * nx + j)) (py_slice nx start stop)
  | _ => None
  end.

Definition np_col_slice (a : ndarray) (start stop j : Z) : option (list float) :=
  match shape a with
  | [ny; nx] =>
      j ← py_index nx j;
      mapM (λ i, buf a !! (i * nx + j)) (py_slice ny start stop)
  | _ => None
  end.

(** [np.r_[a[x, x:-x], a[x:-x, -1-x][1:], a[-1-x, x:-x][::-1][1:],
    a[x:-x, x][::-1][1:]]], which the inner function [_domain] forms of
    the longitudes and of the latitudes: the values on the rectangle
    that lies [x] points inside the grid, once around. *)
Definition around (a : ndarray) (x : Z) : option (list float) :=
  s1 ← np_row_slice a x x (- x);
  s2 ← np_col_slice a x (- x) (-1 - x);
  s3 ← np_row_slice a (-1 - x) x (- x);
  s4 ← np_col_slice a x (- x) x;
  Some (s1 ++ drop 1 s2 ++ drop 1 (reverse s3) ++ drop 1 (reverse s4)).

Definition _domain (lats lons : ndarray) (x : Z) : option (list (float * float)) :=
  lons_p ← around lons x;
  lats_p ← around lats x;
  Some (zip lons_p lats_p).

(** What the dictionary [grid_coords] of one model holds: an attribute
    value, a list of numbers, or a list of points. *)
Inductive gc_value : Type :=
  | gc_attr (a : string)
  | gc_floats (l : list float)
  | gc_points (l : list (float * float)).

Definition gp_bfr : Z := 15.

(** [nc.lat.values] and [nc.lon.values] of a model are two-dimensional;
    the dictionary is updated in place and returned. *)
Definition get_grid_coords (nc : Dataset) (grid_coords : gmap string gc_value)
    : option (gmap string gc_value) :=
  lc ← assoc "Lambert_Conformal" (ds_vars nc);
  lat_0 ← assoc "latitude_of_projection_origin" (dv_attrs lc);
  let grid_coords := <["lat_0" := gc_attr lat_0]> grid_coords in
  lon_0 ← assoc "longitude_of_central_meridian" (dv_attrs lc);
  let grid_coords := <["lon_0" := gc_attr lon_0]> grid_coords in
  let lat := c_values (ds_lat nc) in
  let lon := c_values (ds_lon nc) in
  c0 ← np_item lat gp_bfr gp_bfr;
  c1 ← np_item lon gp_bfr gp_bfr;
  c2 ← np_item lat (- gp_bfr) (- gp_bfr);
  c3 ← np_item lon (- gp_bfr) (- gp_bfr);
  let grid_coords := <["crnrs" := gc_floats [c0; c1; c2; c3]]> grid_coords in
  domain ← _domain lat lon gp_bfr;
  Some (<["domain" := gc_points domain]> grid_coords).

(** ** [save_to_disk] *)

(** [s.replace(a, b)] for single characters. *)
Fixpoint replace_char (a b : Ascii.ascii) (s : string) : string :=
  match s with
  | EmptyString => EmptyString
  | String c s' => String (if Ascii.eqb c a then b else c) (replace_char a b s')
  end.

Fixpoint last_char (s : string) : option Ascii.ascii :=
  match s with
  | EmptyString => None
  | String c EmptyString => Some c
  | String _ s' => last_char s'
  end.

(** [os.path.join(a, *p)] on a POSIX system: a component that starts
    with a slash discards what came before it; otherwise it is added
    after a slash, unless the path so far is empty or ends in one. *)
Definition path_join2 (path b : string) : string :=
  if String.prefix "/" b then b
  else if bool_decide (path = "") || bool_decide (last_char path = Some "/"%char)
  then path +:+ b
  else path +:+ "/" +:+ b.

Definition os_path_join (a : string) (p : list string) : string := foldl path_join2 a p.

(** [attrs[k] = v] on a dictionary of attributes: an entry that is
    there is replaced where it stands, a new one is added at the end. *)
Fixpoint set_attr (k v : string) (a : attrs) : attrs :=
  match a with
  | [] => [(k, v)]
  | (k', v') :: a' => if decide (k' = k) then (k, v) :: a' else (k', v') :: set_attr k v a'
  end.

Definition with_attr (k v : string) (d : Dataset) : Dataset :=
  {| ds_dims := ds_dims d; ds_chunks := ds_chunks d; ds_time := ds_time d;
     ds_lon := ds_lon d; ds_lat := ds_lat d; ds_vars := ds_vars d;
     ds_attrs := set_attr k v (ds_attrs d) |}.

Definition cycle_stats : list string := ["annual cycle"; "seasonal cycle"; "diurnal cycle"].

(** ["{}-{} | {}".format(sy, ey, tsuffix)] *)
Definition analysed_time (sy ey : Z) (tsuffix : string) : string :=
  pretty sy +:+ "-" +:+ pretty ey +:+ " | " +:+ tsuffix.

(** The two file names: with a region,
    ['{}_{}_{}_{}{}{}_{}_{}_{}-{}_{}.nc'], and for the domain,
    ['{}_{}_{}_{}{}{}_{}_{}-{}_{}.nc']. *)
Definition stat_file_name (label stat_name var thr tres tstat : string) (rn : option string)
    (grid : string) (sy ey : Z) (tsuffix : string) : string :=
  label +:+ "_" +:+ stat_name +:+ "_" +:+ var +:+ "_" +:+ thr +:+ tres +:+ tstat +:+ "_"
    +:+ (match rn with Some rn => rn +:+ "_" | None => "" end)
    +:+ grid +:+ "_" +:+ pretty sy +:+ "-" +:+ pretty ey +:+ "_" +:+ tsuffix +:+ ".nc".

(** One turn of [for r in regs]: the dataset of the region gets its
    attribute, in place, and is written.  The calls of [to_netcdf] are
    kept, in order, as pairs of path and dataset. *)
Definition save_region (label stat_name odir var grid : string) (sy ey : Z)
    (tsuffix tres thr tstat : string)
    (acc : option (PStats * list (string * Dataset))) (r : string)
    : option (PStats * list (string * Dataset)) :=
  '(data, written) ← acc;
  let rn := replace_char " "%char "_"%char r in
  regions ← st_regions data;
  ds ← regions !! r;
  let ds := with_attr "Analysed time" (analysed_time sy ey tsuffix) ds in
  let fname := stat_file_name label stat_name var thr tres tstat (Some rn) grid sy ey tsuffix in
  Some ({| st_domain := st_domain data; st_regions := Some (<[r := ds]> regions) |},
        written ++ [(os_path_join odir [stat_name; fname], ds)]).

(** [stat_dict] is the configuration of the statistic, of which the
    string-valued entries are read; the years are integers. *)
Definition save_to_disk (data : PStats) (label stat odir var grid : string) (sy ey : Z)
    (tsuffix : string) (stat_dict : gmap string string) (tres thr : string)
    (regs : option (list string)) (written : list (string * Dataset))
    : option (PStats * list (string * Dataset)) :=
  tstat ← (if decide (stat ∈ cycle_stats) then
             time_stat ← stat_dict !! "time stat";
             Some ("_" +:+ replace_char " "%char "_"%char time_stat)
           else Some "");
  let stat_name := replace_char " "%char "_"%char stat in
  '(data, written) ←
    match regs with
    | Some regs =>
        foldl (save_region label stat_name odir var grid sy ey tsuffix tres thr tstat)
              (Some (data, written)) regs
    | None => Some (data, written)
    end;
  let fname := stat_file_name label stat_name var thr tres tstat None grid sy ey tsuffix in
  let domain := with_attr "Analysed time" (analysed_time sy ey tsuffix) (st_domain data) in
  Some ({| st_domain := domain; st_regions := st_regions data |},
        written ++ [(os_path_join odir [stat_name; fname], domain)]).

(** ** Well-formed datasets *)

(** Dimension names are distinct and the blocks recorded for a dimension
    add up to its size. *)
Definition chunks_cover (data : Dataset) : Prop :=
  NoDup (ds_dims data).*1
  ∧ Forall (λ kv, assoc kv.1 (ds_dims data) = Some (sum_list kv.2)) (ds_chunks data).

(** Everything of a dataset but its blocks. *)
Definition content (data : Dataset)
    : list (string * nat) * list Z * Coord * Coord * list (string * DataVar) * attrs :=
  (ds_dims data, ds_time data, ds_lon data, ds_lat data, ds_vars data, ds_attrs data).

(** A sparse matrix has one row per target cell and stores weights for
    source cells only. *)
Definition sparse_wf (A : sparse) : Prop :=
  length (sp_rows A) = n_out A
  ∧ Forall (Forall (λ e : nat * float, e.1 < n_in A)) (sp_rows A).

(** Every variable has one field per time label. *)
Definition time_indexed (data : TimeData) : Prop :=
  Forall (λ kv : string * list (list float), length kv.2 = n_time data) (td_vars data).

(** ** Two-dimensional arrays *)

(** An array of [H] rows and [W] columns. *)
Definition is_2d (a : ndarray) (H W : nat) : Prop :=
  shape a = [H; W] ∧ length (buf a) = H * W.

(** The element in row [ij.1] and column [ij.2]. *)
Definition cell (a : ndarray) (ij : nat * nat) : option float :=
  match shape a with
  | [ny; nx] => if decide (ij.1 < ny ∧ ij.2 < nx) then buf a !! (ij.1 * nx + ij.2) else None
  | _ => None
  end.

(** The [k]-th grid point met when the rectangle that lies [x] points
    inside a grid of [H] rows and [W] columns is followed from its
    corner [(x, x)]: along row [x], along the last column, back along
    the last row and back along column [x]. *)
Definition ring_cell (x H W k : nat) : nat * nat :=
  let w := W - 2 * x in
  let h := H - 2 * x in
  if decide (k < w) then (x, x + k)
  else if decide (k < w + h - 1) then (x + (k - w) + 1, W - 1 - x)
  else if decide (k < 2 * w + h - 2) then (H - 1 - x, W - 1 - x - (k - (w + h - 1)) - 1)
  else (H - 1 - x - (k - (2 * w + h - 2)) - 1, x).

(** Number of grid points on that rectangle. *)
Definition ring_length (x H W : nat) : nat := 2 * (W - 2 * x) + 2 * (H - 2 * x) - 3.

(** ** Sample inputs *)

Definition empty_coord : Coord := mk_Coord [] (mk_ndarray [] []).

(** A dataset with the given dimensions and blocks and no data. *)
Definition ds_of (dims : list (string * nat)) (chunks : list (string * list nat)) : Dataset :=
  mk_Dataset dims chunks [] empty_coord empty_coord [] [].

(** A 1000 x 1000 grid, ten time steps, one block. *)
Definition ds_1000 : Dataset :=
  ds_of [("time", 10); ("x", 1000); ("y", 1000)]
        [("time", [10]); ("x", [1000]); ("y", [1000])].

(** 700 time steps in 700 blocks of one step. *)
Definition ds_700 : Dataset :=
  ds_of [("time", 700); ("x", 4); ("y", 3)]
        [("time", replicate 700 1); ("x", [4]); ("y", [3])].

(** 600 time steps in 501 blocks: 99 of two steps and 402 of one. *)
Definition ds_600 : Dataset :=
  ds_of [("time", 600); ("x", 4); ("y", 3)]
        [("time", replicate 99 2 ++ replicate 402 1); ("x", [4]); ("y", [3])].

(** 10000 time steps in one block. *)
Definition ds_10000 : Dataset :=
  ds_of [("time", 10000); ("x", 4); ("y", 3)]
        [("time", [10000]); ("x", [4]); ("y", [3])].

(** A variable with the values 0, 1, 2, ... in C order. *)
Definition counting (shp : list nat) : ndarray :=
  {| shape := shp;
     buf := (λ k, binary64.of_Z (Z.of_nat k)) <$> seq 0 (prod_list shp) |}.

(** Two time steps on a grid of 3 x 4 points, cut in eight blocks. *)
Definition tas_tiles : DataVar :=
  {| dv_dims := ["time"; "y"; "x"]; dv_data := counting [2; 3; 4];
     dv_attrs := [("units", "K")] |}.

Definition ds_tiles : Dataset :=
  {| ds_dims := [("time", 2); ("x", 4); ("y", 3)];
     ds_chunks := [("time", [1; 1]); ("y", [1; 2]); ("x", [2; 2])];
     ds_time := [0; 3600000000000]%Z;
     ds_lon := {| c_dims := ["x"]; c_values := mk_ndarray [4] [10; 11; 12; 13]%float |};
     ds_lat := {| c_dims := ["y"]; c_values := mk_ndarray [3] [50; 51; 52]%float |};
     ds_vars := [("tas", tas_tiles)];
     ds_attrs := [("domain", "EUR-11")] |}.

(** 800 time steps on a grid of 1 x 2 points, every step a block. *)
Definition tas_steps : DataVar :=
  {| dv_dims := ["time"; "y"; "x"]; dv_data := counting [800; 1; 2];
     dv_attrs := [("units", "K")] |}.

Definition ds_steps : Dataset :=
  {| ds_dims := [("time", 800); ("x", 2); ("y", 1)];
     ds_chunks := [("time", replicate 800 1); ("y", [1]); ("x", [2])];
     ds_time := (λ k, Z.of_nat k * 3600000000000)%Z <$> seq 0 800;
     ds_lon := {| c_dims := ["x"]; c_values := mk_ndarray [2] [10; 11]%float |};
     ds_lat := {| c_dims := ["y"]; c_values := mk_ndarray [1] [50]%float |};
     ds_vars := [("tas", tas_steps)];
     ds_attrs := [("domain", "EUR-11")] |}.

(** Three time steps of a two-cell field holding accumulated values. *)
Definition td_acc : TimeData :=
  {| td_time := [0; 3600; 7200]%Z;
     td_vars := [("pr", [[1; 2]; [4; 4]; [9; 5]]%float)] |}.

(** An observation dataset on a two-dimensional grid whose longitudes
    decrease along [x]: [lon[0, :] = [3, 2, 1]].  Its dimensions [x] and
    [y] have index coordinates. *)
Definition od_2d : ObsData :=
  {| od_dims := [("time", 1); ("x", 3); ("y", 2)];
     od_index := [("x", [0; 1; 2]%float); ("y", [0; 1]%float)];
     od_lon := {| c_dims := ["y"; "x"];
                  c_values := mk_ndarray [2; 3] [3; 2; 1; 6; 5; 4]%float |};
     od_lat := {| c_dims := ["y"; "x"];
                  c_values := mk_ndarray [2; 3] [0; 0; 0; 1; 1; 1]%float |};
     od_vars := [("tas", {| dv_dims := ["time"; "y"; "x"];
                            dv_data := mk_ndarray [1; 2; 3] [10; 20; 30; 40; 50; 60]%float;
                            dv_attrs := [] |})] |}.

(** The same longitudes on a rectilinear grid: [lon = [3, 2, 1]]. *)
Definition od_1d : ObsData :=
  {| od_dims := [("time", 1); ("x", 3); ("y", 2)];
     od_index := [("x", [0; 1; 2]%float); ("y", [0; 1]%float)];
     od_lon := {| c_dims := ["x"]; c_values := mk_ndarray [3] [3; 2; 1]%float |};
     od_lat := {| c_dims := ["y"]; c_values := mk_ndarray [2] [0; 1]%float |};
     od_vars := [("tas", {| dv_dims := ["time"; "y"; "x"];
                            dv_data := mk_ndarray [1; 2; 3] [10; 20; 30; 40; 50; 60]%float;
                            dv_attrs := [] |})] |}.

(** The same datasets without index coordinates on [x] and [y]. *)
Definition without_index (data : ObsData) : ObsData :=
  {| od_dims := od_dims data; od_index := []; od_lon := od_lon data;
     od_lat := od_lat data; od_vars := od_vars data |}.

(** *** A small pipeline *)

(** Two target cells over four source cells: the first is the mean of
    the first two source cells, the second overlaps none of them. *)
Definition A_sample : sparse :=
  {| n_out := 2; n_in := 4; sp_rows := [[(0, 0.5%float); (1, 0.5%float)]; []] |}.

Definition add_attr (kv : string * string) (data : Dataset) : Dataset :=
  {| ds_dims := ds_dims data; ds_chunks := ds_chunks data; ds_time := ds_time data;
     ds_lon := ds_lon data; ds_lat := ds_lat data; ds_vars := ds_vars data;
     ds_attrs := ds_attrs data ++ [kv] |}.

(** Collaborators that leave a trace in the attributes: the statistics
    record their name, masking records the region mask it was given. *)
Definition sample_collaborators : Collaborators :=
  {| xe_Regridder := λ _ _ _, Some A_sample;
     fnCellCorners := λ lon lat, Some (lon, lat);
     calc_statistics := λ data _ stat _, Some (add_attr ("statistic", stat) data);
     reg_mask := λ _ _ r, Some (mk_Mask [2; 2] [true; false; false; String.eqb r "R1"]);
     xr_where_drop := λ data mask_in _,
       Some (add_attr ("masked", if last (mask_buf mask_in) is Some true then "R1"
                                 else "other") data);
     xr_select := λ data _, Some data;
     xr_resample := λ data _ _, Some data;
     pd_total_seconds := λ _, Some 3600%float |}.

(** A model on a 2 x 2 grid, two time steps in two blocks. *)
Definition ds_model : Dataset :=
  {| ds_dims := [("time", 2); ("x", 2); ("y", 2)];
     ds_chunks := [("time", [1; 1]); ("y", [2]); ("x", [2])];
     ds_time := [0; 3600000000000]%Z;
     ds_lon := {| c_dims := ["x"]; c_values := mk_ndarray [2] [0; 1]%float |};
     ds_lat := {| c_dims := ["y"]; c_values := mk_ndarray [2] [50; 51]%float |};
     ds_vars := [("tas", {| dv_dims := ["time"; "y"; "x"];
                            dv_data := mk_ndarray [2; 2; 2] [1; 2; 3; 4; 5; 6; 7; 8]%float;
                            dv_attrs := [("units", "K")] |})];
     ds_attrs := [("domain", "EUR-11")] |}.

(** An observation on a rectilinear 1 x 2 grid. *)
Definition ds_obs : Dataset :=
  {| ds_dims := [("time", 2); ("x", 2); ("y", 1)];
     ds_chunks := [("time", [2]); ("y", [1]); ("x", [2])];
     ds_time := [0; 3600000000000]%Z;
     ds_lon := {| c_dims := ["x"]; c_values := mk_ndarray [2] [10; 20]%float |};
     ds_lat := {| c_dims := ["y"]; c_values := mk_ndarray [1] [5]%float |};
     ds_vars := [("tas", {| dv_dims := ["time"; "y"; "x"];
                            dv_data := mk_ndarray [2; 1; 2] [9; 9; 9; 9]%float;
                            dv_attrs := [("units", "K")] |})];
     ds_attrs := [("source", "gridded observations")] |}.

Definition grid_of (data : Dataset) : Grid :=
  {| g_lon := c_values (ds_lon data); g_lat := c_values (ds_lat data);
     g_lon_b := None; g_lat_b := None |}.

Definition entry_m1 : Entry :=
  {| e_data := ds_model; e_grid := grid_of ds_model; e_gridname := "grid_M1_EUR-11" |}.
Definition entry_obs : Entry :=
  {| e_data := ds_obs; e_grid := grid_of ds_obs; e_gridname := "grid_OBS" |}.
Definition entry_obs2 : Entry :=
  {| e_data := ds_model; e_grid := grid_of ds_model; e_gridname := "grid_OBS2" |}.

Definition dd_sample : gmap string Entry :=
  {[ "m1" := entry_m1; "obs" := entry_obs; "obs2" := entry_obs2 ]}.

Definition gdict_empty : Gdict :=
  {| gd_lon := None; gd_lat := None; gd_gridname := None |}.

(** The statistics input: model [m1] has data, model [m2] has none. *)
Definition parts_sample : gmap string (option Entry) :=
  {[ "m1" := Some entry_m1; "m2" := None ]}.
Definition ddict_sample : gmap string (gmap string (gmap string (option Entry))) :=
  {[ "day" := {[ "tas" := parts_sample ]} ]}.
Definition vv_sample : gmap string string := {[ "tas" := "day" ]}.
Definition stats_config_sample : gmap string StatConf :=
  {[ "seasonal cycle" := {| resample_resolution := None |} ]}.

(** *** Further sample inputs *)

(** A grid of [H] rows and [W] columns whose value in row [i] and
    column [j] is [f i j]. *)
Definition sample_grid (H W : nat) (f : nat → nat → nat) : ndarray :=
  {| shape := [H; W];
     buf := (λ k, binary64.of_Z (Z.of_nat (f (k / W) (k `mod` W)))) <$> seq 0 (H * W) |}.

(** Longitudes that count the columns and latitudes that count the
    rows, on 4 x 5 points. *)
Definition lon_4x5 : ndarray := sample_grid 4 5 (λ i j, j).
Definition lat_4x5 : ndarray := sample_grid 4 5 (λ i j, i).

(** A model on a Lambert conformal grid of 32 x 33 points. *)
Definition nc_lambert : Dataset :=
  {| ds_dims := [("time", 1); ("x", 33); ("y", 32)];
     ds_chunks := [("time", [1]); ("y", [32]); ("x", [33])];
     ds_time := [0]%Z;
     ds_lon := {| c_dims := ["y"; "x"]; c_values := sample_grid 32 33 (λ i j, j) |};
     ds_lat := {| c_dims := ["y"; "x"]; c_values := sample_grid 32 33 (λ i j, i) |};
     ds_vars := [("Lambert_Conformal",
                  {| dv_dims := []; dv_data := mk_ndarray [] [0%float];
                     dv_attrs := [("latitude_of_projection_origin", "63.0");
                                  ("longitude_of_central_meridian", "15.0")] |})];
     ds_attrs := [("domain", "EUR-11")] |}.

(** Configurations without a regrid target, with a model as the
    target, and with a target that is no participant. *)
Definition vconf_native : VarConf := {| regrid := None; rgr_method := "bilinear" |}.
Definition vconf_unknown : VarConf := {| regrid := Some "era5"; rgr_method := "bilinear" |}.


(** Region masks on 2 x 2 and on 2 x 3 points. *)
Definition mask_2x2 : Mask := mk_Mask [2; 2] [true; false; false; true].
Definition mask_2x3 : Mask := mk_Mask [2; 3] [true; false; false; true; true; false].

(** An observation on a two-dimensional grid whose latitudes decrease
    down the rows; [x] and [y] have index coordinates. *)
Definition od_2d_lat : ObsData :=
  {| od_dims := [("time", 1); ("x", 3); ("y", 2)];
     od_index := [("x", [0; 1; 2]%float); ("y", [0; 1]%float)];
     od_lon := {| c_dims := ["y"; "x"];
                  c_values := mk_ndarray [2; 3] [1; 2; 3; 1; 2; 3]%float |};
     od_lat := {| c_dims := ["y"; "x"];
                  c_values := mk_ndarray [2; 3] [1; 1; 1; 0; 0; 0]%float |};
     od_vars := [("tas", {| dv_dims := ["time"; "y"; "x"];
                            dv_data := mk_ndarray [1; 2; 3] [10; 20; 30; 40; 50; 60]%float;
                            dv_attrs := [] |})] |}.

(** The string-valued settings of the statistic 'seasonal cycle'. *)
Definition stat_dict_sample : gmap string string := {[ "time stat" := "mean" ]}.

(** An observation on a rectilinear grid whose longitudes and latitudes
    are the coordinates of the dimensions [lon] and [lat], both in
    descending order; and one whose longitudes hold a value twice. *)
Definition od_lonlat : ObsData :=
  {| od_dims := [("time", 1); ("lat", 2); ("lon", 3)];
     od_index := [];
     od_lon := {| c_dims := ["lon"]; c_values := mk_ndarray [3] [3; 2; 1]%float |};
     od_lat := {| c_dims := ["lat"]; c_values := mk_ndarray [2] [1; 0]%float |};
     od_vars := [("tas", {| dv_dims := ["time"; "lat"; "lon"];
                            dv_data := mk_ndarray [1; 2; 3] [10; 20; 30; 40; 50; 60]%float;
                            dv_attrs := [] |})] |}.

Definition od_lonlat_twice : ObsData :=
  {| od_dims := [("time", 1); ("lat", 2); ("lon", 3)];
     od_index := [];
     od_lon := {| c_dims := ["lon"]; c_values := mk_ndarray [3] [3; 2; 2]%float |};
     od_lat := {| c_dims := ["lat"]; c_values := mk_ndarray [2] [1; 0]%float |};
     od_vars := [] |}.

(** A rectilinear grid with a single longitude. *)
Definition od_single : ObsData :=
  {| od_dims := [("time", 1); ("x", 1); ("y", 2)];
     od_index := [];
     od_lon := {| c_dims := ["x"]; c_values := mk_ndarray [1] [3]%float |};
     od_lat := {| c_dims := ["y"]; c_values := mk_ndarray [2] [0; 1]%float |};
     od_vars := [] |}.

(** The statistics of one participant, on the domain and on one
    region. *)
Definition pstats_sample : PStats :=
  {| st_domain := ds_model; st_regions := Some {[ "North Sea" := ds_obs ]} |}.

(** * Properties *)

(** ** Rounding *)

#[local] Open Scope Z_scope.

(** [np_round_div a b] is within one half of [a / b]. *)
Lemma np_round_div_spec a b :
  0 < b → Z.abs (2 * a - 2 * b * np_round_div a b) ≤ b.
Proof.
  intros Hb. unfold np_round_div.
  pose proof (Z.div_mod a b ltac:(lia)) as Hdm.
  pose proof (Z.mod_pos_bound a b Hb) as Hr.
  repeat case_match; lia.
Qed.

Lemma np_round_div_nonneg a b : 0 ≤ a → 0 < b → 0 ≤ np_round_div a b.
Proof.
  intros Ha Hb. unfold np_round_div.
  assert (0 ≤ a / b) by (apply Z.div_pos; lia).
  repeat case_match; lia.
Qed.

(** The exact rounding and the binary64 computation agree on every time
    size up to 100000. *)
Lemma binary64_round_div_agrees :
  agree_round_div 500 (binary64.Zrange 0 100001) = true.
Proof. vm_compute. reflexivity. Qed.

#[local] Close Scope Z_scope.

(** The chunk edge of 'space' mode on some grids; on the last one,
    [2025 / sqrt (2000 * 2025 / 500) = 22.5] is a tie and rounds to the
    even 22. *)
Lemma space_chunk_size_samples :
  space_chunk_size 1000 1000 = Some 22
  ∧ space_chunk_size 1 1 = Some 22
  ∧ space_chunk_size 100 4000 = Some 141
  ∧ space_chunk_size 2000 2025 = Some 22
  ∧ space_chunk_size 0 7 = None
  ∧ space_chunk_size 0 0 = None.
Proof. repeat split; vm_compute; reflexivity. Qed.

(** ** Ordered dictionaries *)

Section assoc.
Context {A : Type}.
Implicit Types (d : list (string * A)) (k : string).

Lemma assoc_elem_of d k v : assoc k d = Some v → (k, v) ∈ d.
Proof.
  induction d as [|[k' v'] d IH]; simpl; [done|].
  case_decide; intros; simplify_eq; [left|right; auto].
Qed.

Lemma assoc_is_Some d k : k ∈ d.*1 → is_Some (assoc k d).
Proof.
  induction d as [|[k' v'] d IH]; simpl; [by intros ?%elem_of_nil|].
  intros [->|?]%elem_of_cons; case_decide; eauto; done.
Qed.

Lemma assoc_NoDup d k v : NoDup d.*1 → (k, v) ∈ d → assoc k d = Some v.
Proof.
  induction d as [|[k' v'] d IH]; simpl; [by intros _ ?%elem_of_nil|].
  intros [Hk Hd]%NoDup_cons [?|Hin]%elem_of_cons; simplify_eq.
  - by rewrite decide_True.
  - rewrite decide_False; [auto|]. intros ->. apply Hk.
    apply (list_elem_of_fmap_2 fst) in Hin. done.
Qed.
End assoc.

(** ** Blocks *)

Lemma uniform_blocks_sum d bd bs : uniform_blocks d bd = Some bs → sum_list bs = d.
Proof.
  unfold uniform_blocks. repeat case_decide; intros; simplify_eq; simpl; [lia|..].
  - rewrite sum_list_with_app, sum_list_replicate. simpl.
    pose proof (Nat.div_mod_eq d bd). lia.
  - rewrite sum_list_with_app, sum_list_replicate. simpl.
    pose proof (Nat.div_mod_eq d bd). lia.
Qed.

Lemma uniform_blocks_pos d bd : 0 < bd → is_Some (uniform_blocks d bd).
Proof. intros. unfold uniform_blocks. repeat case_decide; eauto; lia. Qed.

(** Blocks of a non-empty dimension are non-empty and at most [bd] long,
    all but the last exactly [bd]. *)
Lemma uniform_blocks_shape d bd bs :
  0 < d → uniform_blocks d bd = Some bs →
  bs = replicate (d / bd) bd ++ (if decide (d mod bd = 0) then [] else [d mod bd])
  ∧ Forall (λ b, 1 ≤ b ≤ bd) bs.
Proof.
  intros Hd. unfold uniform_blocks.
  rewrite decide_False by lia. case_decide; [done|]. intros [= <-]. split; [done|].
  apply Forall_app. split; [apply Forall_replicate; lia|].
  case_decide; [constructor|].
  repeat constructor; [lia|]. pose proof (Nat.mod_upper_bound d bd). lia.
Qed.

(** The blocks that [Dataset.chunk] records for dimension [k]. *)
Lemma rechunk_dims_assoc mapping old dims ch k :
  rechunk_dims mapping old dims = Some ch →
  assoc k ch = n ← assoc k dims;
               match assoc k mapping with
               | Some c => uniform_blocks n c
               | None => Some (default [n] (assoc k old))
               end.
Proof.
  revert ch. induction dims as [|[d n] dims IH]; simpl; intros ch Hch.
  - by simplify_eq.
  - destruct (match assoc d mapping with Some _ => _ | None => _ end) as [bs|] eqn:Hbs;
      simpl in Hch; [|done].
    destruct (rechunk_dims mapping old dims) as [rest|]; simpl in Hch; [|done].
    simplify_eq. simpl. case_decide; [by subst|]. by apply IH.
Qed.

Lemma rechunk_dims_keys mapping old dims ch :
  rechunk_dims mapping old dims = Some ch → ch.*1 = dims.*1.
Proof.
  revert ch. induction dims as [|[d n] dims IH]; simpl; intros ch Hch.
  - by simplify_eq.
  - destruct (match assoc d mapping with Some _ => _ | None => _ end) as [bs|];
      simpl in Hch; [|done].
    destruct (rechunk_dims mapping old dims) as [rest|]; simpl in Hch; [|done].
    simplify_eq. simpl. f_equal. by apply IH.
Qed.

Lemma rechunk_dims_is_Some mapping old dims :
  (∀ d n c, (d, n) ∈ dims → assoc d mapping = Some c → 0 < c) →
  is_Some (rechunk_dims mapping old dims).
Proof.
  induction dims as [|[d n] dims IH]; simpl; intros Hpos; [eauto|].
  destruct IH as [rest ->]; [intros; eapply Hpos; [right|]; done|].
  destruct (assoc d mapping) as [c|] eqn:Hc; simpl; [|eauto].
  destruct (uniform_blocks_pos n c) as [bs ->]; [|simpl; eauto].
  eapply Hpos; [left|done].
Qed.

Lemma xr_chunk_content data mapping data' :
  xr_chunk data mapping = Some data' → content data' = content data.
Proof.
  unfold xr_chunk. case_decide; [|done].
  destruct (rechunk_dims _ _ _); simpl; [|done]. by intros [= <-].
Qed.

Lemma xr_chunk_cover data mapping data' :
  chunks_cover data → xr_chunk data mapping = Some data' → chunks_cover data'.
Proof.
  intros [Hnd Hcov]. unfold xr_chunk. case_decide; [|done].
  destruct (rechunk_dims _ _ _) as [ch|] eqn:Hch; simpl; [|done]. intros [= <-].
  split; [done|]. simpl. apply Forall_forall. intros [d bs] Hin. simpl.
  assert (Hd : d ∈ (ds_dims data).*1).
  { rewrite <- (rechunk_dims_keys _ _ _ _ Hch). by apply (list_elem_of_fmap_2 fst) in Hin. }
  assert (Hbs : assoc d ch = Some bs).
  { apply assoc_NoDup; [|done]. by rewrite (rechunk_dims_keys _ _ _ _ Hch). }
  rewrite (rechunk_dims_assoc _ _ _ _ d Hch) in Hbs.
  destruct (assoc d (ds_dims data)) as [n|] eqn:Hn; simpl in Hbs; [|done].
  f_equal. destruct (assoc d mapping) as [c|].
  - symmetry. by eapply uniform_blocks_sum.
  - simplify_eq. destruct (assoc d (ds_chunks data)) as [bs'|] eqn:Hold; simpl; [|lia].
    apply assoc_elem_of in Hold. rewrite Forall_forall in Hcov.
    specialize (Hcov _ Hold). simpl in Hcov. congruence.
Qed.

(** ** dask arrays: positions and blocks *)

Lemma mapM_Some_fmap {A B} (f : A → option B) (g : A → B) (l : list A) :
  (∀ x, x ∈ l → f x = Some (g x)) → mapM f l = Some (g <$> l).
Proof.
  induction l as [|x l IH]; intros Hf; [done|].
  apply mapM_Some. rewrite fmap_cons. constructor; [apply Hf; by left|].
  apply mapM_Some, IH. intros y ?. apply Hf. by right.
Qed.

Lemma mapM_agree {A B} (f g : A → option B) (l : list A) :
  (∀ x, x ∈ l → f x = g x) → mapM f l = mapM g l.
Proof.
  induction l as [|x l IH]; intros Hf; [done|]. simpl.
  rewrite (Hf x) by (by left). rewrite IH; [done|]. intros y ?. apply Hf. by right.
Qed.

Lemma mapM_seq_lookup {B} (f : nat → option B) (n : nat) (l : list B) (k : nat) :
  mapM f (seq 0 n) = Some l → k < n → ∃ y, f k = Some y ∧ l !! k = Some y.
Proof.
  intros Hl%mapM_Some Hk.
  destruct (Forall2_lookup_l _ _ _ k k Hl) as (y & Hy & Hf); [by apply lookup_seq|].
  eauto.
Qed.

Lemma mapM_lookup_seq {B} (l : list B) :
  mapM (λ k, l !! k) (seq 0 (length l)) = Some l.
Proof.
  apply mapM_Some. apply Forall2_same_length_lookup. split; [by rewrite length_seq|].
  intros i x y [-> ?]%lookup_seq Hy. done.
Qed.

Lemma in_shape_length (idx shp : list nat) : in_shape idx shp → length idx = length shp.
Proof. apply Forall2_length. Qed.

Lemma ravel_lt (shp idx : list nat) : in_shape idx shp → ravel shp idx < prod_list shp.
Proof.
  induction 1 as [|i n idx shp Hi _ IH]; cbn [ravel]; [simpl; lia|].
  change (prod_list (n :: shp)) with (n * prod_list shp). nia.
Qed.

Lemma unravel_ravel (shp idx : list nat) :
  in_shape idx shp → unravel shp (ravel shp idx) = idx.
Proof.
  induction 1 as [|i n idx shp Hi Hrest IH]; cbn [ravel unravel]; [done|].
  pose proof (ravel_lt _ _ Hrest) as Hlt.
  rewrite Nat.div_add_l by lia. rewrite (Nat.div_small (ravel _ _)) by done.
  rewrite (Nat.add_comm (i * _)), Nat.Div0.mod_add, Nat.mod_small by done.
  by rewrite Nat.add_0_r, IH.
Qed.

Lemma unravel_in_shape (shp : list nat) (k : nat) :
  k < prod_list shp → in_shape (unravel shp k) shp.
Proof.
  revert k. induction shp as [|n shp IH]; cbn [unravel]; intros k Hk; [constructor|].
  change (prod_list (n :: shp)) with (n * prod_list shp) in Hk.
  assert (0 < prod_list shp) by nia.
  constructor.
  - apply Nat.Div0.div_lt_upper_bound. lia.
  - apply IH. apply Nat.mod_upper_bound. lia.
Qed.

Lemma ravel_unravel (shp : list nat) (k : nat) :
  k < prod_list shp → ravel shp (unravel shp k) = k.
Proof.
  revert k. induction shp as [|n shp IH]; cbn [ravel unravel]; intros k Hk; [simpl in Hk; lia|].
  change (prod_list (n :: shp)) with (n * prod_list shp) in Hk.
  assert (0 < prod_list shp) by nia.
  rewrite IH by (apply Nat.mod_upper_bound; lia).
  pose proof (Nat.div_mod_eq k (prod_list shp)). lia.
Qed.

(** A position along a dimension lies in exactly one block. *)
Lemma locate_spec (bs : list nat) (i : nat) :
  i < sum_list bs →
  ∃ b, bs !! (locate bs i).1 = Some b
       ∧ (locate bs i).2 < b
       ∧ sum_list (take (locate bs i).1 bs) + (locate bs i).2 = i.
Proof.
  revert i. induction bs as [|b bs IH]; simpl; intros i Hi; [lia|].
  case_decide; simpl.
  - exists b. split; [done|]. lia.
  - destruct (IH (i - b)) as (b' & Hb & Ho & Hs); [lia|].
    exists b'. split; [done|]. split; [done|]. lia.
Qed.

Lemma locate_offset (bs : list nat) (k b o : nat) :
  bs !! k = Some b → o < b →
  locate bs (sum_list (take k bs) + o) = (k, o)
  ∧ sum_list (take k bs) + o < sum_list bs.
Proof.
  revert k. induction bs as [|b0 bs IH]; intros k Hk Ho; [done|].
  destruct k as [|k]; simpl in *.
  - simplify_eq. rewrite decide_True by lia. split; [done|]. lia.
  - destruct (IH k Hk Ho) as [Hl Hlt].
    rewrite decide_False by lia.
    replace (b0 + sum_list (take k bs) + o - b0) with (sum_list (take k bs) + o) by lia.
    rewrite Hl. split; [done|]. lia.
Qed.

(** The same, along every dimension at once. *)
Lemma locate_all_spec (chunks : list (list nat)) (g : list nat) :
  in_shape g (sum_list <$> chunks) →
  let loc := zip_with locate chunks g in
  in_shape loc.*1 (length <$> chunks)
  ∧ in_shape loc.*2 (block_shape chunks loc.*1)
  ∧ zip_with Nat.add (block_offset chunks loc.*1) loc.*2 = g.
Proof.
  revert g. induction chunks as [|c chunks IH]; intros g Hg; simpl in *.
  { inversion Hg. subst. split; [constructor|]. split; [constructor|done]. }
  inversion Hg as [|i n g' shp' Hi Hg']; subst. simpl.
  destruct (IH g' Hg') as (H1 & H2 & H3).
  destruct (locate_spec c i Hi) as (b & Hb & Ho & Hs).
  split_and!.
  - constructor; [|done]. by eapply lookup_lt_Some.
  - constructor; [|done]. by rewrite Hb.
  - unfold block_offset in *. cbn [zip_with fmap list_fmap fst snd]. f_equal; [exact Hs|exact H3].
Qed.

Lemma locate_all_offset (chunks : list (list nat)) (bidx lidx : list nat) :
  in_shape bidx (length <$> chunks) →
  in_shape lidx (block_shape chunks bidx) →
  let g := zip_with Nat.add (block_offset chunks bidx) lidx in
  in_shape g (sum_list <$> chunks)
  ∧ (zip_with locate chunks g).*1 = bidx
  ∧ (zip_with locate chunks g).*2 = lidx.
Proof.
  revert bidx lidx. induction chunks as [|c chunks IH]; intros bidx lidx Hb Hl; simpl in *.
  { inversion Hb; subst. simpl in Hl. inversion Hl; subst. simpl.
    split; [constructor|done]. }
  inversion Hb as [|k n bidx' shp' Hk Hb']; subst.
  unfold block_shape in Hl. simpl in Hl.
  inversion Hl as [|o m lidx' shp'' Ho Hl']; subst.
  destruct (lookup_lt_is_Some_2 c k Hk) as [b Hbk].
  rewrite Hbk in Ho. simpl in Ho.
  destruct (locate_offset c k b o Hbk Ho) as [Hloc Hlt].
  destruct (IH bidx' lidx' Hb' Hl') as (H1 & H2 & H3).
  unfold block_offset in *. simpl. rewrite Hloc. simpl.
  split_and!; [by constructor|by f_equal|by f_equal].
Qed.

(** *** Building blocks and reading them back *)

Section build.
Variable read : list nat → option float.
Variable chunks : list (list nat).
Hypothesis read_is_Some : ∀ g, in_shape g (sum_list <$> chunks) → is_Some (read g).

Lemma da_block_spec (bidx : list nat) :
  in_shape bidx (length <$> chunks) →
  ∃ blk, da_block read chunks bidx = Some blk
         ∧ shape blk = block_shape chunks bidx
         ∧ ∀ lidx, in_shape lidx (block_shape chunks bidx) →
             nd_get blk lidx = read (zip_with Nat.add (block_offset chunks bidx) lidx).
Proof.
  intros Hb. unfold da_block.
  destruct (mapM _ (seq 0 (prod_list (block_shape chunks bidx)))) as [b|] eqn:Hm; simpl.
  - eexists. split; [done|]. split; [done|]. intros lidx Hl.
    unfold nd_get. simpl. rewrite decide_True by done.
    destruct (mapM_seq_lookup _ _ _ _ Hm (ravel_lt _ _ Hl)) as (y & Hy & ->).
    by rewrite unravel_ravel in Hy.
  - exfalso. apply eq_None_not_Some in Hm. apply Hm. apply mapM_is_Some.
    apply Forall_forall. intros j [_ Hj]%elem_of_seq. apply read_is_Some.
    apply locate_all_offset; [done|]. apply unravel_in_shape. simpl in Hj. lia.
Qed.

Lemma da_build_spec :
  ∃ A, da_build read chunks = Some A
       ∧ da_chunks A = chunks
       ∧ ∀ g, in_shape g (sum_list <$> chunks) → da_get A g = read g.
Proof.
  unfold da_build.
  destruct (mapM _ (seq 0 (prod_list (length <$> chunks)))) as [blocks|] eqn:Hm; simpl.
  - eexists. split; [done|]. split; [done|]. intros g Hg.
    unfold da_get, da_shape. simpl. rewrite decide_True by done.
    destruct (locate_all_spec chunks g Hg) as (H1 & H2 & H3).
    destruct (mapM_seq_lookup _ _ _ _ Hm (ravel_lt _ _ H1)) as (blk & Hblk & ->).
    rewrite unravel_ravel in Hblk by done. simpl.
    destruct (da_block_spec _ H1) as (blk' & Hblk' & _ & Hget).
    rewrite Hblk in Hblk'. injection Hblk' as <-.
    by rewrite Hget, H3.
  - exfalso. apply eq_None_not_Some in Hm. apply Hm. apply mapM_is_Some.
    apply Forall_forall. intros k [_ Hk]%elem_of_seq.
    destruct (da_block_spec (unravel (length <$> chunks) k)) as (blk & Hblk & _);
      [|by eexists].
    apply unravel_in_shape. simpl in Hk. lia.
Qed.
End build.

Lemma da_build_agree (read read' : list nat → option float) (chunks : list (list nat)) :
  (∀ g, in_shape g (sum_list <$> chunks) → read g = read' g) →
  da_build read chunks = da_build read' chunks.
Proof.
  intros Hr. unfold da_build. f_equal. apply mapM_agree.
  intros k [_ Hk]%elem_of_seq. unfold da_block. f_equal. apply mapM_agree.
  intros j [_ Hj]%elem_of_seq. apply Hr. apply locate_all_offset.
  - apply unravel_in_shape. simpl in Hk. lia.
  - apply unravel_in_shape. simpl in Hj. lia.
Qed.

Lemma nd_get_unravel (a : ndarray) (k : nat) :
  k < size a → nd_get a (unravel (shape a) k) = buf a !! k.
Proof.
  intros Hk. unfold nd_get. rewrite decide_True by by apply unravel_in_shape.
  by rewrite ravel_unravel.
Qed.

Lemma nd_get_is_Some (a : ndarray) (g : list nat) :
  length (buf a) = size a → in_shape g (shape a) → is_Some (nd_get a g).
Proof.
  intros Hlen Hg. unfold nd_get. rewrite decide_True by done.
  apply lookup_lt_is_Some. rewrite Hlen. by apply ravel_lt.
Qed.

(** An array cut in blocks: every position reads as in the array, and
    the blocks put together are the array. *)
Lemma da_from_array_spec (a : ndarray) (chunks : list (list nat)) :
  length (buf a) = size a → sum_list <$> chunks = shape a →
  ∃ A, da_from_array a chunks = Some A
       ∧ da_chunks A = chunks
       ∧ (∀ g, in_shape g (shape a) → da_get A g = nd_get a g)
       ∧ da_compute A = Some a.
Proof.
  intros Hlen Hsum. unfold da_from_array. rewrite decide_True by done.
  destruct (da_build_spec (nd_get a) chunks) as (A & HA & Hch & Hget).
  { intros g Hg. apply nd_get_is_Some; [done|]. by rewrite <- Hsum. }
  exists A. split; [done|]. split; [done|].
  split; [intros g Hg; apply Hget; by rewrite Hsum|].
  unfold da_compute, da_shape. rewrite Hch, Hsum.
  rewrite (mapM_agree _ (λ k, buf a !! k)).
  - fold (size a). rewrite <- Hlen, mapM_lookup_seq. simpl. by destruct a.
  - intros k [_ Hk]%elem_of_seq. simpl in Hk.
    rewrite Hget by (rewrite Hsum; by apply unravel_in_shape).
    by apply nd_get_unravel.
Qed.

(** Blocks cut again: every position reads as before, and the new
    blocks put together are what the old ones were. *)
Lemma da_rechunk_spec (A A' : DaskArray) (chunks : list (list nat)) :
  da_rechunk A chunks = Some A' →
  da_chunks A' = chunks
  ∧ da_shape A' = da_shape A
  ∧ (∀ g, da_get A' g = da_get A g)
  ∧ da_compute A' = da_compute A.
Proof.
  unfold da_rechunk. case_decide as Hsum; [|done]. intros Hb.
  assert (Hch : da_chunks A' = chunks).
  { unfold da_build in Hb. destruct (mapM _ _); simpl in Hb; [|done]. by injection Hb as <-. }
  assert (Hshape : da_shape A' = da_shape A) by (unfold da_shape at 1; by rewrite Hch).
  assert (Hget : ∀ g, in_shape g (da_shape A) → da_get A' g = da_get A g).
  { intros g Hg. unfold da_build in Hb.
    destruct (mapM _ (seq 0 (prod_list (length <$> chunks)))) as [blocks|] eqn:Hm;
      simpl in Hb; [|done].
    injection Hb as <-. unfold da_get at 1.
    rewrite decide_True by (unfold da_shape at 1; simpl; by rewrite Hsum).
    cbn [da_chunks da_blocks]. rewrite <- Hsum in Hg.
    destruct (locate_all_spec chunks g Hg) as (H1 & H2 & H3).
    destruct (mapM_seq_lookup _ _ _ _ Hm (ravel_lt _ _ H1)) as (blk & Hblk & ->).
    rewrite unravel_ravel in Hblk by done. simpl.
    unfold da_block in Hblk.
    destruct (mapM _ (seq 0 (prod_list (block_shape chunks _)))) as [b|] eqn:Hmb;
      simpl in Hblk; [|done].
    injection Hblk as <-. unfold nd_get. simpl. rewrite decide_True by done.
    destruct (mapM_seq_lookup _ _ _ _ Hmb (ravel_lt _ _ H2)) as (y & Hy & ->).
    rewrite unravel_ravel in Hy by done. by rewrite H3 in Hy. }
  split; [done|]. split; [done|]. split.
  - intros g. destruct (decide (in_shape g (da_shape A))) as [Hg|Hg]; [by apply Hget|].
    unfold da_get. rewrite Hshape. by rewrite !decide_False by done.
  - unfold da_compute. rewrite Hshape. f_equal. apply mapM_agree.
    intros k [_ Hk]%elem_of_seq. apply Hget. apply unravel_in_shape. simpl in Hk. lia.
Qed.

Lemma da_rechunk_from_array (a : ndarray) (old new : list (list nat)) (A : DaskArray) :
  length (buf a) = size a → sum_list <$> new = shape a →
  da_from_array a old = Some A →
  da_rechunk A new = da_from_array a new.
Proof.
  intros Hlen Hnew HA.
  assert (Hold : sum_list <$> old = shape a).
  { unfold da_from_array in HA. by case_decide. }
  destruct (da_from_array_spec a old Hlen Hold) as (A0 & HA0 & Hch & Hget & _).
  rewrite HA in HA0. injection HA0 as <-.
  unfold da_rechunk, da_from_array, da_shape. rewrite Hch, Hold.
  rewrite !decide_True by done. apply da_build_agree.
  intros g Hg. apply Hget. by rewrite <- Hnew.
Qed.

Lemma da_from_array_length (a : ndarray) (chunks : list (list nat)) (A : DaskArray) :
  da_from_array a chunks = Some A →
  da_chunks A = chunks ∧ length (da_blocks A) = prod_list (length <$> chunks).
Proof.
  unfold da_from_array, da_build. case_decide; [|done].
  destruct (mapM _ _) as [blocks|] eqn:Hm; simpl; [|done]. intros [= <-]. simpl.
  split; [done|]. apply mapM_Some, Forall2_length in Hm. by rewrite length_seq in Hm.
Qed.

(** ** [manage_chunks] *)

Lemma sum_list_pos_length (bs : list nat) :
  Forall (λ b, 0 < b) bs → length bs ≤ sum_list bs.
Proof. induction 1; simpl; lia. Qed.

(** The block size chosen in 'time' mode is within one half of
    [n / 500]; a size of one means fewer than 750 time steps, as 750
    is a tie and rounds to the even two. *)
Lemma time_chunk_size_bounds n (r := time_chunk_size n) :
  500 * r ≤ n + 250 ∧ n ≤ 500 * r + 250 ∧ (r = 1 → n ≤ 749).
Proof.
  subst r. unfold time_chunk_size, np_round_div.
  pose proof (Z.div_mod (Z.of_nat n) 500 ltac:(lia)) as Hdm.
  pose proof (Z.mod_pos_bound (Z.of_nat n) 500 ltac:(lia)) as Hr.
  assert (0 ≤ Z.of_nat n / 500)%Z by (apply Z.div_pos; lia).
  set (q := (Z.of_nat n / 500)%Z) in *. set (m := (Z.of_nat n mod 500)%Z) in *.
  destruct (2 * m <? 500)%Z eqn:E1; [lia|].
  destruct (500 <? 2 * m)%Z eqn:E2; [lia|].
  destruct (Z.even q) eqn:E3; [|lia].
  repeat split; [lia..|]. intros Hq.
  assert (q = 1%Z) as -> by lia. done.
Qed.

(** X26: in 'time' mode, on a dataset whose time blocks are not empty
    and add up to the number of time steps, a dataset with at most 500
    time blocks is returned as it is; with more than 500 blocks the time
    dimension is cut again in blocks of [round(n_time/500)] steps, the
    last block holding the remainder, and nothing but the blocks
    changes.  The number of new blocks lies between 375 and 749. *)
Theorem manage_chunks_time (data : Dataset) (tchunks : list nat) (n : nat) :
  assoc "time" (ds_chunks data) = Some tchunks →
  assoc "time" (ds_dims data) = Some n →
  sum_list tchunks = n →
  Forall (λ b, 0 < b) tchunks →
  (length tchunks ≤ 500 → manage_chunks data "time" = Some data)
  ∧ (500 < length tchunks →
     let r := time_chunk_size n in
     ∃ data' blocks,
       manage_chunks data "time" = Some data'
       ∧ content data' = content data
       ∧ assoc "time" (ds_chunks data') = Some blocks
       ∧ blocks = replicate (n / r) r ++ (if decide (n mod r = 0) then [] else [n mod r])
       ∧ Forall (λ b, 1 ≤ b ≤ r) blocks
       ∧ sum_list blocks = n
       ∧ 375 ≤ length blocks ≤ 749).
Proof.
  intros Hch Hdim Hsum Hpos. split.
  { intros Hle. unfold manage_chunks.
    rewrite decide_False by done. rewrite Hch. simpl. by rewrite decide_False by lia. }
  intros Hgt. cbv zeta. set (r := time_chunk_size n).
  unfold manage_chunks. rewrite decide_False by done. rewrite Hch. simpl.
  rewrite decide_True by lia. rewrite Hdim. simpl. fold r.
  pose proof (sum_list_pos_length _ Hpos) as Hlen.
  pose proof (time_chunk_size_bounds n) as (Hlo & Hhi & Hone). fold r in Hlo, Hhi, Hone.
  assert (Hr : 1 ≤ r) by lia.
  destruct (xr_chunk data [("time", r)]) as [data'|] eqn:Hx; last first.
  { exfalso. unfold xr_chunk in Hx. rewrite decide_True in Hx.
    - destruct (rechunk_dims_is_Some [("time", r)] (ds_chunks data) (ds_dims data)) as [ch Hc].
      + intros d m c _. simpl. case_decide; [|done]. intros [= <-]. lia.
      + by rewrite Hc in Hx.
    - repeat constructor. simpl. rewrite Hdim. eauto. }
  pose proof (xr_chunk_content _ _ _ Hx) as Hcont.
  unfold xr_chunk in Hx. case_decide; [|done].
  destruct (rechunk_dims _ _ _) as [ch|] eqn:Hrc; simpl in Hx; [|done].
  injection Hx as <-.
  pose proof (rechunk_dims_assoc _ _ _ _ "time" Hrc) as Hnew.
  rewrite Hdim in Hnew. simpl in Hnew.
  destruct (uniform_blocks n r) as [blocks|] eqn:Hub; [|destruct (uniform_blocks_pos n r Hr); congruence].
  destruct (uniform_blocks_shape n r blocks ltac:(lia) Hub) as [Hshape Hall].
  exists (with_chunks ch data), blocks. repeat split; try done.
  - by eapply uniform_blocks_sum.
  - rewrite Hshape, length_app, length_replicate.
    pose proof (Nat.div_mod_eq n r). pose proof (Nat.mod_upper_bound n r).
    case_decide; simpl; nia.
  - rewrite Hshape, length_app, length_replicate.
    pose proof (Nat.div_mod_eq n r). pose proof (Nat.mod_upper_bound n r).
    destruct (decide (r = 1)) as [Hr1|Hr1].
    + specialize (Hone Hr1). case_decide; simpl; nia.
    + case_decide; simpl; nia.
Qed.

(** X26 (witness): 10000 time steps in one block are left alone; 700
    blocks of one step fall in the second case. *)
Lemma manage_chunks_time_witness :
  manage_chunks ds_10000 "time" = Some ds_10000
  ∧ ∃ data' blocks,
      manage_chunks ds_700 "time" = Some data'
      ∧ assoc "time" (ds_chunks data') = Some blocks
      ∧ 375 ≤ length blocks ≤ 749.
Proof.
  split.
  - refine (proj1 (manage_chunks_time ds_10000 [10000] 10000 _ _ _ _) _).
    + vm_compute; reflexivity.
    + vm_compute; reflexivity.
    + vm_compute; reflexivity.
    + constructor; [|constructor]. apply Nat.ltb_lt. vm_compute; reflexivity.
    + apply Nat.leb_le. vm_compute; reflexivity.
  - destruct (proj2 (manage_chunks_time ds_700 (replicate 700 1) 700
                       ltac:(vm_compute; reflexivity) ltac:(vm_compute; reflexivity)
                       ltac:(vm_compute; reflexivity)
                       ltac:(apply Forall_replicate; lia))
                    ltac:(apply Nat.ltb_lt; vm_compute; reflexivity))
      as (data' & blocks & H1 & _ & H3 & _ & _ & _ & H7).
    exact (ex_intro _ data' (ex_intro _ blocks (conj H1 (conj H3 H7)))).
Defined.

(** C7 (the code at 700 time blocks): 700 time steps in 700 blocks are
    more than 500 blocks, are cut again in blocks of
    [round(700/500) = 1] step, and are 700 blocks afterwards, more than
    the 500 that the test [nchunks > 500] is there to keep. *)
Lemma manage_chunks_time_700_blocks :
  n_blocks ds_700 "time" = 700
  ∧ time_chunk_size 700 = 1
  ∧ ∃ data', manage_chunks ds_700 "time" = Some data'
             ∧ n_blocks data' "time" = 700
             ∧ ¬ n_blocks data' "time" ≤ 500.
Proof.
  split; [vm_compute; reflexivity|]. split; [vm_compute; reflexivity|].
  eexists. split; [vm_compute; reflexivity|].
  split; [vm_compute; reflexivity|]. vm_compute. lia.
Qed.

(** Cutting again can raise the number of blocks: 600 time steps in 501
    blocks are 600 blocks of one step afterwards. *)
Lemma manage_chunks_time_501_blocks :
  n_blocks ds_600 "time" = 501
  ∧ time_chunk_size 600 = 1
  ∧ ∃ data', manage_chunks ds_600 "time" = Some data'
             ∧ n_blocks data' "time" = 600.
Proof.
  split; [vm_compute; reflexivity|]. split; [vm_compute; reflexivity|].
  eexists. split; vm_compute; reflexivity.
Qed.

(** C1 (the code at nx = ny = 1000): the chunk edge is
    [round(1000 / sqrt(1000000 / 500)) = 22], each spatial dimension is
    cut in 46 blocks, and the dataset has 2116 spatial blocks, more than
    the maximum of 500. *)
Theorem manage_chunks_space_1000 :
  space_chunk_size 1000 1000 = Some 22
  ∧ ∃ data', manage_chunks ds_1000 "space" = Some data'
             ∧ n_blocks data' "x" = 46
             ∧ n_blocks data' "y" = 46
             ∧ n_space_blocks data' "x" "y" = 2116
             ∧ cmax < n_space_blocks data' "x" "y".
Proof.
  split; [vm_compute; reflexivity|].
  eexists. split; [vm_compute; reflexivity|].
  repeat split; try (vm_compute; reflexivity).
  vm_compute. lia.
Qed.

Lemma var_chunks_spec (data : Dataset) (dims : list string) (shp : list nat) :
  chunks_cover data →
  Some <$> shp = (λ d, assoc d (ds_dims data)) <$> dims →
  ∃ chunks, var_chunks data dims = Some chunks ∧ sum_list <$> chunks = shp.
Proof.
  intros [_ Hcov]. revert shp. unfold var_chunks.
  induction dims as [|d dims IH]; intros shp Hs.
  { destruct shp; [|done]. by exists []. }
  destruct shp as [|n shp]; [done|]. rewrite !fmap_cons in Hs. injection Hs as Hn Hs.
  destruct (IH shp Hs) as (chunks & Hc & Hsum).
  exists (default [n] (assoc d (ds_chunks data)) :: chunks). split.
  - apply mapM_Some. constructor; [by rewrite <- Hn|by apply mapM_Some].
  - rewrite fmap_cons. f_equal; [|done].
    destruct (assoc d (ds_chunks data)) as [bs|] eqn:Hbs; simpl; [|lia].
    rewrite Forall_forall in Hcov. specialize (Hcov _ (assoc_elem_of _ _ _ Hbs)).
    simpl in Hcov. congruence.
Qed.

Lemma manage_chunks_content_cover (data : Dataset) (chunk_dim : string) (data' : Dataset) :
  manage_chunks data chunk_dim = Some data' →
  content data' = content data ∧ (chunks_cover data → chunks_cover data').
Proof.
  intros Hm. unfold manage_chunks in Hm. case_decide.
  - repeat (match type of Hm with
            | (?x ≫= _) = Some _ => destruct x eqn:?; simpl in Hm; [|done]
            end).
    split; [by eapply xr_chunk_content|]. intros. by eapply xr_chunk_cover.
  - destruct (assoc "time" (ds_chunks data)); simpl in Hm; [|done].
    case_decide; [|by simplify_eq].
    destruct (assoc "time" (ds_dims data)); simpl in Hm; [|done].
    split; [by eapply xr_chunk_content|]. intros. by eapply xr_chunk_cover.
Qed.

(** C5: whatever the mode, the dataset that [manage_chunks] returns has
    the dimensions, time labels, coordinates, variables and attributes
    of its input, in the same order, and only its blocks differ.  When
    the blocks of the input cover its dimensions so do the new ones: the
    blocks of a dimension laid end to end are the elements along it.
    For every variable that fits the dataset the new blocks are the old
    ones cut again: they hold, position by position, the values of the
    input, and put together they are the array of the input. *)
Theorem manage_chunks_keeps_values (data : Dataset) (chunk_dim : string) (data' : Dataset) :
  manage_chunks data chunk_dim = Some data' →
  content data' = content data
  ∧ (chunks_cover data →
     chunks_cover data'
     ∧ (∀ (d : string) (bs : list nat) (l : list float),
          assoc d (ds_chunks data') = Some bs →
          assoc d (ds_dims data') = Some (length l) →
          mjoin (split_blocks bs l) = l)
     ∧ ∀ (v : string) (dv : DataVar),
         assoc v (ds_vars data) = Some dv → var_fits data dv →
         ∃ A A',
           dask_of data dv = Some A
           ∧ assoc v (ds_vars data') = Some dv
           ∧ dask_of data' dv = Some A'
           ∧ da_rechunk A (da_chunks A') = Some A'
           ∧ (∀ g, in_shape g (shape (dv_data dv)) → da_get A' g = nd_get (dv_data dv) g)
           ∧ da_compute A = Some (dv_data dv)
           ∧ da_compute A' = Some (dv_data dv)).
Proof.
  intros Hm.
  destruct (manage_chunks_content_cover _ _ _ Hm) as [Hc Hcov].
  split; [done|]. intros Hwf.
  specialize (Hcov Hwf). split; [done|]. split.
  { intros d bs l Hbs Hd. apply join_reshape.
    destruct Hcov as [_ Hall]. rewrite Forall_forall in Hall.
    specialize (Hall _ (assoc_elem_of _ _ _ Hbs)). simpl in Hall. congruence. }
  intros v dv Hv [Hshape Hlen].
  assert (Hdims : ds_dims data' = ds_dims data) by (unfold content in Hc; congruence).
  assert (Hvars : ds_vars data' = ds_vars data) by (unfold content in Hc; congruence).
  destruct (var_chunks_spec data (dv_dims dv) _ Hwf Hshape) as (old & Hold & Hsold).
  destruct (var_chunks_spec data' (dv_dims dv) (shape (dv_data dv)) Hcov)
    as (new & Hnew & Hsnew); [by rewrite Hdims|].
  destruct (da_from_array_spec (dv_data dv) old Hlen Hsold) as (A & HA & _ & _ & HcompA).
  destruct (da_from_array_spec (dv_data dv) new Hlen Hsnew) as (A' & HA' & Hch & Hget & Hcomp).
  exists A, A'. unfold dask_of. rewrite Hold, Hnew, Hvars. simpl.
  split_and!; try done.
  rewrite Hch, <- HA'. by apply (da_rechunk_from_array _ old).
Qed.

Lemma chunks_cover_decide (data : Dataset) :
  bool_decide (NoDup (ds_dims data).*1)
  && forallb (λ kv, bool_decide (assoc kv.1 (ds_dims data) = Some (sum_list kv.2)))
       (ds_chunks data) = true →
  chunks_cover data.
Proof.
  intros [Hnd Hall]%andb_prop. split; [by apply bool_decide_eq_true_1 in Hnd|].
  apply Forall_forall. intros kv Hkv. rewrite forallb_forall in Hall.
  eapply bool_decide_eq_true_1, Hall. by apply list_elem_of_In.
Qed.

Lemma var_fits_decide (data : Dataset) (dv : DataVar) :
  bool_decide (Some <$> shape (dv_data dv) = (λ d, assoc d (ds_dims data)) <$> dv_dims dv)
  && (length (buf (dv_data dv)) =? size (dv_data dv)) = true →
  var_fits data dv.
Proof.
  intros [H1 H2]%andb_prop. split; [by apply bool_decide_eq_true_1 in H1|].
  by apply Nat.eqb_eq.
Qed.

Lemma dask_of_length (data : Dataset) (dv : DataVar) (A : DaskArray)
    (chunks : list (list nat)) :
  dask_of data dv = Some A → var_chunks data (dv_dims dv) = Some chunks →
  da_chunks A = chunks ∧ length (da_blocks A) = prod_list (length <$> chunks).
Proof.
  unfold dask_of. intros HA Hc. rewrite Hc in HA. simpl in HA.
  by apply da_from_array_length in HA.
Qed.

(** C5 (witness): eight blocks of a 2 x 3 x 4 variable become one block
    in 'space' mode, and 800 time blocks become 400 in 'time' mode;
    either way the blocks put together are the values 0, 1, 2, ... of
    the input. *)
Lemma manage_chunks_keeps_values_witness :
  (∃ data' A A',
     manage_chunks ds_tiles "space" = Some data'
     ∧ ds_time data' = [0; 3600000000000]%Z
     ∧ dask_of ds_tiles tas_tiles = Some A ∧ length (da_blocks A) = 8
     ∧ dask_of data' tas_tiles = Some A' ∧ length (da_blocks A') = 1
     ∧ da_compute A' = Some (counting [2; 3; 4]))
  ∧ (∃ data' A A',
       manage_chunks ds_steps "time" = Some data'
       ∧ dask_of ds_steps tas_steps = Some A ∧ length (da_blocks A) = 800
       ∧ dask_of data' tas_steps = Some A' ∧ length (da_blocks A') = 400
       ∧ da_compute A' = Some (counting [800; 1; 2])).
Proof.
  split.
  - destruct (manage_chunks ds_tiles "space") as [data'|] eqn:Hm;
      [|vm_compute in Hm; discriminate].
    destruct (manage_chunks_keeps_values ds_tiles "space" data' Hm) as [Hc Hrest].
    destruct Hrest as (_ & _ & Hvars); [apply chunks_cover_decide; vm_compute; reflexivity|].
    destruct (Hvars "tas" tas_tiles) as (A & A' & HA & _ & HA' & _ & _ & _ & Hcomp);
      [reflexivity|apply var_fits_decide; vm_compute; reflexivity|].
    exists data', A, A'. split; [reflexivity|].
    split; [assert (ds_time data' = ds_time ds_tiles) as ->
              by (unfold content in Hc; congruence); reflexivity|].
    split; [exact HA|].
    split; [apply (dask_of_length _ _ _ [[1; 1]; [1; 2]; [2; 2]]) in HA as [_ ->];
            vm_compute; reflexivity|].
    split; [exact HA'|]. split; [|exact Hcomp].
    apply (dask_of_length _ _ _ [[2]; [3]; [4]]) in HA' as [_ ->]; [reflexivity|].
    vm_compute in Hm. injection Hm as <-. vm_compute. reflexivity.
  - destruct (manage_chunks ds_steps "time") as [data'|] eqn:Hm;
      [|vm_compute in Hm; discriminate].
    destruct (manage_chunks_keeps_values ds_steps "time" data' Hm) as [Hc Hrest].
    destruct Hrest as (_ & _ & Hvars); [apply chunks_cover_decide; vm_compute; reflexivity|].
    destruct (Hvars "tas" tas_steps) as (A & A' & HA & _ & HA' & _ & _ & _ & Hcomp);
      [reflexivity|apply var_fits_decide; vm_compute; reflexivity|].
    exists data', A, A'. split; [reflexivity|].
    split; [exact HA|].
    split; [apply (dask_of_length _ _ _ [replicate 800 1; [1]; [2]]) in HA as [_ ->];
            vm_compute; reflexivity|].
    split; [exact HA'|]. split; [|exact Hcomp].
    apply (dask_of_length _ _ _ [replicate 400 2; [1]; [2]]) in HA' as [_ ->];
      [vm_compute; reflexivity|].
    vm_compute in Hm. injection Hm as <-. vm_compute. reflexivity.
Defined.

(** ** NaN *)

Lemma nan_mul x : (nan * x)%float = nan.
Proof. apply Prim2SF_inj. rewrite mul_spec. reflexivity. Qed.

Lemma add_nan x : (x + nan)%float = nan.
Proof.
  apply Prim2SF_inj. rewrite add_spec. unfold SF64add, SFadd.
  by destruct (Prim2SF x).
Qed.

(** ** Rows of a buffer *)

Section reshape.
Context {A : Type}.
Implicit Types (l : list A) (szs : list nat).

Lemma reshape_app szs1 szs2 l :
  reshape (szs1 ++ szs2) l = reshape szs1 l ++ reshape szs2 (drop (sum_list szs1) l).
Proof.
  revert l. induction szs1 as [|sz szs1 IH]; intros l; simpl; [done|].
  by rewrite IH, drop_drop.
Qed.

Lemma reshape_take szs l n :
  sum_list szs ≤ n → reshape szs (take n l) = reshape szs l.
Proof.
  revert l n. induction szs as [|sz szs IH]; intros l n Hn; simpl in *; [done|].
  rewrite take_take, Nat.min_l by lia. f_equal.
  rewrite <- (IH (drop sz l) (n - sz)) by lia.
  rewrite take_drop_commute. by replace (sz + (n - sz)) with n by lia.
Qed.

Lemma join_fmap_join {B} (f : list A → list B) (lss : list (list (list A))) :
  mjoin ((λ ls, mjoin (f <$> ls)) <$> lss) = mjoin (f <$> mjoin lss).
Proof.
  induction lss as [|ls lss IH]; csimpl; [done|].
  by rewrite fmap_app, join_app, IH.
Qed.
End reshape.

Lemma prod_list_app l1 l2 : prod_list (l1 ++ l2) = prod_list l1 * prod_list l2.
Proof. induction l1 as [|x l1 IH]; simpl; [lia|]. rewrite IH. lia. Qed.

(** ** The matrix product of [_rgr_calc] *)

Lemma axpy_lookup a x y t xt yt :
  x !! t = Some xt → y !! t = Some yt →
  axpy a x y !! t = Some (yt + a * xt)%float.
Proof. intros Hx Hy. unfold axpy. by rewrite lookup_zip_with, Hx, Hy. Qed.

(** Element [t] of a row of [A.dot(X)] is the weighted sum, over the
    stored entries of that row, of the elements [t] of the rows of [X]. *)
Lemma sparse_row_dot_lookup (X : matrix) (row : list (nat * float)) (t : nat)
    (x : list float) :
  (∀ e, e ∈ row → ∃ xr, mrows X !! e.1 = Some xr
                        ∧ xr !! t = Some (default 0%float (x !! e.1))) →
  t < ncols X →
  sparse_row_dot X row !! t
  = Some (foldl (λ acc e, (acc + e.2 * default 0 (x !! e.1))%float) 0%float row).
Proof.
  intros Hrow Ht. unfold sparse_row_dot.
  enough (Hgen : ∀ (acc : list float) (a0 : float), acc !! t = Some a0 →
            foldl (λ acc e, axpy e.2 (default [] (mrows X !! e.1)) acc) acc row !! t
            = Some (foldl (λ acc e, (acc + e.2 * default 0 (x !! e.1))%float) a0 row))
    by (by apply Hgen, lookup_replicate_2).
  induction row as [|e row IH]; intros acc a0 Hacc; simpl; [done|].
  destruct (Hrow e) as (xr & HX & Hxr); [left|].
  apply IH.
  - intros e' He'. apply Hrow. by right.
  - rewrite HX. simpl. by apply axpy_lookup.
Qed.

(** [A.dot(M.T).T] multiplies every row of [M] by [A]. *)
Lemma dot_transpose (A : sparse) (M Y : matrix) :
  length (mrows M) = nrows M →
  sparse_wf A →
  sparse_dot A (transpose M) = Some Y →
  mrows (transpose Y) = matvec A <$> mrows M.
Proof.
  intros HM [_ Hcols]. unfold sparse_dot. case_decide as Hin; [|done].
  intros [= <-]. simpl in *.
  apply list_eq. intros t. rewrite !list_lookup_fmap.
  destruct (decide (t < nrows M)) as [Ht|Ht].
  - rewrite lookup_seq_lt by done. simpl.
    destruct (lookup_lt_is_Some_2 (mrows M) t) as [x Hx]; [lia|].
    rewrite Hx. simpl. f_equal. unfold matvec. rewrite <- list_fmap_compose.
    apply Forall_fmap_ext_1. eapply Forall_impl; [exact Hcols|].
    intros row Hrow. simpl.
    rewrite (sparse_row_dot_lookup (transpose M) row t x); [done| |done].
    intros e He. rewrite Forall_forall in Hrow. specialize (Hrow e He). simpl in Hrow.
    eexists. split.
    + simpl. rewrite list_lookup_fmap, lookup_seq_lt by lia. done.
    + by rewrite list_lookup_fmap, Hx.
  - rewrite lookup_seq_ge by lia. rewrite lookup_ge_None_2 by lia. done.
Qed.

(** [_rgr_calc] computes what the specification describes: each field
    over the trailing two dimensions, flattened, times the matrix, in
    the target shape. *)
Lemma rgr_calc_spec (data : ndarray) (A : sparse) (out_dims : nat * nat)
    (extra : list nat) (Ny_in Nx_in : nat) (out : ndarray) :
  shape data = extra ++ [Ny_in; Nx_in] →
  sparse_wf A →
  _rgr_calc data A out_dims = Some out →
  out = apply_matrix_spec A data (Ny_in, Nx_in) out_dims.
Proof.
  intros Hs HA. unfold _rgr_calc, apply_matrix_spec. rewrite Hs.
  rewrite rev_app_distr. simpl.
  rewrite length_app. simpl.
  replace (length extra + 2 - 2) with (length extra) by lia.
  rewrite take_app_length.
  unfold reshape_rows. case_decide as Hk; [done|].
  unfold size. rewrite Hs, prod_list_app. simpl.
  replace (prod_list extra * (Ny_in * (Nx_in * 1)))
    with (prod_list extra * (Ny_in * Nx_in)) by lia.
  rewrite Nat.Div0.mod_mul, decide_True by done. simpl.
  rewrite Nat.div_mul by done.
  set (M := {| nrows := prod_list extra |}).
  destruct (sparse_dot A (transpose M)) as [Y|] eqn:HY; simpl; [|done].
  destruct out_dims as [Ny_out Nx_out]. unfold reshape_to.
  case_decide; [|done]. intros [= <-]. f_equal.
  f_equal. apply (dot_transpose A M Y); [|done|done].
  subst M. simpl. unfold rows_of. by rewrite length_reshape, length_replicate.
Qed.

(** With matching sizes [_rgr_calc] does return. *)
Lemma rgr_calc_is_Some (data : ndarray) (A : sparse) (out_dims : nat * nat)
    (extra : list nat) (Ny_in Nx_in : nat) :
  shape data = extra ++ [Ny_in; Nx_in] →
  0 < Ny_in * Nx_in →
  n_in A = Ny_in * Nx_in →
  n_out A = out_dims.1 * out_dims.2 →
  is_Some (_rgr_calc data A out_dims).
Proof.
  intros Hs Hk Hin Hout. unfold _rgr_calc. rewrite Hs.
  rewrite rev_app_distr. simpl.
  unfold reshape_rows. rewrite decide_False by lia.
  unfold size. rewrite Hs, prod_list_app. simpl.
  replace (prod_list extra * (Ny_in * (Nx_in * 1)))
    with (prod_list extra * (Ny_in * Nx_in)) by lia.
  rewrite Nat.Div0.mod_mul, decide_True by done. simpl.
  rewrite Nat.div_mul by lia.
  unfold sparse_dot. simpl. rewrite decide_True by done. simpl.
  destruct out_dims as [Ny_out Nx_out]. unfold reshape_to. simpl in *.
  rewrite decide_True; [eauto|].
  rewrite length_app. simpl.
  replace (length extra + 2 - 2) with (length extra) by lia.
  rewrite take_app_length, prod_list_app. simpl. lia.
Qed.

Lemma rgr_calc_n_in (data : ndarray) (A : sparse) (out_dims : nat * nat)
    (extra : list nat) (Ny_in Nx_in : nat) (out : ndarray) :
  _rgr_calc data A out_dims = Some out →
  shape data = extra ++ [Ny_in; Nx_in] →
  n_in A = Ny_in * Nx_in ∧ 0 < n_in A.
Proof.
  intros Hc Hs. revert Hc. unfold _rgr_calc. rewrite Hs, rev_app_distr. simpl.
  unfold reshape_rows. case_decide as Hk; [done|]. case_decide; [|done]. simpl.
  unfold sparse_dot. case_decide as Hin; [|done]. simpl in Hin. lia.
Qed.

(** ** Zero-weight rows *)

Lemma add_matrix_NaNs_wf (A : sparse) :
  sparse_wf A → 0 < n_in A → sparse_wf (add_matrix_NaNs A).
Proof.
  intros [Hlen Hcols] Hin. split; simpl.
  - by rewrite length_fmap.
  - apply Forall_fmap. eapply Forall_impl; [exact Hcols|].
    intros row Hrow. simpl. destruct (zero_weight_row row); [|done].
    repeat constructor. done.
Qed.

(** The row that replaces a zero-weight row makes the product NaN,
    whatever the data. *)
Lemma matvec_nan_row (A : sparse) (i : nat) (row : list (nat * float)) (x : list float) :
  sp_rows A !! i = Some row →
  zero_weight_row row = true →
  matvec (add_matrix_NaNs A) x !! i = Some nan.
Proof.
  intros Hi Hz. unfold matvec, add_matrix_NaNs. simpl.
  rewrite !list_lookup_fmap, Hi. simpl. rewrite Hz. simpl.
  by rewrite nan_mul, add_nan.
Qed.

(** Without the replacement a target cell with no stored weight comes
    out as zero. *)
Lemma matvec_empty_row (A : sparse) (i : nat) (x : list float) :
  sp_rows A !! i = Some [] → matvec A x !! i = Some 0%float.
Proof. intros Hi. unfold matvec. by rewrite list_lookup_fmap, Hi. Qed.

(** ** Blocks of [regridding] *)

(** Mapping [_rgr_calc] over the time slabs and joining the results is
    the product of the matrix with every field of the whole array. *)
Lemma mapped_blocks_join (A : sparse) (dim_val : nat * nat) (Ny_in Nx_in : nat)
    (tchunks : list nat) (l : list float) (blocks : list ndarray) :
  (0 < n_in A → sparse_wf A) →
  mapM (λ b, _rgr_calc b A dim_val)
       (zip_with (λ tb b, {| shape := tb :: [Ny_in; Nx_in]; buf := b |}) tchunks
          (split_blocks ((λ tb, tb * prod_list [Ny_in; Nx_in]) <$> tchunks) l))
  = Some blocks →
  mjoin (buf <$> blocks)
  = mjoin (matvec A <$> rows_of (Ny_in * Nx_in) (sum_list tchunks) l)
  ∧ shape <$> blocks = (λ tb, [tb; dim_val.1; dim_val.2]) <$> tchunks.
Proof.
  intros HA. revert l blocks.
  induction tchunks as [|tb ts IH]; intros l blocks; csimpl.
  { by intros [= <-]. }
  intros (y & Hy & Hys)%bind_Some.
  apply bind_Some in Hys as (ys & Hys & [= <-]).
  destruct (IH _ _ Hys) as [IHb IHs]. clear IH.
  destruct (rgr_calc_n_in _ _ _ [tb] Ny_in Nx_in _ Hy eq_refl) as [Hin Hpos].
  apply (rgr_calc_spec _ _ _ [tb] Ny_in Nx_in) in Hy; [|done|by apply HA].
  subst y. split.
  - csimpl. rewrite IHb. unfold rows_of.
    rewrite replicate_add, reshape_app, fmap_app, join_app, sum_list_replicate.
    replace (tb * (Ny_in * (Nx_in * 1))) with (tb * (Ny_in * Nx_in)) by lia.
    replace (tb * 1) with tb by lia.
    by rewrite reshape_take by (rewrite sum_list_replicate; lia).
  - csimpl. rewrite IHs. by destruct dim_val.
Qed.

(** ** [get_grids] *)

(** The target grid keeps its centres; a one-dimensional longitude
    array makes it rectilinear. *)
Lemma get_grids_spec `{Collaborators} (nc : Dataset) (target_grid : Grid) (method : string)
    (sgrid tgrid : Grid) (dim_val : nat * nat) (dim_shape : list string * list string) :
  get_grids nc target_grid method = Some (sgrid, tgrid, dim_val, dim_shape) →
  g_lon sgrid = c_values (ds_lon nc) ∧ g_lat sgrid = c_values (ds_lat nc)
  ∧ g_lon tgrid = g_lon target_grid ∧ g_lat tgrid = g_lat target_grid
  ∧ (ndim (g_lon target_grid) = 1 →
     dim_val = (size (g_lat target_grid), size (g_lon target_grid))
     ∧ dim_shape = (["x"], ["y"]))
  ∧ (ndim (g_lon target_grid) ≠ 1 →
     shape (g_lon target_grid) !! 0 = Some dim_val.1
     ∧ shape (g_lon target_grid) !! 1 = Some dim_val.2
     ∧ dim_shape = (["y"; "x"], ["y"; "x"])).
Proof.
  unfold get_grids. intros ([s t] & Hst & Hrest)%bind_Some.
  assert (Hg : g_lon s = c_values (ds_lon nc) ∧ g_lat s = c_values (ds_lat nc)
               ∧ g_lon t = g_lon target_grid ∧ g_lat t = g_lat target_grid).
  { destruct (_ && _).
    - apply bind_Some in Hst as ([? ?] & _ & Hst).
      apply bind_Some in Hst as ([? ?] & _ & Hst). by simplify_eq.
    - by simplify_eq. }
  destruct Hg as (Hg1 & Hg2 & Hg3 & Hg4).
  case_decide as Hnd.
  - simplify_eq. rewrite Hg3, Hg4 in *. repeat split; done.
  - apply bind_Some in Hrest as (d0 & Hd0 & Hrest).
    apply bind_Some in Hrest as (d1 & Hd1 & Hrest). simplify_eq.
    rewrite Hg3 in *. repeat split; done.
Qed.

(** ** [regridding] *)

(** The dataset that [regridding] returns, spelled out. *)
Lemma regridding_inv `{Collaborators} (data : gmap string Entry) (data_name var : string)
    (target_grid : Grid) (method : string) (dset : Dataset) (entry : Entry)
    (dv : DataVar) (T Ny_in Nx_in : nat) (sgrid tgrid : Grid) (dim_val : nat * nat)
    (dim_shape : list string * list string) (A0 : sparse) :
  regridding data data_name var target_grid method = Some dset →
  data !! data_name = Some entry →
  assoc var (ds_vars (e_data entry)) = Some dv →
  shape (dv_data dv) = [T; Ny_in; Nx_in] →
  get_grids (e_data entry) target_grid method = Some (sgrid, tgrid, dim_val, dim_shape) →
  xe_Regridder sgrid tgrid method = Some A0 →
  sparse_wf A0 →
  ∃ tchunks,
    assoc "time" (ds_chunks (e_data entry)) = Some tchunks
    ∧ sum_list tchunks = T
    ∧ dset =
      {| ds_dims := [("time", T); ("x", dim_val.2); ("y", dim_val.1)];
         ds_chunks := [("time", tchunks); ("y", [dim_val.1]); ("x", [dim_val.2])];
         ds_time := ds_time (e_data entry);
         ds_lon := {| c_dims := dim_shape.1; c_values := g_lon target_grid |};
         ds_lat := {| c_dims := dim_shape.2; c_values := g_lat target_grid |};
         ds_vars :=
           [(var, {| dv_dims := ["time"; "y"; "x"];
                     dv_data := apply_matrix_spec (add_matrix_NaNs A0) (dv_data dv)
                                  (Ny_in, Nx_in) dim_val;
                     dv_attrs := ds_attrs (e_data entry) |})];
         ds_attrs := [] |}.
Proof.
  intros Hr He Hv Hs Hg HA Hwf. unfold regridding in Hr.
  rewrite He in Hr. simpl in Hr. rewrite Hv in Hr. simpl in Hr.
  apply bind_Some in Hr as (data_dist & Hdd & Hr).
  rewrite Hg in Hr. simpl in Hr. rewrite HA in Hr. simpl in Hr.
  apply bind_Some in Hr as (tchunks & Htc & Hr). exists tchunks. split; [done|].
  apply bind_Some in Hr as (blocks & Hb & Hr).
  apply bind_Some in Hr as (rgr_data & Hrd & Hr).
  unfold dask_blocks in Hdd. destruct (dv_dims dv) as [|d0 rest]; [done|].
  apply bind_Some in Hdd as (chunks0 & _ & Hdd). case_decide; [|done].
  unfold time_slabs in Hdd. rewrite Hs in Hdd. case_decide as Hsum; [|done].
  injection Hdd as <-.
  apply mapped_blocks_join in Hb as [Hbuf Hshape];
    [|intros; by apply add_matrix_NaNs_wf].
  unfold da_assemble in Hrd. case_decide as Hdecl; [|done]. injection Hrd as <-.
  assert (chunks0 = tchunks) as ->.
  { rewrite Hshape in Hdecl. clear -Hdecl. revert tchunks Hdecl.
    induction chunks0 as [|c cs IH]; intros [|t ts] Hd; simplify_eq/=; [done|].
    f_equal; eauto. }
  split; [done|].
  unfold xa_DataArray_to_dataset in Hr. simpl in Hr.
  destruct (_ && _); [|done]. injection Hr as <-.
  rewrite Hsum. do 3 f_equal. unfold apply_matrix_spec. rewrite Hs. simpl.
  rewrite Hbuf, Hsum. by replace (T * 1) with T by lia.
Qed.

(** C4 (amended): the data of the returned dataset are the fields of
    the input variable, each flattened, multiplied by the matrix and
    laid out as [(time, Ny_out, Nx_out)], however the time axis is cut
    in blocks; the time coordinate is that of the input; longitude and
    latitude of the target grid are attached on ['x'] and ['y'] when the
    target longitudes are one-dimensional and on [('y', 'x')]
    otherwise.  The attributes of the regridded variable are the
    attributes of the input dataset, not those of the input variable. *)
Theorem regridding_applies_matrix `{Collaborators} (data : gmap string Entry)
    (data_name var : string) (target_grid : Grid) (method : string) (dset : Dataset)
    (entry : Entry) (dv : DataVar) (T Ny_in Nx_in : nat) (sgrid tgrid : Grid)
    (dim_val : nat * nat) (dim_shape : list string * list string) (A0 : sparse) :
  regridding data data_name var target_grid method = Some dset →
  data !! data_name = Some entry →
  assoc var (ds_vars (e_data entry)) = Some dv →
  shape (dv_data dv) = [T; Ny_in; Nx_in] →
  get_grids (e_data entry) target_grid method = Some (sgrid, tgrid, dim_val, dim_shape) →
  xe_Regridder sgrid tgrid method = Some A0 →
  sparse_wf A0 →
  ∃ out,
    ds_vars dset = [(var, out)]
    ∧ dv_data out = apply_matrix_spec (add_matrix_NaNs A0) (dv_data dv) (Ny_in, Nx_in) dim_val
    ∧ shape (dv_data out) = [T; dim_val.1; dim_val.2]
    ∧ dv_dims out = ["time"; "y"; "x"]
    ∧ ds_time dset = ds_time (e_data entry)
    ∧ dv_attrs out = ds_attrs (e_data entry)
    ∧ c_values (ds_lon dset) = g_lon target_grid
    ∧ c_values (ds_lat dset) = g_lat target_grid
    ∧ (ndim (g_lon target_grid) = 1 →
       c_dims (ds_lon dset) = ["x"] ∧ c_dims (ds_lat dset) = ["y"]
       ∧ dim_val = (size (g_lat target_grid), size (g_lon target_grid)))
    ∧ (ndim (g_lon target_grid) ≠ 1 →
       c_dims (ds_lon dset) = ["y"; "x"] ∧ c_dims (ds_lat dset) = ["y"; "x"]
       ∧ shape (g_lon target_grid) !! 0 = Some dim_val.1
       ∧ shape (g_lon target_grid) !! 1 = Some dim_val.2).
Proof.
  intros Hr He Hv Hs Hg HA Hwf.
  destruct (regridding_inv _ _ _ _ _ _ _ _ _ _ _ _ _ _ _ _ Hr He Hv Hs Hg HA Hwf)
    as (tchunks & _ & _ & ->).
  destruct (get_grids_spec _ _ _ _ _ _ _ Hg) as (_ & _ & _ & _ & H1d & H2d).
  eexists. split; [reflexivity|]. simpl.
  split_and!; try done.
  - by rewrite Hs.
  - intros Hn. by destruct (H1d Hn) as [-> ->].
  - intros Hn. by destruct (H2d Hn) as (? & ? & ->).
Qed.

(** C2: a target cell whose row of the regridding matrix carries no
    weight is NaN in the regridded data at every time step. *)
Theorem regridding_zero_weight_nan `{Collaborators} (data : gmap string Entry)
    (data_name var : string) (target_grid : Grid) (method : string) (dset : Dataset)
    (entry : Entry) (dv : DataVar) (T Ny_in Nx_in : nat) (sgrid tgrid : Grid)
    (dim_val : nat * nat) (dim_shape : list string * list string) (A0 : sparse)
    (i t : nat) (row : list (nat * float)) :
  regridding data data_name var target_grid method = Some dset →
  data !! data_name = Some entry →
  assoc var (ds_vars (e_data entry)) = Some dv →
  shape (dv_data dv) = [T; Ny_in; Nx_in] →
  get_grids (e_data entry) target_grid method = Some (sgrid, tgrid, dim_val, dim_shape) →
  xe_Regridder sgrid tgrid method = Some A0 →
  sparse_wf A0 →
  sp_rows A0 !! i = Some row →
  zero_weight_row row = true →
  t < T →
  ∃ out,
    assoc var (ds_vars dset) = Some out
    ∧ buf (dv_data out) !! (t * n_out A0 + i) = Some nan.
Proof.
  intros Hr He Hv Hs Hg HA Hwf Hi Hz Ht.
  destruct (regridding_inv _ _ _ _ _ _ _ _ _ _ _ _ _ _ _ _ Hr He Hv Hs Hg HA Hwf)
    as (tchunks & _ & _ & ->).
  eexists. split; [simpl; by rewrite decide_True|]. simpl.
  rewrite Hs. simpl.
  destruct Hwf as [Hlen _].
  apply (join_lookup_Some_same_length' (n_out A0)).
  - apply Forall_fmap, Forall_true. intros x. simpl.
    unfold matvec. simpl. by rewrite !length_fmap.
  - rewrite <- Hlen. by eapply lookup_lt_Some.
  - destruct (lookup_lt_is_Some_2 (rows_of (Ny_in * Nx_in) (T * 1) (buf (dv_data dv))) t)
      as [x Hx].
    { unfold rows_of. rewrite length_reshape, length_replicate. lia. }
    exists (matvec (add_matrix_NaNs A0) x). split.
    + by rewrite list_lookup_fmap, Hx.
    + by apply matvec_nan_row with row.
Qed.

(** ** [remap_func] *)






(** ** [calc_stats] *)

Lemma dict_comp_spec {A} (f : string → option A) (keys : list string) (d : gmap string A) :
  dict_comp f keys = Some d →
  (∀ r, r ∈ keys → ∃ a, f r = Some a ∧ d !! r = Some a)
  ∧ (∀ r, r ∉ keys → d !! r = None).
Proof.
  unfold dict_comp.
  enough (Hgen : ∀ acc d0,
            foldl (λ acc r, d ← acc; a ← f r; Some (<[r := a]> d)) acc keys = Some d →
            acc = Some d0 →
            (∀ r, r ∈ keys → ∃ a, f r = Some a ∧ d !! r = Some a)
            ∧ (∀ r, r ∉ keys → d !! r = d0 !! r)).
  { intros Hd. destruct (Hgen _ ∅ Hd eq_refl) as [Hin Hout]. split; [done|].
    intros r Hr. by rewrite Hout. }
  induction keys as [|k keys IH]; intros acc d0; simpl.
  { intros -> [= ->]. split; [by intros ? ?%elem_of_nil|done]. }
  intros Hf ->. simpl in Hf.
  destruct (f k) as [a|] eqn:Hk; simpl in Hf; last first.
  { exfalso. clear -Hf. induction keys as [|? ? IHk]; simpl in Hf; [done|by apply IHk]. }
  destruct (IH _ _ Hf eq_refl) as [Hin Hout]. split.
  - intros r Hrin. destruct (decide (r ∈ keys)) as [Hr|Hr]; [by apply Hin|].
    assert (r = k) as -> by (by apply elem_of_cons in Hrin as [?|?]).
    exists a. split; [done|]. by rewrite Hout, lookup_insert_eq.
  - intros r [Hne Hr]%not_elem_of_cons. by rewrite Hout, lookup_insert_ne.
Qed.

Section calc_stats.
Context `{Collaborators}.
Context (v stat : string) (pool : bool) (chunk_dim : string)
        (stats_config : gmap string StatConf) (regions : list string).

(** The participant loop: a participant with data gets its result, a
    participant without data gets none, and the loop fails only when
    the statistics of a participant with data fail. *)
Lemma stats_loop_spec (ms : list (string * option Entry)) (acc res : gmap string PStats) :
  NoDup ms.*1 →
  stats_loop ms v stat pool chunk_dim stats_config regions acc = Some res →
  ∀ m,
    (∀ e, (m, Some e) ∈ ms →
       ∃ r, stats_for e v stat pool chunk_dim stats_config regions = Some r
            ∧ res !! m = Some r)
    ∧ ((m, None) ∈ ms ∨ m ∉ ms.*1 → res !! m = acc !! m).
Proof.
  revert acc. induction ms as [|[m0 [e0|]] ms IH]; intros acc Hnd; simpl.
  - intros [= <-] m. split; [by intros ? ?%elem_of_nil|done].
  - apply NoDup_cons in Hnd as [Hm0 Hnd].
    intros (r0 & Hr0 & Hl)%bind_Some m. specialize (IH _ Hnd Hl).
    split.
    + intros e [[= -> ->]|Hin]%elem_of_cons.
      * exists r0. split; [done|].
        rewrite (proj2 (IH m0)) by (by right). by rewrite lookup_insert_eq.
      * by apply IH.
    + intros Hm.
      assert (m ≠ m0).
      { intros ->. destruct Hm as [[?|Hin]%elem_of_cons|Hm]; [done| |].
        - apply Hm0. by apply (list_elem_of_fmap_2 fst) in Hin.
        - apply Hm. by left. }
      rewrite (proj2 (IH m)), lookup_insert_ne; [done|done|].
      destruct Hm as [[?|?]%elem_of_cons|Hm]; [done|by left|].
      right. intros ?. apply Hm. by right.
  - apply NoDup_cons in Hnd as [Hm0 Hnd].
    intros Hl m. specialize (IH _ Hnd Hl). split.
    + intros e [?|Hin]%elem_of_cons; [done|]. by apply IH.
    + intros Hm. destruct (decide (m = m0)) as [->|Hne].
      * apply IH. by right.
      * apply IH. destruct Hm as [[?|?]%elem_of_cons|Hm]; [by simplify_eq|by left|].
        right. intros ?. apply Hm. by right.
Qed.

Lemma stats_loop_is_Some (ms : list (string * option Entry)) (acc : gmap string PStats) :
  (∀ m e, (m, Some e) ∈ ms →
     is_Some (stats_for e v stat pool chunk_dim stats_config regions)) →
  is_Some (stats_loop ms v stat pool chunk_dim stats_config regions acc).
Proof.
  revert acc. induction ms as [|[m0 [e0|]] ms IH]; intros acc Hok; simpl.
  - eauto.
  - destruct (Hok m0 e0) as [r ->]; [by left|]. simpl.
    apply IH. intros m e ?. apply (Hok m). by right.
  - apply IH. intros m e ?. apply (Hok m). by right.
Qed.

Lemma stats_loop_map (parts : gmap string (option Entry)) (res : gmap string PStats) :
  stats_loop (map_to_list parts) v stat pool chunk_dim stats_config regions ∅ = Some res →
  ∀ m,
    (∀ e, parts !! m = Some (Some e) →
       ∃ r, stats_for e v stat pool chunk_dim stats_config regions = Some r
            ∧ res !! m = Some r)
    ∧ (parts !! m = Some None ∨ parts !! m = None → res !! m = None).
Proof.
  intros Hl m.
  destruct (stats_loop_spec _ _ _ (NoDup_fst_map_to_list parts) Hl m) as [Hin Hout].
  split.
  - intros e He. apply Hin. by apply elem_of_map_to_list.
  - intros Hm. rewrite Hout; [done|]. destruct Hm as [Hm|Hm].
    + left. by apply elem_of_map_to_list.
    + right. intros ([m' x] & -> & Hx%elem_of_map_to_list)%list_elem_of_fmap.
      simpl in Hm. congruence.
Qed.
End calc_stats.

Section calc_stats_dict.
Context `{Collaborators}.
Context (ddict : gmap string (gmap string (gmap string (option Entry))))
        (stat : string) (pool : bool) (chunk_dim : string)
        (stats_config : gmap string StatConf) (regions : list string).

Abbreviation step := (calc_stats_step ddict stat pool chunk_dim stats_config regions).

Lemma calc_stats_fold_None (vfs : list (string * string)) : foldl step None vfs = None.
Proof. by induction vfs. Qed.

Lemma calc_stats_fold (vfs : list (string * string))
    (st0 st : gmap string (gmap string PStats)) :
  NoDup vfs.*1 →
  foldl step (Some st0) vfs = Some st →
  (∀ v f, (v, f) ∈ vfs →
     ∃ parts st_v,
       ddict !! f ≫= (.!! v) = Some parts
       ∧ stats_loop (map_to_list parts) v stat pool chunk_dim stats_config regions ∅
         = Some st_v
       ∧ st !! v = Some st_v)
  ∧ (∀ v, v ∉ vfs.*1 → st !! v = st0 !! v).
Proof.
  revert st0. induction vfs as [|[v0 f0] vfs IH]; intros st0 Hnd Hf.
  { injection Hf as <-. split; [by intros ? ? ?%elem_of_nil|done]. }
  apply NoDup_cons in Hnd as [Hv0 Hnd].
  change (foldl step (step (Some st0) (v0, f0)) vfs = Some st) in Hf.
  destruct (step (Some st0) (v0, f0)) as [st1|] eqn:Hstep;
    [|by rewrite calc_stats_fold_None in Hf].
  destruct (IH _ Hnd Hf) as [Hin Hout]. clear IH.
  unfold step in Hstep. simpl in Hstep.
  apply bind_Some in Hstep as (parts0 & Hp0 & Hstep).
  apply bind_Some in Hstep as (st_v0 & Hl0 & [= <-]).
  split.
  - intros v f Hvf. destruct (decide ((v, f) ∈ vfs)) as [Hin'|Hin']; [by apply Hin|].
    assert ((v, f) = (v0, f0)) as [= -> ->] by (by apply elem_of_cons in Hvf as [?|?]).
    exists parts0, st_v0. split_and!; [done..|].
    by rewrite Hout, lookup_insert_eq.
  - intros v [Hne Hv]%not_elem_of_cons. by rewrite Hout, lookup_insert_ne.
Qed.

Lemma calc_stats_fold_is_Some (vfs : list (string * string))
    (st0 : gmap string (gmap string PStats)) :
  (∀ v f, (v, f) ∈ vfs →
     ∃ parts, ddict !! f ≫= (.!! v) = Some parts
              ∧ ∀ m e, parts !! m = Some (Some e) →
                  is_Some (stats_for e v stat pool chunk_dim stats_config regions)) →
  is_Some (foldl step (Some st0) vfs).
Proof.
  revert st0. induction vfs as [|[v0 f0] vfs IH]; intros st0 Hok; [by eexists|].
  destruct (Hok v0 f0) as (parts & Hp & Hall); [by left|].
  destruct (stats_loop_is_Some v0 stat pool chunk_dim stats_config regions
              (map_to_list parts) ∅) as [st_v Hl].
  { intros m e Hin. apply (Hall m). by apply elem_of_map_to_list. }
  change (is_Some (foldl step (step (Some st0) (v0, f0)) vfs)).
  assert (step (Some st0) (v0, f0) = Some (<[v0 := st_v]> st0)) as ->.
  { unfold calc_stats_step. simpl. rewrite Hp. simpl. by rewrite Hl. }
  apply IH. intros v f ?. apply Hok. by right.
Qed.

(** What [calc_stats] holds for a participant of a requested
    variable. *)
Lemma calc_stats_lookup (vv : gmap string string)
    (st : gmap string (gmap string PStats)) (v f : string) :
  calc_stats ddict vv stat pool chunk_dim stats_config regions = Some st →
  vv !! v = Some f →
  ∃ parts st_v,
    ddict !! f ≫= (.!! v) = Some parts
    ∧ st !! v = Some st_v
    ∧ ∀ m,
        (∀ e, parts !! m = Some (Some e) →
           ∃ r, stats_for e v stat pool chunk_dim stats_config regions = Some r
                ∧ st_v !! m = Some r)
        ∧ (parts !! m = Some None ∨ parts !! m = None → st_v !! m = None).
Proof.
  intros Hc Hv. unfold calc_stats in Hc.
  destruct (calc_stats_fold _ _ _ (NoDup_fst_map_to_list vv) Hc) as [Hin _].
  destruct (Hin v f) as (parts & st_v & Hp & Hl & Hst); [by apply elem_of_map_to_list|].
  exists parts, st_v. split_and!; [done..|].
  by apply stats_loop_map.
Qed.

Lemma calc_stats_is_Some (vv : gmap string string) :
  (∀ v f, vv !! v = Some f →
     ∃ parts, ddict !! f ≫= (.!! v) = Some parts
              ∧ ∀ m e, parts !! m = Some (Some e) →
                  is_Some (stats_for e v stat pool chunk_dim stats_config regions)) →
  is_Some (calc_stats ddict vv stat pool chunk_dim stats_config regions).
Proof.
  intros Hok. unfold calc_stats. apply calc_stats_fold_is_Some.
  intros v f Hvf. apply Hok. by apply elem_of_map_to_list.
Qed.
End calc_stats_dict.

(** C8: a participant whose entry is [None] raises no error and gets no
    result: whenever the statistics of the participants with data can
    be computed, [calc_stats] returns, its result for a requested
    variable has no entry for a participant without data and holds, for
    every participant with data, the statistics computed from it. *)
Theorem calc_stats_skips_missing `{Collaborators}
    (ddict : gmap string (gmap string (gmap string (option Entry))))
    (vv : gmap string string) (stat : string) (pool : bool) (chunk_dim : string)
    (stats_config : gmap string StatConf) (regions : list string) :
  (∀ v f, vv !! v = Some f →
     ∃ parts, ddict !! f ≫= (.!! v) = Some parts
              ∧ ∀ m e, parts !! m = Some (Some e) →
                  is_Some (stats_for e v stat pool chunk_dim stats_config regions)) →
  ∃ st_data,
    calc_stats ddict vv stat pool chunk_dim stats_config regions = Some st_data
    ∧ ∀ v f, vv !! v = Some f →
        ∃ parts st_v,
          ddict !! f ≫= (.!! v) = Some parts
          ∧ st_data !! v = Some st_v
          ∧ ∀ m,
              (parts !! m = Some None → st_v !! m = None)
              ∧ (∀ e, parts !! m = Some (Some e) →
                   ∃ r, stats_for e v stat pool chunk_dim stats_config regions = Some r
                        ∧ st_v !! m = Some r).
Proof.
  intros Hok.
  destruct (calc_stats_is_Some _ _ _ _ _ _ _ Hok) as [st_data Hst].
  exists st_data. split; [done|]. intros v f Hv.
  destruct (calc_stats_lookup _ _ _ _ _ _ _ _ _ _ Hst Hv) as (parts & st_v & Hp & Hsv & Hm).
  exists parts, st_v. split_and!; [done..|].
  intros m. destruct (Hm m) as [Hdata Hnone]. split; [|done].
  intros Hn. apply Hnone. by left.
Qed.

(** C6: with regions configured, the result of a participant holds for
    every region, with [pool] true, the statistic of the data masked to
    that region, and with [pool] false the domain statistic, computed
    once, masked to that region. *)
Theorem calc_stats_regions `{Collaborators}
    (ddict : gmap string (gmap string (gmap string (option Entry))))
    (vv : gmap string string) (stat : string) (pool : bool) (chunk_dim : string)
    (stats_config : gmap string StatConf) (regions : list string)
    (st_data : gmap string (gmap string PStats)) (v f m : string)
    (parts : gmap string (option Entry)) (entry : Entry) (r : string) :
  calc_stats ddict vv stat pool chunk_dim stats_config regions = Some st_data →
  vv !! v = Some f →
  ddict !! f ≫= (.!! v) = Some parts →
  parts !! m = Some (Some entry) →
  r ∈ regions →
  ∃ data domain mask res st_mdata st_r,
    stats_input entry v stat chunk_dim stats_config = Some data
    ∧ calc_statistics data v stat stats_config = Some domain
    ∧ reg_mask (c_values (ds_lon data)) (c_values (ds_lat data)) r = Some mask
    ∧ st_data !! v ≫= (.!! m) = Some res
    ∧ st_domain res = domain
    ∧ st_regions res = Some st_mdata
    ∧ st_mdata !! r = Some st_r
    ∧ (pool = true →
       ∃ mdata, get_masked_data data v mask = Some mdata
                ∧ calc_statistics mdata v stat stats_config = Some st_r)
    ∧ (pool = false → get_masked_data domain v mask = Some st_r).
Proof.
  intros Hc Hv Hp Hm Hr.
  destruct (calc_stats_lookup _ _ _ _ _ _ _ _ _ _ Hc Hv) as (parts' & st_v & Hp' & Hsv & Hall).
  assert (parts' = parts) as -> by congruence.
  destruct (proj1 (Hall m) entry Hm) as (res & Hres & Hlook).
  unfold stats_for in Hres.
  apply bind_Some in Hres as (data & Hdata & Hres).
  apply bind_Some in Hres as (domain & Hdom & Hres).
  destruct regions as [|r0 rs] eqn:Hregs; [by apply elem_of_nil in Hr|].
  rewrite <- Hregs in *. clear Hregs r0 rs.
  apply bind_Some in Hres as (masks & Hmasks & Hres).
  apply bind_Some in Hres as (st_mdata & Hmd & [= <-]).
  destruct (proj1 (dict_comp_spec _ _ _ Hmasks) r Hr) as (mask & Hmask & Hmr).
  destruct pool.
  - apply bind_Some in Hmd as (mdata & Hmdata & Hst).
    destruct (proj1 (dict_comp_spec _ _ _ Hmdata) r Hr) as (md & Hmd & Hmdr).
    destruct (proj1 (dict_comp_spec _ _ _ Hst) r Hr) as (st_r & Hst_r & Hsr).
    rewrite Hmr in Hmd. simpl in Hmd. rewrite Hmdr in Hst_r. simpl in Hst_r.
    eexists data, domain, mask, _, st_mdata, st_r. rewrite Hsv. simpl.
    split_and!; try done. intros _. by exists md.
  - destruct (proj1 (dict_comp_spec _ _ _ Hmd) r Hr) as (st_r & Hst_r & Hsr).
    rewrite Hmr in Hst_r. simpl in Hst_r.
    eexists data, domain, mask, _, st_mdata, st_r. rewrite Hsv. simpl.
    split_and!; done.
Qed.

(** ** [get_prep_func] *)

Lemma assoc_fmap_snd {A B} (g : A → B) (k : string) (d : list (string * A)) :
  assoc k ((λ kv, (kv.1, g kv.2)) <$> d) = g <$> assoc k d.
Proof.
  induction d as [|[k' x] d IH]; csimpl; [done|]. by case_decide.
Qed.

Lemma take_all_but_last {A} (l : list A) :
  1 ≤ length l → ∃ x, l = take (length l - 1) l ++ [x].
Proof.
  intros Hl. pose proof (take_drop (length l - 1) l) as Htd.
  destruct (drop (length l - 1) l) as [|x [|y l']] eqn:Hd.
  - apply (f_equal length) in Hd. rewrite length_drop in Hd. simpl in Hd. lia.
  - by exists x.
  - apply (f_equal length) in Hd. rewrite length_drop in Hd. simpl in Hd. lia.
Qed.

(** C10: on a dataset with [n >= 1] time steps the preprocessing
    function returns a dataset with [n - 1] time steps, whatever the
    flag: with [deacc] the differences of successive steps, labelled
    with the later time; without it the input less its last step. *)
Theorem get_prep_func_drops_one (deacc : bool) (data : TimeData) :
  time_indexed data →
  1 ≤ n_time data →
  n_time (get_prep_func deacc data) + 1 = n_time data
  ∧ time_indexed (get_prep_func deacc data)
  ∧ (deacc = true →
     (∃ t0, td_time data = t0 :: td_time (get_prep_func deacc data))
     ∧ ∀ k steps, assoc k (td_vars data) = Some steps →
         ∃ steps', assoc k (td_vars (get_prep_func deacc data)) = Some steps'
                   ∧ length steps' + 1 = length steps
                   ∧ ∀ i a b, steps !! i = Some a → steps !! S i = Some b →
                       steps' !! i = Some (zip_with (λ x y, (x - y)%float) b a))
  ∧ (deacc = false →
     (∃ t, td_time data = td_time (get_prep_func deacc data) ++ [t])
     ∧ ∀ k steps, assoc k (td_vars data) = Some steps →
         ∃ steps' s, assoc k (td_vars (get_prep_func deacc data)) = Some steps'
                     ∧ steps = steps' ++ [s]).
Proof.
  intros Hwf Hn. unfold n_time in *.
  destruct deacc; unfold get_prep_func, xr_diff_time, xr_isel_time_0_m1;
    cbn [td_time td_vars].
  - split_and!; [| | |done].
    + rewrite length_drop. lia.
    + unfold time_indexed, n_time in *. cbn [td_time td_vars]. apply Forall_fmap.
      eapply Forall_impl; [exact Hwf|]. intros [k steps] Hk. simpl in *.
      rewrite length_zip_with, !length_drop. lia.
    + intros _. split.
      * destruct (td_time data) as [|t0 ts]; [simpl in Hn; lia|]. by exists t0.
      * intros k steps Hk.
        rewrite (assoc_fmap_snd
                   (λ s, zip_with (zip_with (λ a b, (a - b)%float)) (drop 1 s) s)), Hk.
        simpl. eexists. split; [done|].
        assert (Hlen : length steps = length (td_time data)).
        { unfold time_indexed, n_time in Hwf. rewrite Forall_forall in Hwf.
          apply (Hwf _ (assoc_elem_of _ _ _ Hk)). }
        split; [rewrite length_zip_with, length_drop; lia|].
        intros i a b Ha Hb. rewrite lookup_zip_with, lookup_drop.
        change (1 + i) with (S i). by rewrite Hb, Ha.
  - split_and!; [| |done|].
    + rewrite length_take. lia.
    + unfold time_indexed, n_time in *. cbn [td_time td_vars]. apply Forall_fmap.
      eapply Forall_impl; [exact Hwf|]. intros [k steps] Hk. simpl in *.
      rewrite !length_take. lia.
    + intros _. split.
      * destruct (take_all_but_last (td_time data) Hn) as [t Ht]. by exists t.
      * intros k steps Hk.
        rewrite (assoc_fmap_snd (λ s : list (list float), take (length s - 1) s)), Hk.
        simpl.
        assert (Hlen : length steps = length (td_time data)).
        { unfold time_indexed, n_time in Hwf. rewrite Forall_forall in Hwf.
          apply (Hwf _ (assoc_elem_of _ _ _ Hk)). }
        destruct (take_all_but_last steps ltac:(lia)) as [s Hs]. eauto.
Qed.

(** C10 (witness): three accumulated steps give two differences with
    [deacc] and the first two steps without. *)
Lemma get_prep_func_drops_one_witness :
  n_time (get_prep_func true td_acc) + 1 = n_time td_acc
  ∧ n_time (get_prep_func false td_acc) + 1 = n_time td_acc.
Proof.
  split.
  - apply (get_prep_func_drops_one true td_acc); [by apply Forall_singleton|vm_compute; lia].
  - apply (get_prep_func_drops_one false td_acc); [by apply Forall_singleton|vm_compute; lia].
Defined.

Lemma get_prep_func_samples :
  get_prep_func true td_acc
  = {| td_time := [3600; 7200]%Z; td_vars := [("pr", [[3; 2]; [5; 1]]%float)] |}
  ∧ get_prep_func false td_acc
    = {| td_time := [0; 3600]%Z; td_vars := [("pr", [[1; 2]; [4; 4]]%float)] |}.
Proof. split; vm_compute; reflexivity. Qed.

(** ** [get_obs_data] *)

(** On a rectilinear grid with an index on [x] decreasing longitudes
    are reversed and the dataset follows: grid and dataset hold
    [lon = [1, 2, 3]] and the data are reversed along [x]. *)
Lemma get_obs_data_1d :
  get_obs_data od_1d
  = Some ({| od_dims := [("time", 1); ("x", 3); ("y", 2)];
             od_index := [("x", [2; 1; 0]%float); ("y", [0; 1]%float)];
             od_lon := {| c_dims := ["x"]; c_values := mk_ndarray [3] [1; 2; 3]%float |};
             od_lat := {| c_dims := ["y"]; c_values := mk_ndarray [2] [0; 1]%float |};
             od_vars := [("tas", {| dv_dims := ["time"; "y"; "x"];
                                    dv_data := mk_ndarray [1; 2; 3]
                                                 [30; 20; 10; 60; 50; 40]%float;
                                    dv_attrs := [] |})] |},
          {| g_lon := mk_ndarray [3] [1; 2; 3]%float;
             g_lat := mk_ndarray [2] [0; 1]%float;
             g_lon_b := None; g_lat_b := None |}).
Proof. vm_compute. reflexivity. Qed.

(** C9 (the code on a two-dimensional grid): longitudes that decrease
    along [x] are detected, but the grid longitudes are turned upside
    down, along [y]: their rows still decrease, [lon[0, :] = [6, 5, 4]].
    The dataset is reindexed along [x], so that its own longitudes,
    [[1, 2, 3], [4, 5, 6]], differ from those of the grid returned with
    it. *)
Theorem get_obs_data_2d_descending :
  (row0 (c_values (od_lon od_2d)) ≫= np_diff0) = Some (-1)%float
  ∧ ∃ obs_data grid,
      get_obs_data od_2d = Some (obs_data, grid)
      ∧ g_lon grid = mk_ndarray [2; 3] [6; 5; 4; 3; 2; 1]%float
      ∧ (row0 (g_lon grid) ≫= np_diff0) = Some (-1)%float
      ∧ negative (-1) = true
      ∧ c_values (od_lon obs_data) = mk_ndarray [2; 3] [1; 2; 3; 4; 5; 6]%float
      ∧ c_values (od_lon obs_data) ≠ g_lon grid.
Proof.
  split; [vm_compute; reflexivity|].
  eexists _, _. split; [vm_compute; reflexivity|]. simpl.
  split_and!; try (vm_compute; reflexivity).
  intros Heq.
  apply (f_equal (λ a, PrimFloat.eqb (default 0%float (buf a !! 0%nat)) 1%float)) in Heq.
  vm_compute in Heq. discriminate.
Qed.

(** Without an index on [x] the grid is the same, its rows still
    decrease, and the dataset keeps its longitudes as they were read. *)
Lemma get_obs_data_2d_descending_no_index :
  ∃ obs_data grid,
    get_obs_data (without_index od_2d) = Some (obs_data, grid)
    ∧ g_lon grid = mk_ndarray [2; 3] [6; 5; 4; 3; 2; 1]%float
    ∧ (row0 (g_lon grid) ≫= np_diff0) = Some (-1)%float
    ∧ c_values (od_lon obs_data) = mk_ndarray [2; 3] [3; 2; 1; 6; 5; 4]%float
    ∧ od_labels "x" obs_data = Some [2; 1; 0]%float.
Proof.
  eexists _, _. split; [vm_compute; reflexivity|].
  split_and!; vm_compute; reflexivity.
Qed.

(** ** [np.broadcast_to] *)

(** A 2 x 2 mask is repeated over two time steps; a column is repeated
    along [x]; shapes that do not line up are refused. *)
Lemma np_broadcast_to_samples :
  np_broadcast_to (mk_Mask [2; 2] [true; false; false; true]) [2; 2; 2]
  = Some (mk_Mask [2; 2; 2] [true; false; false; true; true; false; false; true])
  ∧ np_broadcast_to (mk_Mask [2; 1] [true; false]) [2; 3]
    = Some (mk_Mask [2; 3] [true; true; true; false; false; false])
  ∧ np_broadcast_to (mk_Mask [3] [true; false; true]) [2; 2] = None.
Proof. repeat split; vm_compute; reflexivity. Qed.

(** ** The properties on the small pipeline *)

Lemma A_sample_wf : sparse_wf A_sample.
Proof. split; [reflexivity|]. repeat constructor; simpl; lia. Qed.

Lemma regridding_sample :
  option_map (λ d, (ds_vars d, ds_time d, ds_lon d))
    (regridding (H := sample_collaborators) dd_sample "m1" "tas" (grid_of ds_obs) "bilinear")
  = Some ([("tas", {| dv_dims := ["time"; "y"; "x"];
                      dv_data := mk_ndarray [2; 1; 2] [1.5; nan; 5.5; nan]%float;
                      dv_attrs := [("domain", "EUR-11")] |})],
          [0; 3600000000000]%Z,
          {| c_dims := ["x"]; c_values := mk_ndarray [2] [10; 20]%float |}).
Proof. vm_compute. reflexivity. Qed.

(** C4 (witness): model [m1] regridded onto the grid of the observation. *)
Lemma regridding_applies_matrix_witness :
  ∃ dset out,
    regridding (H := sample_collaborators) dd_sample "m1" "tas" (grid_of ds_obs) "bilinear"
    = Some dset
    ∧ ds_vars dset = [("tas", out)]
    ∧ shape (dv_data out) = [2; 1; 2]
    ∧ dv_attrs out = ds_attrs ds_model
    ∧ c_dims (ds_lon dset) = ["x"].
Proof.
  edestruct (regridding_applies_matrix (H := sample_collaborators) dd_sample "m1" "tas"
               (grid_of ds_obs) "bilinear")
    as (out & Hv & _ & Hs & _ & _ & Ha & _ & _ & H1d & _).
  - vm_compute; reflexivity.
  - vm_compute; reflexivity.
  - vm_compute; reflexivity.
  - vm_compute; reflexivity.
  - vm_compute; reflexivity.
  - vm_compute; reflexivity.
  - split; [reflexivity|]. repeat constructor; simpl; lia.
  - eexists _, out. split; [reflexivity|]. split; [exact Hv|]. split; [exact Hs|].
    split; [exact Ha|]. exact (proj1 (H1d eq_refl)).
Defined.

(** C4 (counterexample): the input variable carries [units = K] and the
    input dataset [domain = EUR-11]; the regridded variable carries the
    attributes of the dataset, not those of the variable. *)
Lemma regridding_variable_attrs_not_kept :
  ∃ dset out dv,
    regridding (H := sample_collaborators) dd_sample "m1" "tas" (grid_of ds_obs) "bilinear"
    = Some dset
    ∧ assoc "tas" (ds_vars (e_data entry_m1)) = Some dv
    ∧ assoc "tas" (ds_vars dset) = Some out
    ∧ dv_attrs dv = [("units", "K")]
    ∧ dv_attrs out = [("domain", "EUR-11")]
    ∧ dv_attrs out ≠ dv_attrs dv.
Proof.
  eexists _, _, _. split; [vm_compute; reflexivity|].
  split; [vm_compute; reflexivity|]. split; [vm_compute; reflexivity|].
  split; [reflexivity|]. split; [reflexivity|]. simpl. discriminate.
Qed.

(** C2 (witness): the second target cell of [A_sample] has no weight; it
    is NaN at both time steps. *)
Lemma regridding_zero_weight_nan_witness :
  ∃ dset out,
    regridding (H := sample_collaborators) dd_sample "m1" "tas" (grid_of ds_obs) "bilinear"
    = Some dset
    ∧ assoc "tas" (ds_vars dset) = Some out
    ∧ buf (dv_data out) !! 1 = Some nan
    ∧ buf (dv_data out) !! 3 = Some nan.
Proof.
  edestruct (regridding_zero_weight_nan (H := sample_collaborators))
    with (data := dd_sample) (data_name := "m1")
         (var := "tas") (target_grid := grid_of ds_obs) (method := "bilinear")
         (i := 1) (t := 0)
    as (out & Hv & H0).
  - vm_compute; reflexivity.
  - vm_compute; reflexivity.
  - vm_compute; reflexivity.
  - vm_compute; reflexivity.
  - vm_compute; reflexivity.
  - vm_compute; reflexivity.
  - split; [reflexivity|]. repeat constructor; simpl; lia.
  - vm_compute; reflexivity.
  - vm_compute; reflexivity.
  - lia.
  - eexists _, out. split; [reflexivity|]. split; [exact Hv|]. split; [exact H0|].
    vm_compute in Hv. injection Hv as <-. vm_compute. reflexivity.
Defined.


(** C8 (witness): model [m1] has data and model [m2] has none; the
    statistics of [m1] are computed and [m2] has no entry. *)
Lemma calc_stats_skips_missing_witness :
  ∃ st_data st_v r,
    calc_stats (H := sample_collaborators) ddict_sample vv_sample "seasonal cycle" true
      "space" stats_config_sample ["R1"] = Some st_data
    ∧ st_data !! "tas" = Some st_v
    ∧ st_v !! "m2" = None
    ∧ st_v !! "m1" = Some r.
Proof.
  destruct (calc_stats_skips_missing (H := sample_collaborators) ddict_sample vv_sample
              "seasonal cycle" true "space" stats_config_sample ["R1"])
    as (st_data & Hst & Hall).
  - intros v f Hv. unfold vv_sample in Hv.
    apply lookup_singleton_Some in Hv as [<- <-]. exists parts_sample.
    split; [vm_compute; reflexivity|]. intros m e Hm. unfold parts_sample in Hm.
    apply lookup_insert_Some in Hm as [[<- [= <-]]|[_ Hm]].
    + vm_compute. eauto.
    + by apply lookup_singleton_Some in Hm as [_ ?].
  - destruct (Hall "tas" "day") as (parts & st_v & Hp & Hsv & Hm); [reflexivity|].
    assert (Some parts = Some parts_sample) as [= ->]
      by (rewrite <- Hp; vm_compute; reflexivity).
    destruct (Hm "m1") as [_ H1]. destruct (Hm "m2") as [H2 _].
    destruct (H1 entry_m1) as (r & _ & Hr); [reflexivity|].
    exists st_data, st_v, r. split; [exact Hst|]. split; [exact Hsv|].
    split; [|exact Hr]. apply H2. reflexivity.
Defined.

(** C6 (witness): with [pool] the data are masked and then the statistic
    is taken; without it the domain statistic is masked. *)
Lemma calc_stats_regions_witness :
  (∃ st_data res st_mdata st_r,
     calc_stats (H := sample_collaborators) ddict_sample vv_sample "seasonal cycle" true
       "space" stats_config_sample ["R1"] = Some st_data
     ∧ st_data !! "tas" ≫= (.!! "m1") = Some res
     ∧ st_regions res = Some st_mdata
     ∧ st_mdata !! "R1" = Some st_r
     ∧ ds_attrs st_r
       = [("domain", "EUR-11"); ("masked", "R1"); ("statistic", "seasonal cycle")])
  ∧ (∃ st_data res st_mdata st_r,
       calc_stats (H := sample_collaborators) ddict_sample vv_sample "seasonal cycle" false
         "space" stats_config_sample ["R1"] = Some st_data
       ∧ st_data !! "tas" ≫= (.!! "m1") = Some res
       ∧ st_regions res = Some st_mdata
       ∧ st_mdata !! "R1" = Some st_r
       ∧ ds_attrs st_r
         = [("domain", "EUR-11"); ("statistic", "seasonal cycle"); ("masked", "R1")]).
Proof.
  split.
  - destruct (calc_stats (H := sample_collaborators) ddict_sample vv_sample
                "seasonal cycle" true "space" stats_config_sample ["R1"])
      as [st_data|] eqn:Hc; [|vm_compute in Hc; discriminate].
    destruct (calc_stats_regions (H := sample_collaborators) ddict_sample vv_sample
                "seasonal cycle" true "space" stats_config_sample ["R1"] st_data
                "tas" "day" "m1" parts_sample entry_m1 "R1" Hc)
      as (data & domain & mask & res & st_mdata & st_r
          & Hdata & Hdom & Hmask & Hres & _ & Hregs & Hr & Hpool & _).
    + reflexivity.
    + vm_compute; reflexivity.
    + reflexivity.
    + by left.
    + exists st_data, res, st_mdata, st_r. split; [reflexivity|].
      split; [exact Hres|]. split; [exact Hregs|]. split; [exact Hr|].
      destruct (Hpool eq_refl) as (mdata & Hmd & Hst).
      vm_compute in Hdata. injection Hdata as <-.
      vm_compute in Hmask. injection Hmask as <-.
      vm_compute in Hmd. injection Hmd as <-.
      vm_compute in Hst. injection Hst as <-. reflexivity.
  - destruct (calc_stats (H := sample_collaborators) ddict_sample vv_sample
                "seasonal cycle" false "space" stats_config_sample ["R1"])
      as [st_data|] eqn:Hc; [|vm_compute in Hc; discriminate].
    destruct (calc_stats_regions (H := sample_collaborators) ddict_sample vv_sample
                "seasonal cycle" false "space" stats_config_sample ["R1"] st_data
                "tas" "day" "m1" parts_sample entry_m1 "R1" Hc)
      as (data & domain & mask & res & st_mdata & st_r
          & Hdata & Hdom & Hmask & Hres & _ & Hregs & Hr & _ & Hfast).
    + reflexivity.
    + vm_compute; reflexivity.
    + reflexivity.
    + by left.
    + exists st_data, res, st_mdata, st_r. split; [reflexivity|].
      split; [exact Hres|]. split; [exact Hregs|]. split; [exact Hr|].
      specialize (Hfast eq_refl).
      vm_compute in Hdata. injection Hdata as <-.
      vm_compute in Hdom. injection Hdom as <-.
      vm_compute in Hmask. injection Hmask as <-.
      vm_compute in Hfast. injection Hfast as <-. reflexivity.
Defined.

(** ** [get_month_string] *)

Lemma month_letters_is_Some (m : Z) :
  is_Some (month_letters !! m) ↔ (1 ≤ m ≤ 12)%Z.
Proof.
  split.
  - intros [s Hs]. destruct (decide (1 ≤ m ≤ 12)%Z) as [|Hm]; [done|].
    exfalso. unfold month_letters in Hs.
    rewrite not_elem_of_list_to_map_1 in Hs; [done|].
    cbn [fmap list_fmap fst]. rewrite !elem_of_cons, elem_of_nil. lia.
  - intros Hm.
    assert (m = 1 ∨ m = 2 ∨ m = 3 ∨ m = 4 ∨ m = 5 ∨ m = 6 ∨ m = 7 ∨ m = 8 ∨ m = 9
            ∨ m = 10 ∨ m = 11 ∨ m = 12)%Z as Hc by lia.
    repeat (destruct Hc as [->|Hc]; [by eexists|]). subst m. by eexists.
Qed.

Lemma month_letters_char (m : Z) (s : string) :
  month_letters !! m = Some s → ∃ c, s = String c "".
Proof.
  intros Hs. assert (Hm : (1 ≤ m ≤ 12)%Z) by (apply month_letters_is_Some; eauto).
  assert (m = 1 ∨ m = 2 ∨ m = 3 ∨ m = 4 ∨ m = 5 ∨ m = 6 ∨ m = 7 ∨ m = 8 ∨ m = 9
          ∨ m = 10 ∨ m = 11 ∨ m = 12)%Z as Hc by lia.
  repeat (destruct Hc as [->|Hc]; [vm_compute in Hs; injection Hs as <-; eauto|]).
  subst m. vm_compute in Hs. injection Hs as <-. eauto.
Qed.

(** Joining one-character strings: one character per string, in
    order. *)
Lemma concat_chars (letters : list string) (cs : list Ascii.ascii) :
  letters = (λ c, String c "") <$> cs →
  String.length (String.concat "" letters) = length cs
  ∧ ∀ i, String.get i (String.concat "" letters) = cs !! i.
Proof.
  intros ->. induction cs as [|c cs [IHl IHg]]; [split; [done|by intros []]|].
  destruct cs as [|c' cs]; [split; [done|by intros [|[]]]|].
  change (String.concat "" ((λ c, String c "") <$> c :: c' :: cs))
    with (String c (String.concat "" ((λ c, String c "") <$> c' :: cs))).
  split; [simpl in *; by rewrite IHl|]. intros [|i]; [done|]. apply IHg.
Qed.

(** X1: [get_month_string] returns exactly when the sequence holds
    twelve months, whatever they are, or every month is one of 1 to 12;
    any other month in a sequence that is not twelve long is a
    [KeyError]. *)
Theorem get_month_string_is_Some (mlist : pyseq) :
  is_Some (get_month_string mlist)
  ↔ length (py_items mlist) = 12 ∨ Forall (λ m, (1 ≤ m ≤ 12)%Z) (py_items mlist).
Proof.
  unfold get_month_string. case_decide as Hlen; [by intuition eauto|].
  assert (Hmap : ∀ l, is_Some (mapM (λ m, month_letters !! m) l)
                      ↔ Forall (λ m, (1 ≤ m ≤ 12)%Z) l).
  { intros l. rewrite mapM_is_Some. apply Forall_iff. intros m.
    apply month_letters_is_Some. }
  rewrite <- Hmap. case_decide as Hw.
  - subst mlist. split.
    + intros _. right. exists ["J"; "F"; "D"]. by vm_compute.
    + intros _. exists "DJF". by vm_compute.
  - split.
    + intros [s Hs]. apply bind_Some in Hs as (letters & Hl & _). right. eauto.
    + intros [?|[letters Hl]]; [done|]. rewrite Hl. by eexists.
Qed.

(** X2: for a sequence that is not twelve long and is not the tuple
    [(1, 2, 12)], the string has one character per month, the initial
    of that month, in the order given.  The tuple [(1, 2, 12)] is
    reordered to December, January, February; the list [[1, 2, 12]] is
    not. *)
Theorem get_month_string_initials (mlist : pyseq) (s : string) :
  length (py_items mlist) ≠ 12 →
  mlist ≠ py_tuple [1; 2; 12]%Z →
  get_month_string mlist = Some s →
  String.length s = length (py_items mlist)
  ∧ (∀ i m, py_items mlist !! i = Some m →
       ∃ c, month_letters !! m = Some (String c "") ∧ String.get i s = Some c)
  ∧ get_month_string (py_tuple [1; 2; 12]%Z) = Some "DJF"
  ∧ get_month_string (py_list [1; 2; 12]%Z) = Some "JFD".
Proof.
  intros Hlen Hw. unfold get_month_string at 1.
  rewrite decide_False by done. rewrite decide_False by done.
  intros (letters & Hl & [= <-])%bind_Some.
  apply mapM_Some in Hl.
  assert (Hcs : ∃ cs, letters = (λ c, String c "") <$> cs
                      ∧ Forall2 (λ m c, month_letters !! m = Some (String c "")) (py_items mlist) cs).
  { clear -Hl. induction Hl as [|m l ms ls Hm _ (cs & -> & IH)]; [by exists []|].
    destruct (month_letters_char _ _ Hm) as [c ->]. exists (c :: cs). split; [done|].
    by constructor. }
  destruct Hcs as (cs & Hcs & Hall).
  destruct (concat_chars letters cs Hcs) as [Hlen' Hget].
  split_and!; [|..|done|done].
  - rewrite Hlen'. symmetry. by eapply Forall2_length.
  - intros i m Hm. destruct (Forall2_lookup_l _ _ _ _ _ Hall Hm) as (c & Hc & Hmc).
    exists c. by rewrite Hget.
Qed.

(** X2 (witness): June, July, August. *)
Lemma get_month_string_initials_witness :
  String.length "JJA" = 3
  ∧ ∃ c, month_letters !! 8%Z = Some (String c "") ∧ String.get 2 "JJA" = Some c.
Proof.
  destruct (get_month_string_initials (py_tuple [6; 7; 8]%Z) "JJA")
    as (Hl & Hi & _); [by vm_compute|done|by vm_compute|].
  split; [exact Hl|]. exact (Hi 2 8%Z eq_refl).
Defined.

(** ** Python indices and slices *)

Lemma py_index_is_Some (n : nat) (i : Z) :
  is_Some (py_index n i) ↔ (- Z.of_nat n ≤ i < Z.of_nat n)%Z.
Proof.
  unfold py_index. repeat case_decide; split; intros; try lia; try done; eauto.
Qed.

Lemma py_index_nat (n i : nat) : i < n → py_index n (Z.of_nat i) = Some i.
Proof.
  intros. unfold py_index. rewrite decide_True by lia. by rewrite Nat2Z.id.
Qed.

Lemma py_index_neg (n i : nat) : 1 ≤ i ≤ n → py_index n (- Z.of_nat i) = Some (n - i).
Proof.
  intros. unfold py_index. rewrite decide_False by lia. rewrite decide_True by lia.
  f_equal. lia.
Qed.

Lemma py_index_lt (n : nat) (i : Z) (k : nat) : py_index n i = Some k → k < n.
Proof. unfold py_index. repeat case_decide; intros; simplify_eq; lia. Qed.

Lemma py_slice_lt (n : nat) (start stop : Z) (k : nat) : k ∈ py_slice n start stop → k < n.
Proof.
  unfold py_slice, py_slice_bound. rewrite elem_of_seq. repeat case_decide; lia.
Qed.

(** The slice [x:-x] drops [x] positions at either end. *)
Lemma py_slice_inner (n x : nat) :
  1 ≤ x → py_slice n (Z.of_nat x) (- Z.of_nat x) = seq (x `min` n) (n - 2 * x).
Proof.
  intros. unfold py_slice, py_slice_bound.
  rewrite decide_False by lia. rewrite decide_True by lia. f_equal; lia.
Qed.

(** ** Elements of a two-dimensional array *)

Lemma cell_is_Some (a : ndarray) (H W i j : nat) :
  is_2d a H W → i < H → j < W → is_Some (cell a (i, j)).
Proof.
  intros [Hs Hl] Hi Hj. unfold cell. rewrite Hs. simpl.
  rewrite decide_True by done. apply lookup_lt_is_Some. nia.
Qed.

Lemma cell_buf (a : ndarray) (H W i j : nat) :
  is_2d a H W → i < H → j < W →
  buf a !! (i * W + j) = Some (default 0%float (cell a (i, j))).
Proof.
  intros Ha Hi Hj. destruct (cell_is_Some a H W i j Ha Hi Hj) as [v Hv].
  rewrite Hv. simpl. revert Hv. destruct Ha as [Hs _]. unfold cell. rewrite Hs. simpl.
  by rewrite decide_True.
Qed.

Lemma np_item_cell (a : ndarray) (H W : nat) (i j : Z) (i' j' : nat) :
  is_2d a H W → py_index H i = Some i' → py_index W j = Some j' →
  np_item a i j = cell a (i', j').
Proof.
  intros [Hs Hl] Hi Hj. unfold np_item, cell. rewrite Hs, Hi. simpl. rewrite Hj. simpl.
  rewrite decide_True; [done|]. split; by eapply py_index_lt.
Qed.

Lemma np_item_is_Some (a : ndarray) (H W : nat) (i j : Z) :
  is_2d a H W → is_Some (np_item a i j) ↔ is_Some (py_index H i) ∧ is_Some (py_index W j).
Proof.
  intros Ha. split.
  - destruct Ha as [Hs _]. unfold np_item. rewrite Hs. intros [v Hv].
    apply bind_Some in Hv as (i' & Hi & Hv). apply bind_Some in Hv as (j' & Hj & _).
    eauto.
  - intros [[i' Hi] [j' Hj]]. rewrite (np_item_cell a H W i j i' j') by done.
    eapply cell_is_Some; [done|by eapply py_index_lt..].
Qed.

Lemma np_row_slice_cells (a : ndarray) (H W : nat) (i start stop : Z) (i' : nat) :
  is_2d a H W → py_index H i = Some i' →
  np_row_slice a i start stop
  = Some ((λ j, default 0%float (cell a (i', j))) <$> py_slice W start stop).
Proof.
  intros Ha Hi. pose proof Ha as [Hs _]. unfold np_row_slice. rewrite Hs, Hi. simpl.
  apply mapM_Some_fmap. intros j Hj%py_slice_lt.
  apply (cell_buf a H W); [done| |done]. by eapply py_index_lt.
Qed.

Lemma np_col_slice_cells (a : ndarray) (H W : nat) (start stop j : Z) (j' : nat) :
  is_2d a H W → py_index W j = Some j' →
  np_col_slice a start stop j
  = Some ((λ i, default 0%float (cell a (i, j'))) <$> py_slice H start stop).
Proof.
  intros Ha Hj. pose proof Ha as [Hs _]. unfold np_col_slice. rewrite Hs, Hj. simpl.
  apply mapM_Some_fmap. intros i Hi%py_slice_lt.
  apply (cell_buf a H W); [done|done|]. by eapply py_index_lt.
Qed.

Lemma np_row_slice_index (a : ndarray) (H W : nat) (i start stop : Z) :
  is_2d a H W → is_Some (np_row_slice a i start stop) → is_Some (py_index H i).
Proof.
  intros [Hs _] [l Hl]. unfold np_row_slice in Hl. rewrite Hs in Hl.
  apply bind_Some in Hl as (i' & Hi & _). eauto.
Qed.

Lemma np_col_slice_index (a : ndarray) (H W : nat) (start stop j : Z) :
  is_2d a H W → is_Some (np_col_slice a start stop j) → is_Some (py_index W j).
Proof.
  intros [Hs _] [l Hl]. unfold np_col_slice in Hl. rewrite Hs in Hl.
  apply bind_Some in Hl as (j' & Hj & _). eauto.
Qed.

(** ** Once around the rectangle *)

Lemma reverse_fmap_seq {A} (g : nat → A) (lo n : nat) :
  reverse (g <$> seq lo n) = (λ k, g (lo + n - 1 - k)) <$> seq 0 n.
Proof.
  apply list_eq. intros k. destruct (decide (k < n)) as [Hk|Hk].
  - rewrite reverse_lookup by (rewrite length_fmap, length_seq; lia).
    rewrite length_fmap, length_seq, !list_lookup_fmap.
    rewrite !lookup_seq_lt by lia. simpl. do 2 f_equal. lia.
  - rewrite !lookup_ge_None_2; [done|..].
    + rewrite length_fmap, length_seq. lia.
    + rewrite length_reverse, length_fmap, length_seq. lia.
Qed.

Lemma drop_1_fmap_seq {A} (g : nat → A) (lo n : nat) :
  drop 1 (g <$> seq lo n) = (λ k, g (lo + 1 + k)) <$> seq 0 (n - 1).
Proof.
  apply list_eq. intros k. rewrite lookup_drop, !list_lookup_fmap.
  destruct (decide (k < n - 1)) as [Hk|Hk].
  - rewrite !lookup_seq_lt by lia. simpl. do 2 f_equal. lia.
  - rewrite !lookup_seq_ge by lia. done.
Qed.

Lemma fmap_seq_app {A} (g : nat → A) (n m : nat) :
  g <$> seq 0 (n + m) = (g <$> seq 0 n) ++ ((λ k, g (n + k)) <$> seq 0 m).
Proof.
  rewrite seq_app, fmap_app. f_equal. simpl.
  replace (seq n m) with (Nat.add n <$> seq 0 m)
    by (rewrite fmap_add_seq; f_equal; lia).
  by rewrite <- list_fmap_compose.
Qed.

Lemma fmap_seq_ext {A} (g1 g2 : nat → A) (lo n : nat) :
  (∀ k, lo ≤ k < lo + n → g1 k = g2 k) → g1 <$> seq lo n = g2 <$> seq lo n.
Proof.
  intros Hg. apply Forall_fmap_ext_1, Forall_seq. intros k Hk. by apply Hg.
Qed.

Lemma fmap_seq_shift {A} (g : nat → A) (lo n : nat) :
  g <$> seq lo n = (λ k, g (lo + k)) <$> seq 0 n.
Proof.
  replace (seq lo n) with (Nat.add lo <$> seq 0 n)
    by (rewrite fmap_add_seq; f_equal; lia).
  by rewrite <- list_fmap_compose.
Qed.

(** The values that [around] gathers are those of the cells of the
    ring, in order. *)
Lemma around_spec (a : ndarray) (H W x : nat) :
  is_2d a H W → 1 ≤ x → 2 * x < H → 2 * x < W →
  around a (Z.of_nat x)
  = Some ((λ k, default 0%float (cell a (ring_cell x H W k))) <$> seq 0 (ring_length x H W)).
Proof.
  intros Ha Hx HH HW. unfold around.
  replace (-1 - Z.of_nat x)%Z with (- Z.of_nat (x + 1))%Z by lia.
  rewrite (np_row_slice_cells a H W (Z.of_nat x) _ _ x)
    by (done || (apply py_index_nat; lia)).
  csimpl.
  rewrite (np_col_slice_cells a H W _ _ (- Z.of_nat (x + 1)) (W - (x + 1)))
    by (done || (apply py_index_neg; lia)).
  csimpl.
  rewrite (np_row_slice_cells a H W (- Z.of_nat (x + 1)) _ _ (H - (x + 1)))
    by (done || (apply py_index_neg; lia)).
  csimpl.
  rewrite (np_col_slice_cells a H W _ _ (Z.of_nat x) x)
    by (done || (apply py_index_nat; lia)).
  csimpl. f_equal.
  rewrite !py_slice_inner by done.
  rewrite !Nat.min_l by lia.
  set (w := W - 2 * x). set (h := H - 2 * x).
  rewrite !reverse_fmap_seq, !drop_1_fmap_seq.
  rewrite (fmap_seq_shift _ x w).
  unfold ring_length. fold w h.
  replace (2 * w + 2 * h - 3) with (w + ((h - 1) + ((w - 1) + (h - 1)))) by lia.
  rewrite !fmap_seq_app.
  assert (Hcell : ∀ i j i' j', i = i' → j = j' →
            default 0%float (cell a (i, j)) = default 0%float (cell a (i', j')))
    by (by intros ? ? ? ? -> ->).
  apply (f_equal2 app); [|apply (f_equal2 app); [|apply (f_equal2 app)]];
    apply fmap_seq_ext; intros k Hk; unfold ring_cell; fold w h;
    repeat case_decide; try lia; apply Hcell; lia.
Qed.

Lemma ring_cell_bounds (x H W k : nat) :
  1 ≤ x → 2 * x < H → 2 * x < W → k < ring_length x H W →
  let '(i, j) := ring_cell x H W k in
  x ≤ i ≤ H - 1 - x ∧ x ≤ j ≤ W - 1 - x
  ∧ (i = x ∨ i = H - 1 - x ∨ j = x ∨ j = W - 1 - x).
Proof.
  unfold ring_length, ring_cell. intros. repeat case_decide; lia.
Qed.

(** X4: on a grid of [H] rows and [W] columns with more than [2 x]
    of each, [_domain] returns the points of the rectangle that lies
    [x] points inside the grid, once around from the corner [(x, x)]:
    [2 (W - 2x) + 2 (H - 2x) - 3] pairs of longitude and latitude, each
    read at a cell on the edge of that rectangle, the last one at the
    corner where the first one was read. *)
Theorem domain_once_around (lats lons : ndarray) (H W x : nat) :
  is_2d lats H W → is_2d lons H W →
  1 ≤ x → 2 * x < H → 2 * x < W →
  ∃ pts,
    _domain lats lons (Z.of_nat x) = Some pts
    ∧ length pts = ring_length x H W
    ∧ (∀ k, k < ring_length x H W →
         ∃ lo la, pts !! k = Some (lo, la)
                  ∧ cell lons (ring_cell x H W k) = Some lo
                  ∧ cell lats (ring_cell x H W k) = Some la
                  ∧ x ≤ (ring_cell x H W k).1 ≤ H - 1 - x
                  ∧ x ≤ (ring_cell x H W k).2 ≤ W - 1 - x
                  ∧ ((ring_cell x H W k).1 = x ∨ (ring_cell x H W k).1 = H - 1 - x
                     ∨ (ring_cell x H W k).2 = x ∨ (ring_cell x H W k).2 = W - 1 - x))
    ∧ ring_cell x H W 0 = (x, x)
    ∧ ring_cell x H W (ring_length x H W - 1) = (x, x).
Proof.
  intros Hlat Hlon Hx HH HW. unfold _domain.
  rewrite (around_spec lons H W x), (around_spec lats H W x) by done.
  set (flon := λ k, default 0%float (cell lons (ring_cell x H W k))).
  set (flat := λ k, default 0%float (cell lats (ring_cell x H W k))).
  exists (zip (flon <$> seq 0 (ring_length x H W)) (flat <$> seq 0 (ring_length x H W))).
  split; [reflexivity|]. split_and!.
  - rewrite length_zip_with, !length_fmap, length_seq. lia.
  - intros k Hk. pose proof (ring_cell_bounds x H W k Hx HH HW Hk) as Hb.
    assert (Hz : zip (flon <$> seq 0 (ring_length x H W))
                     (flat <$> seq 0 (ring_length x H W)) !! k
                 = Some (flon k, flat k)).
    { rewrite lookup_zip_with, !list_lookup_fmap, lookup_seq_lt by done.
      reflexivity. }
    rewrite Hz. subst flon flat. cbn beta.
    destruct (ring_cell x H W k) as [i j].
    destruct (cell_is_Some lons H W i j) as [lo Hlo]; [exact Hlon|lia..|].
    destruct (cell_is_Some lats H W i j) as [la Hla]; [exact Hlat|lia..|].
    exists lo, la. rewrite Hlo, Hla. cbn [default fst snd].
    split; [reflexivity|]. split; [reflexivity|]. split; [reflexivity|]. lia.
  - unfold ring_cell. rewrite decide_True by lia. f_equal. lia.
  - unfold ring_cell, ring_length. repeat case_decide; f_equal; lia.
Qed.

(** ** [get_grid_coords] *)

Lemma around_is_Some (a : ndarray) (H W : nat) (x : Z) :
  is_2d a H W →
  is_Some (around a x)
  ↔ is_Some (py_index H x) ∧ is_Some (py_index W (-1 - x))
    ∧ is_Some (py_index H (-1 - x)) ∧ is_Some (py_index W x).
Proof.
  intros Ha. unfold around. split.
  - intros [l Hl].
    apply bind_Some in Hl as (s1 & H1 & Hl). apply bind_Some in Hl as (s2 & H2 & Hl).
    apply bind_Some in Hl as (s3 & H3 & Hl). apply bind_Some in Hl as (s4 & H4 & _).
    split_and!.
    + apply (np_row_slice_index a H W x x (- x)); eauto.
    + apply (np_col_slice_index a H W x (- x) (-1 - x)); eauto.
    + apply (np_row_slice_index a H W (-1 - x) x (- x)); eauto.
    + apply (np_col_slice_index a H W x (- x) x); eauto.
  - intros ([i1 H1] & [j2 H2] & [i3 H3] & [j4 H4]).
    rewrite (np_row_slice_cells a H W x _ _ i1) by done. csimpl.
    rewrite (np_col_slice_cells a H W _ _ (-1 - x) j2) by done. csimpl.
    rewrite (np_row_slice_cells a H W (-1 - x) _ _ i3) by done. csimpl.
    rewrite (np_col_slice_cells a H W _ _ x j4) by done. csimpl. eauto.
Qed.

(** X3: on a model grid of [H] rows and [W] columns that carries the
    two projection attributes, [get_grid_coords] returns exactly when
    the grid has at least 16 rows and 16 columns; a smaller grid is an
    [IndexError], as the corners and the domain are read 15 points
    inside the grid. *)
Theorem get_grid_coords_is_Some (nc : Dataset) (grid_coords : gmap string gc_value)
    (lc : DataVar) (H W : nat) :
  assoc "Lambert_Conformal" (ds_vars nc) = Some lc →
  is_Some (assoc "latitude_of_projection_origin" (dv_attrs lc)) →
  is_Some (assoc "longitude_of_central_meridian" (dv_attrs lc)) →
  is_2d (c_values (ds_lat nc)) H W →
  is_2d (c_values (ds_lon nc)) H W →
  is_Some (get_grid_coords nc grid_coords) ↔ 16 ≤ H ∧ 16 ≤ W.
Proof.
  intros Hlc [lat_0 Hlat0] [lon_0 Hlon0] Hlat Hlon. unfold get_grid_coords.
  rewrite Hlc. simpl. rewrite Hlat0. simpl. rewrite Hlon0. simpl.
  unfold _domain, gp_bfr. change (Z.opp 15) with (Z.neg 15).
  pose proof (np_item_is_Some _ H W 15 15 Hlat) as I0.
  pose proof (np_item_is_Some _ H W 15 15 Hlon) as I1.
  pose proof (np_item_is_Some _ H W (-15) (-15) Hlat) as I2.
  pose proof (np_item_is_Some _ H W (-15) (-15) Hlon) as I3.
  pose proof (around_is_Some _ H W 15 Hlon) as A1.
  pose proof (around_is_Some _ H W 15 Hlat) as A2.
  rewrite !py_index_is_Some in I0, I1, I2, I3.
  split.
  - intros [r Hr].
    apply bind_Some in Hr as (c0 & Hc0 & Hr). apply bind_Some in Hr as (c1 & Hc1 & Hr).
    apply bind_Some in Hr as (c2 & Hc2 & Hr). apply bind_Some in Hr as (c3 & Hc3 & Hr).
    apply bind_Some in Hr as (dom & Hdom & Hr).
    apply bind_Some in Hdom as (lons_p & Hlo & Hdom).
    assert (is_Some (around (c_values (ds_lon nc)) 15)) as HA by eauto.
    apply A1 in HA. rewrite !py_index_is_Some in HA. lia.
  - intros [HH HW].
    destruct (proj2 I0) as [c0 ->]; [lia|]. simpl.
    destruct (proj2 I1) as [c1 ->]; [lia|]. simpl.
    destruct (proj2 I2) as [c2 ->]; [lia|]. simpl.
    destruct (proj2 I3) as [c3 ->]; [lia|]. simpl.
    destruct (proj2 A1) as [lons_p ->]; [rewrite !py_index_is_Some; lia|]. simpl.
    destruct (proj2 A2) as [lats_p ->]; [rewrite !py_index_is_Some; lia|]. simpl. eauto.
Qed.

(** X5: what [get_grid_coords] leaves in the dictionary: the two
    projection attributes, the four corner values and the domain; every
    other key keeps its value.  The first corner is read at the cell
    [(15, 15)], where the domain starts; the second corner is read at
    [(H - 15, W - 15)], one row and one column beyond the rectangle of
    the domain, whose cells lie in rows 15 to [H - 16] and columns 15
    to [W - 16]. *)
Theorem get_grid_coords_corners (nc : Dataset) (grid_coords gc' : gmap string gc_value)
    (H W : nat) :
  is_2d (c_values (ds_lat nc)) H W →
  is_2d (c_values (ds_lon nc)) H W →
  get_grid_coords nc grid_coords = Some gc' →
  ∃ lc lat_0 lon_0 c0 c1 c2 c3 pts,
    assoc "Lambert_Conformal" (ds_vars nc) = Some lc
    ∧ assoc "latitude_of_projection_origin" (dv_attrs lc) = Some lat_0
    ∧ assoc "longitude_of_central_meridian" (dv_attrs lc) = Some lon_0
    ∧ gc' !! "lat_0" = Some (gc_attr lat_0)
    ∧ gc' !! "lon_0" = Some (gc_attr lon_0)
    ∧ gc' !! "crnrs" = Some (gc_floats [c0; c1; c2; c3])
    ∧ cell (c_values (ds_lat nc)) (15, 15) = Some c0
    ∧ cell (c_values (ds_lon nc)) (15, 15) = Some c1
    ∧ cell (c_values (ds_lat nc)) (H - 15, W - 15) = Some c2
    ∧ cell (c_values (ds_lon nc)) (H - 15, W - 15) = Some c3
    ∧ gc' !! "domain" = Some (gc_points pts)
    ∧ _domain (c_values (ds_lat nc)) (c_values (ds_lon nc)) 15 = Some pts
    ∧ (∀ key, key ∉ ["lat_0"; "lon_0"; "crnrs"; "domain"] →
         gc' !! key = grid_coords !! key)
    ∧ (31 ≤ H → 31 ≤ W → ∀ k, k < ring_length 15 H W →
         ring_cell 15 H W k ≠ (H - 15, W - 15)
         ∧ 15 ≤ (ring_cell 15 H W k).1 ≤ H - 16
         ∧ 15 ≤ (ring_cell 15 H W k).2 ≤ W - 16).
Proof.
  intros Hlat Hlon. unfold get_grid_coords, gp_bfr. change (Z.opp 15) with (Z.neg 15).
  intros (lc & Hlc & Hr)%bind_Some.
  apply bind_Some in Hr as (lat_0 & Hlat0 & Hr).
  apply bind_Some in Hr as (lon_0 & Hlon0 & Hr).
  apply bind_Some in Hr as (c0 & Hc0 & Hr). apply bind_Some in Hr as (c1 & Hc1 & Hr).
  apply bind_Some in Hr as (c2 & Hc2 & Hr). apply bind_Some in Hr as (c3 & Hc3 & Hr).
  apply bind_Some in Hr as (pts & Hpts & [= <-]).
  assert (HHW : 16 ≤ H ∧ 16 ≤ W).
  { assert (is_Some (np_item (c_values (ds_lat nc)) 15 15)) as Hs by eauto.
    apply (np_item_is_Some _ H W) in Hs; [|done].
    rewrite !py_index_is_Some in Hs. lia. }
  rewrite (np_item_cell _ H W 15 15 15 15) in Hc0
    by (done || (apply (py_index_nat _ 15); lia)).
  rewrite (np_item_cell _ H W 15 15 15 15) in Hc1
    by (done || (apply (py_index_nat _ 15); lia)).
  rewrite (np_item_cell _ H W (-15) (-15) (H - 15) (W - 15)) in Hc2
    by (done || (apply (py_index_neg _ 15); lia)).
  rewrite (np_item_cell _ H W (-15) (-15) (H - 15) (W - 15)) in Hc3
    by (done || (apply (py_index_neg _ 15); lia)).
  exists lc, lat_0, lon_0, c0, c1, c2, c3, pts.
  split_and!; try done.
  - by rewrite !lookup_insert_ne, lookup_insert_eq by done.
  - by rewrite !lookup_insert_ne, lookup_insert_eq by done.
  - by rewrite lookup_insert_ne, lookup_insert_eq by done.
  - by rewrite lookup_insert_eq.
  - intros key Hkey. rewrite !not_elem_of_cons in Hkey.
    destruct Hkey as (? & ? & ? & ? & _). by rewrite !lookup_insert_ne.
  - intros HH HW k Hk.
    pose proof (ring_cell_bounds 15 H W k ltac:(lia) ltac:(lia) ltac:(lia) Hk) as Hb.
    destruct (ring_cell 15 H W k) as [i j]. simpl. split; [|lia].
    intros [= -> ->]. lia.
Qed.

(** ** [remap_func]: the other branches *)

Lemma collect_grid_spec (c : Grid → ndarray) (names : list string)
    (dd : gmap string Entry) (acc res : gmap string ndarray) :
  collect_grid c names dd acc = Some res →
  (∀ m, m ∈ names → ∃ e, dd !! m = Some e ∧ res !! m = Some (c (e_grid e)))
  ∧ (∀ m, m ∉ names → res !! m = acc !! m).
Proof.
  revert acc. induction names as [|m0 names IH]; intros acc; simpl.
  { intros [= <-]. split; [by intros ? ?%elem_of_nil|done]. }
  intros (e0 & He0 & Hc)%bind_Some. destruct (IH _ Hc) as [Hin Hout]. split.
  - intros m Hm. destruct (decide (m ∈ names)) as [Hm'|Hm']; [by apply Hin|].
    assert (m = m0) as -> by (by apply elem_of_cons in Hm as [?|?]).
    exists e0. split; [done|]. by rewrite Hout, lookup_insert_eq.
  - intros m [Hne Hm]%not_elem_of_cons. by rewrite Hout, lookup_insert_ne.
Qed.

Lemma collect_grid_is_Some (c : Grid → ndarray) (names : list string)
    (dd : gmap string Entry) (acc : gmap string ndarray) :
  is_Some (collect_grid c names dd acc) ↔ ∀ m, m ∈ names → is_Some (dd !! m).
Proof.
  revert acc. induction names as [|m0 names IH]; intros acc; simpl.
  { split; [by intros _ ? ?%elem_of_nil|eauto]. }
  split.
  - intros [res (e0 & He0 & Hc)%bind_Some] m [->|Hm]%elem_of_cons; [eauto|].
    eapply IH; eauto.
  - intros Hall. destruct (Hall m0) as [e0 ->]; [left|]. simpl.
    apply IH. intros m Hm. apply Hall. by right.
Qed.

Lemma elem_of_omap_id (onames : list (option string)) (o : string) :
  o ∈ omap id onames ↔ Some o ∈ onames.
Proof.
  rewrite list_elem_of_omap. split.
  - intros (x & Hx & Hid). unfold id in Hid. by subst x.
  - intros Ho. by exists (Some o).
Qed.

(** X6: without a regrid target the data are left on their native
    grids.  [remap_func] returns exactly when every model, and every
    observation unless the list of observations holds [None], has an
    entry in the data dictionary; it then returns the dictionary as it
    was, names the grid ['native_grid'] and records longitude and
    latitude of every model and, unless the list of observations holds
    [None], of every observation, and of nothing else. *)
Theorem remap_func_native_grid `{Collaborators} (dd : gmap string Entry) (v : string)
    (vconf : VarConf) (mnames : list string) (onames : list (option string))
    (gdict : Gdict) :
  regrid vconf = None →
  (is_Some (remap_func dd v vconf mnames onames gdict)
   ↔ (∀ m, m ∈ mnames → is_Some (dd !! m))
     ∧ (None ∉ onames → ∀ o, Some o ∈ onames → is_Some (dd !! o)))
  ∧ ∀ dd' gdict',
      remap_func dd v vconf mnames onames gdict = Some (dd', gdict') →
      dd' = dd
      ∧ gd_gridname gdict' = Some "native_grid"
      ∧ ∃ lon lat,
          gd_lon gdict' = Some lon ∧ gd_lat gdict' = Some lat
          ∧ (∀ m, m ∈ mnames →
               ∃ e, dd !! m = Some e
                    ∧ lon !! m = Some (g_lon (e_grid e))
                    ∧ lat !! m = Some (g_lat (e_grid e)))
          ∧ (None ∉ onames → ∀ o, Some o ∈ onames →
               ∃ e, dd !! o = Some e
                    ∧ lon !! o = Some (g_lon (e_grid e))
                    ∧ lat !! o = Some (g_lat (e_grid e)))
          ∧ (∀ nm, nm ∉ mnames → None ∈ onames ∨ Some nm ∉ onames →
               lon !! nm = None ∧ lat !! nm = None).
Proof.
  intros Hre. unfold remap_func. rewrite Hre. split.
  - split.
    + intros [r Hr].
      apply bind_Some in Hr as (lon1 & Hlon1 & Hr).
      apply bind_Some in Hr as (lat1 & Hlat1 & Hr).
      apply bind_Some in Hr as (lon2 & Hlon2 & Hr). split.
      * apply (collect_grid_is_Some g_lon mnames dd ∅). eauto.
      * intros Hnone o Ho. rewrite decide_False in Hlon2 by done.
        apply (collect_grid_is_Some g_lon (omap id onames) dd lon1); [eauto|].
        by apply elem_of_omap_id.
    + intros [Hm Ho].
      destruct (proj2 (collect_grid_is_Some g_lon mnames dd ∅) Hm) as [lon1 ->].
      destruct (proj2 (collect_grid_is_Some g_lat mnames dd ∅) Hm) as [lat1 ->].
      simpl. case_decide as Hnone; simpl; [eauto|].
      assert (Ho' : ∀ o, o ∈ omap id onames → is_Some (dd !! o)).
      { intros o Hin. apply Ho; [done|]. by apply elem_of_omap_id. }
      destruct (proj2 (collect_grid_is_Some g_lon (omap id onames) dd lon1) Ho') as [? ->].
      destruct (proj2 (collect_grid_is_Some g_lat (omap id onames) dd lat1) Ho') as [? ->].
      simpl. eauto.
  - intros dd' gdict' Hr.
    apply bind_Some in Hr as (lon1 & Hlon1 & Hr).
    apply bind_Some in Hr as (lat1 & Hlat1 & Hr).
    apply bind_Some in Hr as (lon2 & Hlon2 & Hr).
    apply bind_Some in Hr as (lat2 & Hlat2 & [= <- <-]).
    split; [done|]. split; [done|]. exists lon2, lat2. simpl.
    split; [done|]. split; [done|].
    destruct (collect_grid_spec _ _ _ _ _ Hlon1) as [Lin Lout].
    destruct (collect_grid_spec _ _ _ _ _ Hlat1) as [Tin Tout].
    case_decide as Hnone.
    + simplify_eq. split_and!.
      * intros m Hm. destruct (Lin m Hm) as (e & He & Hl).
        destruct (Tin m Hm) as (e' & He' & Ht). simplify_eq. eauto.
      * done.
      * intros nm Hnm _. by rewrite Lout, Tout.
    + destruct (collect_grid_spec _ _ _ _ _ Hlon2) as [Lin2 Lout2].
      destruct (collect_grid_spec _ _ _ _ _ Hlat2) as [Tin2 Tout2].
      assert (Hobs : ∀ o, Some o ∈ onames →
                ∃ e, dd !! o = Some e ∧ lon2 !! o = Some (g_lon (e_grid e))
                     ∧ lat2 !! o = Some (g_lat (e_grid e))).
      { intros o Ho%elem_of_omap_id. destruct (Lin2 o Ho) as (e & He & Hl).
        destruct (Tin2 o Ho) as (e' & He' & Ht). simplify_eq. eauto. }
      split_and!.
      * intros m Hm. destruct (decide (Some m ∈ onames)) as [Ho|Ho]; [by apply Hobs|].
        rewrite <- elem_of_omap_id in Ho.
        destruct (Lin m Hm) as (e & He & Hl). destruct (Tin m Hm) as (e' & He' & Ht).
        simplify_eq. exists e. by rewrite Lout2, Tout2.
      * intros _. exact Hobs.
      * intros nm Hnm [?|Ho]; [done|]. rewrite <- elem_of_omap_id in Ho.
        by rewrite Lout2, Tout2, Lout, Tout.
Qed.


(** X8: a regrid target must be a participant, and only its grid is
    recorded.  With a target that is neither an observation nor a
    model [remap_func] raises, as no grid name was set; when it
    returns, the target has an entry in the data dictionary and the grid
    dictionary holds the name of the target's grid and, under the one
    key of the target, its longitudes and latitudes, whatever the
    dictionary held before. *)
Theorem remap_func_target_recorded `{Collaborators} (dd : gmap string Entry)
    (v : string) (vconf : VarConf) (mnames : list string) (onames : list (option string))
    (gdict : Gdict) (t : string) :
  regrid vconf = Some t →
  (Some t ∉ onames → t ∉ mnames → remap_func dd v vconf mnames onames gdict = None)
  ∧ ∀ dd' gdict',
      remap_func dd v vconf mnames onames gdict = Some (dd', gdict') →
      (Some t ∈ onames ∨ t ∈ mnames)
      ∧ ∃ target,
          dd !! t = Some target
          ∧ gdict' = {| gd_lon := Some {[t := g_lon (e_grid target)]};
                        gd_lat := Some {[t := g_lat (e_grid target)]};
                        gd_gridname := Some (e_gridname target) |}.
Proof.
  intros Hre. unfold remap_func. rewrite Hre. split.
  - intros Ho Hm. by rewrite !decide_False by done.
  - intros dd' gdict' Hr. case_decide as Ho; [|case_decide as Hm; [|done]].
    + split; [by left|].
      apply bind_Some in Hr as (target & Ht & Hr).
      apply bind_Some in Hr as (dd1 & _ & Hr).
      apply bind_Some in Hr as (dd2 & _ & [= _ <-]). eauto.
    + split; [by right|].
      apply bind_Some in Hr as (target & Ht & Hr).
      apply bind_Some in Hr as (dd1 & _ & Hr).
      apply bind_Some in Hr as (dd2 & _ & [= _ <-]). eauto.
Qed.

(** ** [_rgr_calc]: sizes and blocks *)

Lemma rgr_calc_is_Some_iff (data : ndarray) (A : sparse) (out_dims : nat * nat)
    (extra : list nat) (Ny_in Nx_in : nat) :
  shape data = extra ++ [Ny_in; Nx_in] →
  is_Some (_rgr_calc data A out_dims)
  ↔ 0 < Ny_in * Nx_in ∧ n_in A = Ny_in * Nx_in
    ∧ (prod_list extra = 0 ∨ n_out A = out_dims.1 * out_dims.2).
Proof.
  intros Hs. unfold _rgr_calc. rewrite Hs, rev_app_distr. simpl.
  unfold reshape_rows, size. rewrite Hs, prod_list_app. simpl.
  replace (prod_list extra * (Ny_in * (Nx_in * 1)))
    with (prod_list extra * (Ny_in * Nx_in)) by lia.
  rewrite length_app. simpl.
  replace (length extra + 2 - 2) with (length extra) by lia.
  rewrite take_app_length.
  destruct out_dims as [Ny_out Nx_out]. simpl.
  case_decide as Hk.
  { split; [by intros [? ?]|lia]. }
  rewrite Nat.Div0.mod_mul, decide_True by done. simpl.
  rewrite Nat.div_mul by done.
  unfold sparse_dot. simpl. case_decide as Hin; simpl.
  - unfold reshape_to. simpl. rewrite prod_list_app. simpl. case_decide as Hout.
    + split; [|eauto]. intros _. split_and!; [lia|done|]. nia.
    + split; [by intros [? ?]|]. intros (_ & _ & Ho). exfalso. apply Hout. nia.
  - split; [by intros [? ?]|]. intros (_ & ? & _). done.
Qed.

(** X9: [_rgr_calc] raises exactly when the sizes do not fit.  For
    data whose last two dimensions are [(Ny_in, Nx_in)] it returns if
    and only if the fields are not empty, the matrix has one column per
    cell of a field and, unless there is no field at all, one row per
    cell of the target shape; the result keeps the leading dimensions
    and ends in the target shape. *)
Theorem rgr_calc_sizes (data : ndarray) (A : sparse) (out_dims : nat * nat)
    (extra : list nat) (Ny_in Nx_in : nat) :
  shape data = extra ++ [Ny_in; Nx_in] →
  (is_Some (_rgr_calc data A out_dims)
   ↔ 0 < Ny_in * Nx_in ∧ n_in A = Ny_in * Nx_in
     ∧ (prod_list extra = 0 ∨ n_out A = out_dims.1 * out_dims.2))
  ∧ ∀ out, _rgr_calc data A out_dims = Some out →
      shape out = extra ++ [out_dims.1; out_dims.2]
      ∧ (sparse_wf A → length (buf out) = prod_list extra * n_out A).
Proof.
  intros Hs. split; [by apply rgr_calc_is_Some_iff|].
  intros out Hout. split.
  - revert Hout. unfold _rgr_calc. rewrite Hs, rev_app_distr. simpl.
    intros (M & _ & Hr)%bind_Some. apply bind_Some in Hr as (Y & _ & Hr).
    destruct out_dims as [Ny_out Nx_out]. unfold reshape_to in Hr.
    case_decide; [|done]. injection Hr as <-. simpl.
    rewrite length_app. simpl.
    replace (length extra + 2 - 2) with (length extra) by lia.
    by rewrite take_app_length.
  - intros HA. pose proof HA as [Hlen _].
    rewrite (rgr_calc_spec _ _ _ _ _ _ _ Hs HA Hout).
    unfold apply_matrix_spec. simpl. rewrite Hs, length_app. simpl.
    replace (length extra + 2 - 2) with (length extra) by lia.
    rewrite take_app_length.
    rewrite length_join.
    assert (Hsum : ∀ rows : list (list float),
              sum_list (length <$> (matvec A <$> rows)) = length rows * n_out A).
    { induction rows as [|r rows IH]; csimpl; [done|].
      unfold matvec at 1. rewrite length_fmap, IH. lia. }
    rewrite Hsum. unfold rows_of. by rewrite length_reshape, length_replicate.
Qed.

(** X10: the regridding of an array is the regridding of its blocks.
    When [_rgr_calc] returns on an array of shape [(T, Ny_in, Nx_in)],
    it returns on each of the slabs that the array is cut in along its
    first dimension, whatever their sizes, and the results laid end to
    end are the result for the whole array. *)
Theorem rgr_calc_blockwise (data : ndarray) (A : sparse) (out_dims : nat * nat)
    (T Ny_in Nx_in : nat) (tchunks : list nat) (blocks : list ndarray) (out : ndarray) :
  shape data = [T; Ny_in; Nx_in] →
  sparse_wf A →
  _rgr_calc data A out_dims = Some out →
  time_slabs tchunks data = Some blocks →
  ∃ outs,
    mapM (λ b, _rgr_calc b A out_dims) blocks = Some outs
    ∧ buf out = mjoin (buf <$> outs)
    ∧ shape <$> outs = (λ tb, [tb; out_dims.1; out_dims.2]) <$> tchunks
    ∧ shape out = [sum_list tchunks; out_dims.1; out_dims.2].
Proof.
  intros Hs HA Hout Hslabs.
  assert (Hsize : is_Some (_rgr_calc data A out_dims)) by eauto.
  apply (rgr_calc_is_Some_iff _ _ _ [T] Ny_in Nx_in Hs) in Hsize as (Hk & Hin & Hno).
  unfold time_slabs in Hslabs. rewrite Hs in Hslabs.
  case_decide as Hsum; [|done]. injection Hslabs as <-.
  assert (Hsome : is_Some (mapM (λ b, _rgr_calc b A out_dims)
            (zip_with (λ tb b, {| shape := tb :: [Ny_in; Nx_in]; buf := b |}) tchunks
               (split_blocks ((λ tb, tb * prod_list [Ny_in; Nx_in]) <$> tchunks)
                  (buf data))))).
  { apply mapM_is_Some, Forall_forall. intros b Hb.
    apply elem_of_lookup_zip_with_1 in Hb as (i & tb & l & -> & Htb & _).
    apply (rgr_calc_is_Some_iff {| shape := [tb; Ny_in; Nx_in]; buf := l |}
             _ _ [tb] Ny_in Nx_in eq_refl).
    split_and!; [done..|]. destruct Hno as [Hz|?]; [|by right]. left.
    simpl in *. assert (T = 0) by lia. subst T.
    assert (tb ≤ sum_list tchunks); [|lia].
    apply list_elem_of_lookup_2, list_elem_of_split in Htb as (l1 & l2 & ->).
    rewrite sum_list_with_app. simpl. lia. }
  destruct Hsome as [outs Houts]. exists outs. split; [done|].
  destruct (mapped_blocks_join A out_dims Ny_in Nx_in tchunks (buf data) outs)
    as [Hbuf Hshape]; [done|done|].
  rewrite (rgr_calc_spec _ _ _ [T] _ _ _ Hs HA Hout).
  unfold apply_matrix_spec. rewrite Hs. simpl. split_and!; [|done|by rewrite Hsum].
  rewrite Hbuf, Hsum. by replace (T * 1) with T by lia.
Qed.

(** ** [manage_chunks]: further properties *)

Lemma uniform_blocks_whole (n : nat) : uniform_blocks n n = Some [n].
Proof.
  unfold uniform_blocks. case_decide as Hn; [by subst|].
  rewrite Nat.div_same, Nat.Div0.mod_same by done.
  by rewrite decide_True.
Qed.

(** Re-chunking looks at the old blocks only for the dimensions that
    the mapping leaves out. *)
Lemma rechunk_dims_ext (mapping : list (string * nat)) (old old' : list (string * list nat))
    (dims : list (string * nat)) :
  (∀ d n, (d, n) ∈ dims → assoc d mapping = None →
     default [n] (assoc d old') = default [n] (assoc d old)) →
  rechunk_dims mapping old' dims = rechunk_dims mapping old dims.
Proof.
  induction dims as [|[d n] dims IH]; intros Hext; simpl; [done|].
  rewrite IH by (intros; apply Hext; [by right|done]).
  destruct (assoc d mapping) eqn:Hd; [done|].
  rewrite (Hext d n); [done|by left|done].
Qed.

Lemma rechunk_dims_idempotent (mapping : list (string * nat)) (old ch : list (string * list nat))
    (dims : list (string * nat)) :
  NoDup dims.*1 →
  rechunk_dims mapping old dims = Some ch →
  rechunk_dims mapping ch dims = Some ch.
Proof.
  intros Hnd Hch. rewrite <- Hch. apply rechunk_dims_ext.
  intros d n Hin Hd. rewrite (rechunk_dims_assoc _ _ _ _ d Hch).
  rewrite (assoc_NoDup _ _ _ Hnd Hin). simpl. by rewrite Hd.
Qed.

Lemma xr_chunk_idempotent (data data' : Dataset) (mapping : list (string * nat)) :
  NoDup (ds_dims data).*1 →
  xr_chunk data mapping = Some data' →
  xr_chunk data' mapping = Some data'.
Proof.
  intros Hnd. unfold xr_chunk. case_decide as Hkeys; [|done].
  destruct (rechunk_dims _ _ _) as [ch|] eqn:Hch; simpl; [|done]. intros [= <-].
  simpl. rewrite decide_True by done.
  by rewrite (rechunk_dims_idempotent _ _ _ _ Hnd Hch).
Qed.

(** X11: [manage_chunks] is idempotent: applied to its own result, in
    the same mode, it returns that result unchanged. *)
Theorem manage_chunks_idempotent (data : Dataset) (chunk_dim : string) (data' : Dataset) :
  NoDup (ds_dims data).*1 →
  manage_chunks data chunk_dim = Some data' →
  manage_chunks data' chunk_dim = Some data'.
Proof.
  intros Hnd Hm.
  assert (Hdims : ds_dims data' = ds_dims data).
  { unfold manage_chunks in Hm. case_decide.
    - repeat (match type of Hm with
              | (?x ≫= _) = Some _ => destruct x eqn:?; simpl in Hm; [|done]
              end).
      apply xr_chunk_content in Hm. by injection Hm.
    - destruct (assoc "time" (ds_chunks data)); simpl in Hm; [|done].
      case_decide; [|by simplify_eq].
      destruct (assoc "time" (ds_dims data)); simpl in Hm; [|done].
      apply xr_chunk_content in Hm. by injection Hm. }
  unfold manage_chunks in *. rewrite Hdims. case_decide as Hmode.
  - repeat (match type of Hm with
            | (?x ≫= _) = Some _ => destruct x eqn:?; simpl in Hm |- *; [|done]
            end).
    by apply (xr_chunk_idempotent data).
  - destruct (assoc "time" (ds_chunks data)) as [tchunks|] eqn:Ht; simpl in Hm; [|done].
    case_decide as Hn; [|simplify_eq; rewrite Ht; simpl; by rewrite decide_False].
    destruct (assoc "time" (ds_dims data)) as [tsize|]; simpl in Hm; [|done].
    pose proof (xr_chunk_idempotent _ _ _ Hnd Hm) as Hidem.
    destruct (assoc "time" (ds_chunks data')) as [tchunks'|] eqn:Ht'; simpl.
    + by case_decide.
    + exfalso. unfold xr_chunk in Hm. case_decide as Hkeys; [|done].
      destruct (rechunk_dims _ _ _) as [ch|] eqn:Hch; simpl in Hm; [|done].
      injection Hm as <-. simpl in Ht'.
      apply Forall_singleton in Hkeys as [n Hn']. simpl in Hn'.
      destruct (assoc_is_Some ch "time") as [bs Hbs]; [|congruence].
      rewrite (rechunk_dims_keys _ _ _ _ Hch).
      apply assoc_elem_of in Hn'. by apply (list_elem_of_fmap_2 fst) in Hn'.
Qed.

Lemma spcdim_disjoint (xd yd : string) :
  xd ∈ spcdim_x → yd ∈ spcdim_y → xd ≠ "time" ∧ yd ≠ "time" ∧ xd ≠ yd.
Proof.
  unfold spcdim_x, spcdim_y. rewrite !elem_of_cons, !elem_of_nil.
  intros [->|[->|[->|[->|[]]]]] [->|[->|[->|[->|[]]]]]; split_and!; intros [=].
Qed.

(** X12: in 'space' mode the first dimension called x, X, lon or rlon
    and the first one called y, Y, lat or rlat are cut in blocks of one
    and the same edge, the time axis becomes a single block, and every
    other dimension keeps its blocks.  A dataset without such an x or y
    dimension is an [IndexError]. *)
Theorem manage_chunks_space (data : Dataset) :
  (filter (λ x, x ∈ spcdim_x) (ds_dims data).*1 = [] → manage_chunks data "space" = None)
  ∧ (filter (λ y, y ∈ spcdim_y) (ds_dims data).*1 = [] → manage_chunks data "space" = None)
  ∧ ∀ data', manage_chunks data "space" = Some data' →
      ∃ xd yd xsize ysize c T,
        head (filter (λ x, x ∈ spcdim_x) (ds_dims data).*1) = Some xd
        ∧ head (filter (λ y, y ∈ spcdim_y) (ds_dims data).*1) = Some yd
        ∧ assoc xd (ds_dims data) = Some xsize
        ∧ assoc yd (ds_dims data) = Some ysize
        ∧ assoc "time" (ds_dims data) = Some T
        ∧ space_chunk_size xsize ysize = Some c
        ∧ assoc "time" (ds_chunks data') = Some [T]
        ∧ assoc xd (ds_chunks data') = uniform_blocks xsize c
        ∧ assoc yd (ds_chunks data') = uniform_blocks ysize c
        ∧ ∀ d n, d ∉ ["time"; xd; yd] → assoc d (ds_dims data) = Some n →
            assoc d (ds_chunks data') = Some (default [n] (assoc d (ds_chunks data))).
Proof.
  unfold manage_chunks. rewrite decide_True by done. split_and!.
  - by intros ->.
  - intros ->. by destruct (head (filter _ _)); simpl.
  - intros data' Hm.
    apply bind_Some in Hm as (xd & Hxd & Hm). apply bind_Some in Hm as (yd & Hyd & Hm).
    apply bind_Some in Hm as (xsize & Hxs & Hm). apply bind_Some in Hm as (ysize & Hys & Hm).
    apply bind_Some in Hm as (c & Hc & Hm). apply bind_Some in Hm as (T & HT & Hm).
    exists xd, yd, xsize, ysize, c, T. split_and!; try done.
    all: assert (Hx : xd ∈ spcdim_x)
      by (apply head_Some_elem_of, list_elem_of_filter in Hxd; tauto).
    all: assert (Hy : yd ∈ spcdim_y)
      by (apply head_Some_elem_of, list_elem_of_filter in Hyd; tauto).
    all: destruct (spcdim_disjoint xd yd Hx Hy) as (Hxt & Hyt & Hxy).
    all: unfold xr_chunk in Hm; case_decide; [|done].
    all: destruct (rechunk_dims _ _ _) as [ch|] eqn:Hch; simpl in Hm; [|done].
    all: injection Hm as <-; simpl.
    + rewrite (rechunk_dims_assoc _ _ _ _ "time" Hch), HT. simpl.
      apply uniform_blocks_whole.
    + rewrite (rechunk_dims_assoc _ _ _ _ xd Hch), Hxs. simpl.
      rewrite decide_False by done. by rewrite decide_True.
    + rewrite (rechunk_dims_assoc _ _ _ _ yd Hch), Hys. simpl.
      rewrite decide_False by done. rewrite decide_False by done. by rewrite decide_True.
    + intros d n Hd Hn. rewrite !not_elem_of_cons in Hd. destruct Hd as (? & ? & ? & _).
      rewrite (rechunk_dims_assoc _ _ _ _ d Hch), Hn. simpl.
      by rewrite !decide_False by done.
Qed.

(** X13: in any mode but 'space', on a dataset whose blocks cover its
    dimensions and are not empty, [manage_chunks] returns exactly when
    the dataset has blocks along 'time'; a dataset that is not cut in
    blocks is a [KeyError]. *)
Theorem manage_chunks_time_is_Some (data : Dataset) (chunk_dim : string) :
  chunk_dim ≠ "space" →
  chunks_cover data →
  Forall (λ kv, Forall (λ b, 0 < b) kv.2) (ds_chunks data) →
  is_Some (manage_chunks data chunk_dim) ↔ is_Some (assoc "time" (ds_chunks data)).
Proof.
  intros Hmode [Hnd Hcov] Hpos. unfold manage_chunks. rewrite decide_False by done.
  destruct (assoc "time" (ds_chunks data)) as [tchunks|] eqn:Ht; simpl;
    [|split; by intros [? ?]].
  split; [eauto|]. intros _. case_decide as Hn; [|eauto].
  apply assoc_elem_of in Ht.
  rewrite Forall_forall in Hcov. specialize (Hcov _ Ht). simpl in Hcov.
  rewrite Forall_forall in Hpos. specialize (Hpos _ Ht). simpl in Hpos.
  rewrite Hcov. simpl.
  pose proof (sum_list_pos_length _ Hpos) as Hlen.
  pose proof (time_chunk_size_bounds (sum_list tchunks)) as (Hlo & Hhi & _).
  unfold xr_chunk. rewrite decide_True.
  - destruct (rechunk_dims_is_Some [("time", time_chunk_size (sum_list tchunks))]
                (ds_chunks data) (ds_dims data)) as [ch ->]; [|simpl; eauto].
    intros d m c _. simpl. case_decide; [|done]. intros [= <-]. lia.
  - apply Forall_singleton. simpl. rewrite Hcov. eauto.
Qed.

(** The chunk edge on every square grid up to 3000 x 3000, evaluated. *)
Lemma square_edges_3000 :
  forallb (λ n, bool_decide (space_chunk_size n n = Some 22)) (seq 1 3000) = true.
Proof. vm_compute. reflexivity. Qed.

Lemma in_seq_from_1 (N n : nat) : 1 ≤ n ≤ N → In n (seq 1 N).
Proof. intros. apply in_seq. lia. Qed.

(** X14: on a square grid the chunk edge of 'space' mode does not
    depend on the size of the grid: it is 22 points for every grid of
    1 x 1 to 3000 x 3000 points. *)
Theorem space_chunk_size_square (n : nat) :
  1 ≤ n ≤ 3000 → space_chunk_size n n = Some 22.
Proof.
  intros Hn. pose proof square_edges_3000 as Hall.
  rewrite forallb_forall in Hall.
  specialize (Hall n (in_seq_from_1 3000 n Hn)).
  by apply bool_decide_eq_true in Hall.
Qed.

(** X14 (witness): a grid of 512 x 512 points. *)
Lemma space_chunk_size_square_witness : space_chunk_size 512 512 = Some 22.
Proof.
  apply space_chunk_size_square.
  split; apply Nat.leb_le; vm_compute; reflexivity.
Defined.

(** ** [regridding]: blocks of the result *)

(** X15: the regridded dataset keeps the time blocks of its input and
    holds every field in one block; its blocks cover its dimensions, it
    holds the regridded variable only and has no attributes of its own.
    With time blocks that are not empty it can be handed to
    [manage_chunks] in any mode but 'space' without an error. *)
Theorem regridding_blocks `{Collaborators} (data : gmap string Entry)
    (data_name var : string) (target_grid : Grid) (method : string) (dset : Dataset)
    (entry : Entry) (dv : DataVar) (T Ny_in Nx_in : nat) (sgrid tgrid : Grid)
    (dim_val : nat * nat) (dim_shape : list string * list string) (A0 : sparse) :
  regridding data data_name var target_grid method = Some dset →
  data !! data_name = Some entry →
  assoc var (ds_vars (e_data entry)) = Some dv →
  shape (dv_data dv) = [T; Ny_in; Nx_in] →
  get_grids (e_data entry) target_grid method = Some (sgrid, tgrid, dim_val, dim_shape) →
  xe_Regridder sgrid tgrid method = Some A0 →
  sparse_wf A0 →
  ∃ tchunks,
    assoc "time" (ds_chunks (e_data entry)) = Some tchunks
    ∧ sum_list tchunks = T
    ∧ assoc "time" (ds_chunks dset) = Some tchunks
    ∧ assoc "y" (ds_chunks dset) = Some [dim_val.1]
    ∧ assoc "x" (ds_chunks dset) = Some [dim_val.2]
    ∧ assoc "time" (ds_dims dset) = Some T
    ∧ assoc "y" (ds_dims dset) = Some dim_val.1
    ∧ assoc "x" (ds_dims dset) = Some dim_val.2
    ∧ chunks_cover dset
    ∧ (ds_vars dset).*1 = [var]
    ∧ ds_attrs dset = []
    ∧ (Forall (λ b, 0 < b) tchunks → ∀ chunk_dim, chunk_dim ≠ "space" →
         is_Some (manage_chunks dset chunk_dim)).
Proof.
  intros Hr He Hv Hs Hg HA Hwf.
  destruct (regridding_inv _ _ _ _ _ _ _ _ _ _ _ _ _ _ _ _ Hr He Hv Hs Hg HA Hwf)
    as (tchunks & Htc & Hsum & ->).
  exists tchunks. simpl.
  assert (Hcov : chunks_cover
            {| ds_dims := [("time", T); ("x", dim_val.2); ("y", dim_val.1)];
               ds_chunks := [("time", tchunks); ("y", [dim_val.1]); ("x", [dim_val.2])];
               ds_time := ds_time (e_data entry);
               ds_lon := {| c_dims := dim_shape.1; c_values := g_lon target_grid |};
               ds_lat := {| c_dims := dim_shape.2; c_values := g_lat target_grid |};
               ds_vars :=
                 [(var, {| dv_dims := ["time"; "y"; "x"];
                           dv_data := apply_matrix_spec (add_matrix_NaNs A0) (dv_data dv)
                                        (Ny_in, Nx_in) dim_val;
                           dv_attrs := ds_attrs (e_data entry) |})];
               ds_attrs := [] |}).
  { split; simpl.
    - repeat constructor; rewrite ?elem_of_cons, ?elem_of_nil; intuition discriminate.
    - repeat constructor; simpl; f_equal; lia. }
  split_and!; try done.
  intros Hpos chunk_dim Hmode. unfold manage_chunks. rewrite decide_False by done.
  simpl. case_decide as Hn; [|eauto]. simpl.
  pose proof (sum_list_pos_length _ Hpos) as Hlen.
  pose proof (time_chunk_size_bounds T) as (Hlo & Hhi & _).
  unfold xr_chunk. rewrite decide_True by (apply Forall_singleton; simpl; eauto).
  destruct (rechunk_dims_is_Some [("time", time_chunk_size T)]
              [("time", tchunks); ("y", [dim_val.1]); ("x", [dim_val.2])]
              [("time", T); ("x", dim_val.2); ("y", dim_val.1)]) as [ch Hch].
  { intros d m c _. simpl. case_decide; [|done]. intros [= <-]. lia. }
  simpl in Hch |- *. rewrite Hch. simpl. eauto.
Qed.

(** ** [np.broadcast_to] and [get_masked_data] *)

Lemma reshape_replicate_length {A} (a p : nat) (l : list A) :
  length l = a * p → Forall (λ blk, length blk = p) (reshape (replicate a p) l).
Proof.
  revert l. induction a as [|a IH]; intros l Hl; simpl; [constructor|].
  constructor.
  - rewrite length_take. lia.
  - apply IH. rewrite length_drop. lia.
Qed.

(** Broadcasting to the shape an array has leaves it as it is. *)
Lemma broadcast_buf_same {B} (shp : list nat) (b : list B) :
  length b = prod_list shp → broadcast_buf shp shp b = Some b.
Proof.
  revert b. induction shp as [|a shp IH]; intros b Hb; simpl; [done|].
  simpl in Hb.
  assert (Hsubs : mapM (broadcast_buf shp shp) (reshape (replicate a (prod_list shp)) b)
                  = Some (reshape (replicate a (prod_list shp)) b)).
  { apply mapM_Some, Forall2_same_length_lookup_2; [done|].
    intros i x y Hx Hy. assert (x = y) as <- by congruence. apply IH.
    pose proof (reshape_replicate_length a (prod_list shp) b Hb) as Hall.
    rewrite Forall_forall in Hall. apply Hall. by eapply list_elem_of_lookup_2. }
  rewrite Hsubs. simpl. rewrite decide_True by done. f_equal.
  apply join_reshape. rewrite sum_list_replicate. lia.
Qed.

Lemma join_replicate_join {B} (n p : nat) (b : list B) :
  mjoin (replicate n (mjoin (replicate p b))) = mjoin (replicate (n * p) b).
Proof.
  induction n as [|n IH]; simpl; [done|].
  by rewrite IH, replicate_add, join_app.
Qed.

Lemma prod_list_replicate_1 (k : nat) (shp : list nat) :
  prod_list (replicate k 1 ++ shp) = prod_list shp.
Proof. induction k as [|k IH]; simpl; [done|]. rewrite IH. lia. Qed.

(** Broadcasting over leading dimensions repeats the array once for
    every position along them. *)
Lemma broadcast_buf_leading {B} (lead shp : list nat) (b : list B) :
  length b = prod_list shp →
  broadcast_buf (replicate (length lead) 1 ++ shp) (lead ++ shp) b
  = Some (mjoin (replicate (prod_list lead) b)).
Proof.
  intros Hb. induction lead as [|l lead IH]; simpl.
  { rewrite broadcast_buf_same by done. f_equal. by rewrite app_nil_r. }
  rewrite prod_list_replicate_1, <- Hb, firstn_all, IH. csimpl. rewrite app_nil_r.
  case_decide as Hl.
  - subst l. by rewrite Nat.mul_1_l.
  - f_equal. apply join_replicate_join.
Qed.

(** X16: a region mask over the trailing dimensions of a variable is
    applied at every position along the leading ones: [get_masked_data]
    hands to [Dataset.where] the mask repeated once for every time
    step, on the dimensions of the variable.  A variable that the
    dataset does not hold is a [KeyError]. *)
Theorem get_masked_data_repeats_mask `{Collaborators} (data : Dataset) (var : string)
    (mask : Mask) (dv : DataVar) (lead : list nat) :
  assoc var (ds_vars data) = Some dv →
  shape (dv_data dv) = lead ++ mask_shape mask →
  length (mask_buf mask) = prod_list (mask_shape mask) →
  get_masked_data data var mask
  = xr_where_drop data
      {| mask_shape := lead ++ mask_shape mask;
         mask_buf := mjoin (replicate (prod_list lead) (mask_buf mask)) |}
      (dv_dims dv)
  ∧ ∀ other, assoc other (ds_vars data) = None → get_masked_data data other mask = None.
Proof.
  intros Hv Hs Hb. split.
  - unfold get_masked_data. rewrite Hv. simpl. unfold np_broadcast_to. rewrite Hs.
    rewrite decide_True by (rewrite length_app; lia).
    rewrite length_app. replace (length lead + length (mask_shape mask)
                                 - length (mask_shape mask)) with (length lead) by lia.
    by rewrite broadcast_buf_leading.
  - intros other Ho. unfold get_masked_data. by rewrite Ho.
Qed.

Lemma broadcast_buf_mismatch {B} (ashape tshape : list nat) (a t : nat) (b : list B) :
  length ashape = length tshape →
  Forall (λ n, 0 < n) ashape →
  a ≠ t → a ≠ 1 →
  broadcast_buf (ashape ++ [a]) (tshape ++ [t]) b = None.
Proof.
  intros Hlen Hpos Hat Ha1. revert tshape Hlen b.
  induction Hpos as [|n ashape Hn Hpos IH]; intros [|m tshape] Hlen b;
    simplify_eq/=.
  - destruct (mapM _ _); simpl; [|done].
    rewrite decide_False by done. by rewrite decide_False.
  - destruct n as [|n]; [lia|]. csimpl. by rewrite IH.
Qed.

(** X17: a mask whose last dimension is neither that of the variable
    nor one cannot be broadcast: [np.broadcast_to] raises, and so does
    [get_masked_data]. *)
Theorem get_masked_data_mismatch `{Collaborators} (data : Dataset) (var : string)
    (mask : Mask) (dv : DataVar) (lead mshape vshape : list nat) (mx nx : nat) :
  assoc var (ds_vars data) = Some dv →
  shape (dv_data dv) = lead ++ vshape ++ [nx] →
  mask_shape mask = mshape ++ [mx] →
  length mshape = length vshape →
  Forall (λ n, 0 < n) mshape →
  mx ≠ nx → mx ≠ 1 →
  np_broadcast_to mask (shape (dv_data dv)) = None
  ∧ get_masked_data data var mask = None.
Proof.
  intros Hv Hs Hm Hlen Hpos Hne H1.
  assert (Hb : np_broadcast_to mask (shape (dv_data dv)) = None).
  { unfold np_broadcast_to. rewrite Hs, Hm. case_decide; [|done].
    rewrite !length_app. simpl.
    replace (length lead + (length vshape + 1) - (length mshape + 1))
      with (length lead) by lia.
    rewrite !app_assoc.
    rewrite (broadcast_buf_mismatch (replicate (length lead) 1 ++ mshape)
               (lead ++ vshape) mx nx); [done| | |done|done].
    - rewrite !length_app, length_replicate. lia.
    - apply Forall_app. split; [apply Forall_replicate; lia|done]. }
  split; [done|]. unfold get_masked_data. rewrite Hv. simpl. by rewrite Hb.
Qed.

(** ** [calc_stats]: keys, failures, and no regions *)

(** X18: [calc_stats] raises exactly when a requested variable is
    missing from the data dictionary, under its time resolution, or
    the statistics of some participant with data fail; one failure
    loses the results of every variable and participant. *)
Theorem calc_stats_is_Some_iff `{Collaborators}
    (ddict : gmap string (gmap string (gmap string (option Entry))))
    (vv : gmap string string) (stat : string) (pool : bool) (chunk_dim : string)
    (stats_config : gmap string StatConf) (regions : list string) :
  is_Some (calc_stats ddict vv stat pool chunk_dim stats_config regions)
  ↔ ∀ v f, vv !! v = Some f →
      ∃ parts, ddict !! f ≫= (.!! v) = Some parts
               ∧ ∀ m e, parts !! m = Some (Some e) →
                   is_Some (stats_for e v stat pool chunk_dim stats_config regions).
Proof.
  split; [|apply calc_stats_is_Some].
  intros [st Hst] v f Hv.
  destruct (calc_stats_lookup _ _ _ _ _ _ _ _ _ _ Hst Hv) as (parts & st_v & Hp & _ & Hm).
  exists parts. split; [done|]. intros m e He.
  destruct (proj1 (Hm m) e He) as (r & Hr & _). eauto.
Qed.

(** X19: the result of [calc_stats] has an entry for exactly the
    requested variables, and the entry of a variable has a result for
    exactly the participants that have data: a variable whose
    participants all lack data keeps an empty entry. *)
Theorem calc_stats_keys `{Collaborators}
    (ddict : gmap string (gmap string (gmap string (option Entry))))
    (vv : gmap string string) (stat : string) (pool : bool) (chunk_dim : string)
    (stats_config : gmap string StatConf) (regions : list string)
    (st_data : gmap string (gmap string PStats)) :
  calc_stats ddict vv stat pool chunk_dim stats_config regions = Some st_data →
  (∀ v, is_Some (st_data !! v) ↔ is_Some (vv !! v))
  ∧ ∀ v f, vv !! v = Some f →
      ∃ parts st_v,
        ddict !! f ≫= (.!! v) = Some parts
        ∧ st_data !! v = Some st_v
        ∧ (∀ m, is_Some (st_v !! m) ↔ ∃ e, parts !! m = Some (Some e))
        ∧ ((∀ m e, parts !! m ≠ Some (Some e)) → st_v = ∅).
Proof.
  intros Hst. split.
  - intros v. split.
    + intros Hv. destruct (vv !! v) as [f|] eqn:Hvv; [eauto|]. exfalso.
      unfold calc_stats in Hst.
      destruct (calc_stats_fold _ _ _ _ _ _ _ _ _ (NoDup_fst_map_to_list vv) Hst)
        as [_ Hout].
      rewrite Hout, lookup_empty in Hv; [by destruct Hv|].
      intros ([v' f] & -> & Hin%elem_of_map_to_list)%list_elem_of_fmap.
      simpl in Hvv. congruence.
    + intros [f Hv].
      destruct (calc_stats_lookup _ _ _ _ _ _ _ _ _ _ Hst Hv) as (? & st_v & _ & Hsv & _).
      eauto.
  - intros v f Hv.
    destruct (calc_stats_lookup _ _ _ _ _ _ _ _ _ _ Hst Hv) as (parts & st_v & Hp & Hsv & Hm).
    exists parts, st_v.
    assert (Hkeys : ∀ m, is_Some (st_v !! m) ↔ ∃ e, parts !! m = Some (Some e)).
    { intros m. destruct (Hm m) as [Hdata Hnone]. split.
      - intros Hs. destruct (parts !! m) as [[e|]|] eqn:Hpm; [eauto|..].
        + rewrite Hnone in Hs by eauto. by destruct Hs.
        + rewrite Hnone in Hs by eauto. by destruct Hs.
      - intros [e He]. destruct (Hdata e He) as (r & _ & Hr). eauto. }
    split_and!; [done..|].
    intros Hnone. apply map_eq. intros m. rewrite lookup_empty.
    apply eq_None_not_Some. rewrite Hkeys. intros [e He]. by apply (Hnone m e).
Qed.

Lemma stats_loop_no_regions `{Collaborators} (ms : list (string * option Entry))
    (v stat : string) (pool pool' : bool) (chunk_dim : string)
    (stats_config : gmap string StatConf) (acc : gmap string PStats) :
  stats_loop ms v stat pool chunk_dim stats_config [] acc
  = stats_loop ms v stat pool' chunk_dim stats_config [] acc.
Proof.
  revert acc. induction ms as [|[m [e|]] ms IH]; intros acc; simpl; [done| |apply IH].
  change (stats_for e v stat pool chunk_dim stats_config [])
    with (stats_for e v stat pool' chunk_dim stats_config []).
  destruct (stats_for e v stat pool' chunk_dim stats_config []); simpl; [|done].
  apply IH.
Qed.

(** X20: without regions a participant's result holds the statistic
    of the whole domain and nothing else, no region mask is asked for,
    and the flag 'pool data' has no effect. *)
Theorem calc_stats_no_regions `{Collaborators}
    (ddict : gmap string (gmap string (gmap string (option Entry))))
    (vv : gmap string string) (stat : string) (pool : bool) (chunk_dim : string)
    (stats_config : gmap string StatConf) :
  calc_stats ddict vv stat pool chunk_dim stats_config []
  = calc_stats ddict vv stat (negb pool) chunk_dim stats_config []
  ∧ ∀ st_data v f parts m entry,
      calc_stats ddict vv stat pool chunk_dim stats_config [] = Some st_data →
      vv !! v = Some f →
      ddict !! f ≫= (.!! v) = Some parts →
      parts !! m = Some (Some entry) →
      ∃ data domain,
        stats_input entry v stat chunk_dim stats_config = Some data
        ∧ calc_statistics data v stat stats_config = Some domain
        ∧ st_data !! v ≫= (.!! m) = Some {| st_domain := domain; st_regions := None |}.
Proof.
  split.
  - unfold calc_stats. generalize (Some (∅ : gmap string (gmap string PStats))).
    induction (map_to_list vv) as [|vf vfs IH]; intros acc; simpl; [done|].
    rewrite IH. f_equal. unfold calc_stats_step.
    destruct acc as [st|]; simpl; [|done].
    destruct (ddict !! vf.2 ≫= (.!! vf.1)) as [parts|]; simpl; [|done].
    by rewrite (stats_loop_no_regions _ _ _ pool (negb pool)).
  - intros st_data v f parts m entry Hst Hv Hp Hm.
    destruct (calc_stats_lookup _ _ _ _ _ _ _ _ _ _ Hst Hv)
      as (parts' & st_v & Hp' & Hsv & Hall).
    assert (parts' = parts) as -> by congruence.
    destruct (proj1 (Hall m) entry Hm) as (res & Hres & Hlook).
    unfold stats_for in Hres.
    apply bind_Some in Hres as (data & Hdata & Hres).
    apply bind_Some in Hres as (domain & Hdom & [= <-]).
    exists data, domain. rewrite Hsv. simpl. done.
Qed.

(** ** [get_obs_data]: rectilinear grids, short axes, latitudes *)

Lemma reshape_singletons {A} (l : list A) :
  reshape (replicate (length l) 1) l = (λ x, [x]) <$> l.
Proof.
  induction l as [|x l IH]; simpl; [done|]. rewrite drop_0. by rewrite IH.
Qed.

Lemma join_rev_singletons {A} (l : list A) : mjoin (rev ((λ x, [x]) <$> l)) = rev l.
Proof.
  induction l as [|x l IH]; csimpl; [done|].
  rewrite join_app, IH. csimpl. done.
Qed.

(** Reversing a one-dimensional array reverses its elements. *)
Lemma flip_axis_1d (a : ndarray) (n : nat) :
  shape a = [n] → length (buf a) = n →
  flip_axis 0 a = {| shape := [n]; buf := rev (buf a) |}.
Proof.
  intros Hs Hl. unfold flip_axis. rewrite Hs. simpl. f_equal.
  rewrite Nat.mul_1_r, <- Hl, firstn_all, app_nil_r.
  by rewrite reshape_singletons, join_rev_singletons.
Qed.

Lemma index_of_head (d : string) (dims : list string) : index_of d (d :: dims) = Some 0.
Proof. simpl. by rewrite decide_True. Qed.

Lemma flip_dim_own (d : string) (a : ndarray) : flip_dim d [d] a = flip_axis 0 a.
Proof. unfold flip_dim. by rewrite index_of_head. Qed.

Lemma flip_dim_other (d d' : string) (a : ndarray) : d' ≠ d → flip_dim d [d'] a = a.
Proof. intros Hne. unfold flip_dim. simpl. by rewrite decide_False. Qed.

(** *** Reindexing along a dimension with and without an index *)

Lemma assoc_snoc_ne {A} (k d : string) (l : list (string * A)) (v : A) :
  k ≠ d → assoc k (l ++ [(d, v)]) = assoc k l.
Proof.
  intros Hne. induction l as [|[k' v'] l IH]; simpl.
  - by rewrite decide_False.
  - by rewrite IH.
Qed.

Lemma assoc_snoc_None {A} (d : string) (l : list (string * A)) (v : A) :
  assoc d l = None → assoc d (l ++ [(d, v)]) = Some v.
Proof.
  induction l as [|[k' v'] l IH]; simpl.
  - by rewrite decide_True.
  - case_decide; [done|]. exact IH.
Qed.

Lemma assoc_rev_ne (k d : string) (l : list (string * list float)) :
  k ≠ d →
  assoc k ((λ kv, if decide (kv.1 = d) then (kv.1, rev kv.2) else kv) <$> l) = assoc k l.
Proof.
  intros Hne. induction l as [|[k' v'] l IH]; simpl; [done|].
  destruct (decide (k' = d)) as [->|]; simpl.
  - rewrite !decide_False by done. exact IH.
  - case_decide; [done|]. exact IH.
Qed.

Lemma od_labels_reversed_other (d d' : string) (data : ObsData) :
  d' ≠ d → od_labels d' (od_reversed d data) = od_labels d' data.
Proof.
  intros Hne. unfold od_labels. cbn [od_reversed od_lon od_lat od_index c_dims c_values].
  destruct (decide (d' = "lon" ∧ _)) as [[-> Hc]|_].
  { by rewrite Hc, flip_dim_other. }
  destruct (decide (d' = "lat" ∧ _)) as [[-> Hc]|_].
  { by rewrite Hc, flip_dim_other. }
  by apply assoc_rev_ne.
Qed.

Lemma od_labels_set_index_other (d d' : string) (labels : list float) (data : ObsData) :
  d' ≠ d → od_labels d' (od_set_index d labels data) = od_labels d' data.
Proof.
  intros Hne. unfold od_labels. cbn [od_set_index od_lon od_lat od_index].
  repeat case_decide; try done. by apply assoc_snoc_ne.
Qed.

Lemma od_labels_set_index_own (d : string) (labels : list float) (data : ObsData) :
  od_labels d data = None → od_labels d (od_set_index d labels data) = Some labels.
Proof.
  unfold od_labels. cbn [od_set_index od_lon od_lat od_index].
  repeat case_decide; try done. apply assoc_snoc_None.
Qed.

(** What [reindex] does with the reversed labels of a dimension: with
    an index, whose labels must be distinct, the dataset is reversed
    along the dimension; without one the dataset only receives the
    labels.  The index of any other dimension is not touched. *)
Lemma xr_reindex_reversed_spec (d : string) (data data' : ObsData) :
  xr_reindex_reversed d data = Some data' →
  (∀ d', d' ≠ d → od_labels d' data' = od_labels d' data)
  ∧ (∀ labels, od_labels d data = Some labels →
       is_unique labels = true ∧ data' = od_reversed d data)
  ∧ (od_labels d data = None →
     ∃ n, assoc d (od_dims data) = Some n
          ∧ data' = od_set_index d (rev (default_labels n)) data
          ∧ od_labels d data' = Some (rev (default_labels n))).
Proof.
  unfold xr_reindex_reversed.
  destruct (od_labels d data) as [labels|] eqn:Hl.
  - destruct (is_unique labels) eqn:Hu; [|done]. intros [= <-]. split_and!.
    + intros d' Hne. by apply od_labels_reversed_other.
    + by intros ? [= <-].
    + done.
  - destruct (assoc d (od_dims data)) as [n|]; [|done]. cbn [mbind option_bind].
    intros [= <-]. split_and!.
    + intros d' Hne. by apply od_labels_set_index_other.
    + done.
    + intros _. exists n. split_and!; try done. by apply od_labels_set_index_own.
Qed.

Lemma xr_reindex_reversed_is_Some (d : string) (data : ObsData) :
  d ∈ (od_dims data).*1 →
  (∀ labels, od_labels d data = Some labels → is_unique labels = true) →
  is_Some (xr_reindex_reversed d data).
Proof.
  intros Hd Hu. unfold xr_reindex_reversed.
  destruct (od_labels d data) as [labels|].
  - rewrite (Hu labels) by done. eauto.
  - destruct (assoc_is_Some (od_dims data) d Hd) as [n ->]. simpl. eauto.
Qed.

(** The variables reversed along the dimensions for which the flags
    are set. *)
Lemma od_vars_twice (bx b_y : bool) (xd yd : string) (vars : list (string * DataVar)) :
  (if b_y then
     (λ kv : string * DataVar,
        (kv.1, {| dv_dims := dv_dims kv.2;
                  dv_data := flip_dim yd (dv_dims kv.2) (dv_data kv.2);
                  dv_attrs := dv_attrs kv.2 |})) <$>
     (if bx then
        (λ kv : string * DataVar,
           (kv.1, {| dv_dims := dv_dims kv.2;
                     dv_data := flip_dim xd (dv_dims kv.2) (dv_data kv.2);
                     dv_attrs := dv_attrs kv.2 |})) <$> vars
      else vars)
   else if bx then
     (λ kv : string * DataVar,
        (kv.1, {| dv_dims := dv_dims kv.2;
                  dv_data := flip_dim xd (dv_dims kv.2) (dv_data kv.2);
                  dv_attrs := dv_attrs kv.2 |})) <$> vars
   else vars)
  = (λ kv : string * DataVar,
       (kv.1,
        {| dv_dims := dv_dims kv.2;
           dv_data :=
             (if b_y then flip_dim yd (dv_dims kv.2) else id)
               ((if bx then flip_dim xd (dv_dims kv.2) else id) (dv_data kv.2));
           dv_attrs := dv_attrs kv.2 |})) <$> vars.
Proof.
  destruct b_y, bx; simpl.
  - by rewrite <- list_fmap_compose.
  - done.
  - done.
  - induction vars as [|[k [? ? ?]] l IH]; [done|]. rewrite fmap_cons. by f_equal.
Qed.

(** X21: on a rectilinear grid, with one-dimensional longitudes on the
    x dimension and latitudes on the y dimension, longitudes whose
    first step is negative are reversed in the grid, and so are
    latitudes.  The dataset follows only along a dimension that has an
    index, whose labels must be distinct: when every reversed dimension
    has one (as when [lon] and [lat] are the coordinates of dimensions
    of their own name), the coordinates of the returned dataset are
    those of the returned grid and every variable is reversed along the
    same dimensions.  Along a reversed dimension without an index the
    dataset only receives the labels [n - 1, ..., 0]: its longitudes
    stay as read while those of the grid are reversed. *)
Theorem get_obs_data_1d_consistent (obs_data obs_data' : ObsData) (grid : Grid)
    (xd yd : string) :
  head (filter (λ x, x ∈ spcdim_x) (od_dims obs_data).*1) = Some xd →
  head (filter (λ y, y ∈ spcdim_y) (od_dims obs_data).*1) = Some yd →
  c_dims (od_lon obs_data) = [xd] →
  c_dims (od_lat obs_data) = [yd] →
  ndim (c_values (od_lon obs_data)) = 1 →
  get_obs_data obs_data = Some (obs_data', grid) →
  ∃ dlon dlat,
    np_diff0 (buf (c_values (od_lon obs_data))) = Some dlon
    ∧ np_diff0 (buf (c_values (od_lat obs_data))) = Some dlat
    ∧ g_lon grid = (if negative dlon then flip_axis 0 (c_values (od_lon obs_data))
                    else c_values (od_lon obs_data))
    ∧ g_lat grid = (if negative dlat then flip_axis 0 (c_values (od_lat obs_data))
                    else c_values (od_lat obs_data))
    ∧ od_dims obs_data' = od_dims obs_data
    ∧ (let mx := negative dlon && bool_decide (is_Some (od_labels xd obs_data)) in
       let my := negative dlat && bool_decide (is_Some (od_labels yd obs_data)) in
       c_values (od_lon obs_data')
       = (if mx then flip_axis 0 (c_values (od_lon obs_data))
          else c_values (od_lon obs_data))
       ∧ c_values (od_lat obs_data')
         = (if my then flip_axis 0 (c_values (od_lat obs_data))
            else c_values (od_lat obs_data))
       ∧ od_vars obs_data'
         = (λ kv, (kv.1,
                   {| dv_dims := dv_dims kv.2;
                      dv_data :=
                        (if my then flip_dim yd (dv_dims kv.2) else id)
                          ((if mx then flip_dim xd (dv_dims kv.2) else id)
                             (dv_data kv.2));
                      dv_attrs := dv_attrs kv.2 |})) <$> od_vars obs_data)
    ∧ ((negative dlon = true → is_Some (od_labels xd obs_data)) →
       (negative dlat = true → is_Some (od_labels yd obs_data)) →
       c_values (od_lon obs_data') = g_lon grid
       ∧ c_values (od_lat obs_data') = g_lat grid)
    ∧ (negative dlon = true →
       (∀ labels, od_labels xd obs_data = Some labels → is_unique labels = true)
       ∧ (od_labels xd obs_data = None →
          ∃ n, assoc xd (od_dims obs_data) = Some n
               ∧ od_labels xd obs_data' = Some (rev (default_labels n))
               ∧ c_values (od_lon obs_data') = c_values (od_lon obs_data)
               ∧ g_lon grid = flip_axis 0 (c_values (od_lon obs_data))))
    ∧ (negative dlat = true →
       (∀ labels, od_labels yd obs_data = Some labels → is_unique labels = true)
       ∧ (od_labels yd obs_data = None →
          ∃ n, assoc yd (od_dims obs_data) = Some n
               ∧ od_labels yd obs_data' = Some (rev (default_labels n))
               ∧ c_values (od_lat obs_data') = c_values (od_lat obs_data)
               ∧ g_lat grid = flip_axis 0 (c_values (od_lat obs_data))))
    ∧ (negative dlon = true →
       length (buf (c_values (od_lon obs_data))) = size (c_values (od_lon obs_data)) →
       buf (g_lon grid) = rev (buf (c_values (od_lon obs_data)))).
Proof.
  intros Hxd Hyd Hcx Hcy Hnd. unfold get_obs_data. rewrite Hxd, Hyd.
  cbn [mbind option_bind]. rewrite decide_True by done.
  assert (Hx : xd ∈ spcdim_x)
    by (apply head_Some_elem_of, list_elem_of_filter in Hxd; tauto).
  assert (Hy : yd ∈ spcdim_y)
    by (apply head_Some_elem_of, list_elem_of_filter in Hyd; tauto).
  destruct (spcdim_disjoint xd yd Hx Hy) as (_ & _ & Hxy).
  intros ([[lons lats] od] & Hr & Hg)%bind_Some.
  cbn [mbind option_bind] in Hg. injection Hg as <- <-. cbn [g_lon g_lat].
  apply bind_Some in Hr as (dlon & Hdlon & Hr).
  apply bind_Some in Hdlon as (vlon & Hvlon & Hdlon).
  unfold vector in Hvlon. case_decide; [|done]. injection Hvlon as <-.
  apply bind_Some in Hr as ([lons1 od1] & Hstepx & Hr).
  apply bind_Some in Hr as (dlat & Hdlat & Hr).
  apply bind_Some in Hdlat as (vlat & Hvlat & Hdlat).
  unfold vector in Hvlat. case_decide; [|done]. injection Hvlat as <-.
  apply bind_Some in Hr as ([lats1 od2] & Hstepy & Hr).
  injection Hr as <- <- <-.
  exists dlon, dlat. split; [done|]. split; [done|].
  (* the step along x *)
  assert (Hsx : lons1 = (if negative dlon then flip_axis 0 (c_values (od_lon obs_data))
                         else c_values (od_lon obs_data))
                ∧ (negative dlon = false → od1 = obs_data)
                ∧ (negative dlon = true → xr_reindex_reversed xd obs_data = Some od1)).
  { destruct (negative dlon).
    - apply bind_Some in Hstepx as (o & Ho & [= <- <-]). by split_and!.
    - injection Hstepx as <- <-. by split_and!. }
  destruct Hsx as (-> & Hx0 & Hx1).
  assert (Hsy : lats1 = (if negative dlat then flip_axis 0 (c_values (od_lat obs_data))
                         else c_values (od_lat obs_data))
                ∧ (negative dlat = false → od2 = od1)
                ∧ (negative dlat = true → xr_reindex_reversed yd od1 = Some od2)).
  { destruct (negative dlat).
    - apply bind_Some in Hstepy as (o & Ho & [= <- <-]). by split_and!.
    - injection Hstepy as <- <-. by split_and!. }
  destruct Hsy as (-> & Hy0 & Hy1).
  clear Hstepx Hstepy. split; [done|]. split; [done|].
  (* the dataset after the step along x *)
  set (mx := negative dlon && bool_decide (is_Some (od_labels xd obs_data))).
  assert (H1 : od_dims od1 = od_dims obs_data
               ∧ od_lon od1 = (if mx then od_lon (od_reversed xd obs_data)
                               else od_lon obs_data)
               ∧ od_lat od1 = od_lat obs_data
               ∧ od_vars od1 = (if mx then od_vars (od_reversed xd obs_data)
                                else od_vars obs_data)
               ∧ od_labels yd od1 = od_labels yd obs_data
               ∧ (negative dlon = true → od_labels xd obs_data = None →
                  ∃ n, assoc xd (od_dims obs_data) = Some n
                       ∧ od_labels xd od1 = Some (rev (default_labels n)))).
  { subst mx. destruct (negative dlon) eqn:Hn; simpl.
    - destruct (xr_reindex_reversed_spec _ _ _ (Hx1 eq_refl)) as (Ho & Hs & Hnone).
      rewrite (Ho yd) by done.
      destruct (od_labels xd obs_data) as [labels|] eqn:Hl.
      + destruct (Hs labels eq_refl) as [_ ->].
        rewrite bool_decide_true by eauto.
        cbn [od_reversed od_dims od_lat od_lon od_vars]. rewrite Hcy.
        rewrite (flip_dim_other xd yd) by done.
        split_and!; try done. rewrite <- Hcy. by destruct (od_lat obs_data).
      + destruct (Hnone eq_refl) as (n & Hn' & -> & Hlab).
        rewrite bool_decide_false by (by intros [? ?]).
        split_and!; try done. intros _ _. by exists n.
    - rewrite (Hx0 eq_refl). by split_and!. }
  destruct H1 as (Hd1 & Hlon1 & Hlat1 & Hv1 & Hl1 & Hnx).
  set (my := negative dlat && bool_decide (is_Some (od_labels yd obs_data))).
  assert (H2 : od_dims od2 = od_dims obs_data
               ∧ od_lon od2 = od_lon od1
               ∧ od_lat od2 = (if my then od_lat (od_reversed yd od1) else od_lat od1)
               ∧ od_vars od2 = (if my then od_vars (od_reversed yd od1) else od_vars od1)
               ∧ od_labels xd od2 = od_labels xd od1
               ∧ (negative dlat = true → od_labels yd obs_data = None →
                  ∃ n, assoc yd (od_dims obs_data) = Some n
                       ∧ od_labels yd od2 = Some (rev (default_labels n)))).
  { subst my. destruct (negative dlat) eqn:Hn; simpl.
    - destruct (xr_reindex_reversed_spec _ _ _ (Hy1 eq_refl)) as (Ho & Hs & Hnone).
      rewrite (Ho xd) by done. rewrite Hl1 in Hs, Hnone.
      destruct (od_labels yd obs_data) as [labels|] eqn:Hl.
      + destruct (Hs labels eq_refl) as [_ ->].
        rewrite bool_decide_true by eauto.
        cbn [od_reversed od_dims od_lat od_lon od_vars].
        assert (Hc1 : c_dims (od_lon od1) = [xd]) by (rewrite Hlon1; by destruct mx).
        rewrite Hc1, (flip_dim_other yd xd) by done.
        split_and!; try done. rewrite <- Hc1. by destruct (od_lon od1).
      + destruct (Hnone eq_refl) as (n & Hn' & -> & Hlab).
        rewrite bool_decide_false by (by intros [? ?]). rewrite Hd1 in Hn'.
        split_and!; try done. intros _ _. by exists n.
    - rewrite (Hy0 eq_refl). by split_and!. }
  destruct H2 as (Hd2 & Hlon2 & Hlat2 & Hv2 & Hl2 & Hny).
  assert (Hlon : c_values (od_lon od2)
                 = (if mx then flip_axis 0 (c_values (od_lon obs_data))
                    else c_values (od_lon obs_data))).
  { rewrite Hlon2, Hlon1. destruct mx; [|done].
    cbn [od_reversed od_lon c_values]. by rewrite Hcx, flip_dim_own. }
  assert (Hlat : c_values (od_lat od2)
                 = (if my then flip_axis 0 (c_values (od_lat obs_data))
                    else c_values (od_lat obs_data))).
  { rewrite Hlat2. destruct my; [|by rewrite Hlat1].
    cbn [od_reversed od_lat c_values]. by rewrite Hlat1, Hcy, flip_dim_own. }
  split; [done|]. split.
  { cbv zeta. fold mx my. split; [done|]. split; [done|].
    rewrite Hv2. cbn [od_reversed od_vars]. rewrite Hv1. cbn [od_reversed od_vars].
    apply od_vars_twice. }
  split.
  { intros Hix Hiy. rewrite Hlon, Hlat. subst mx my. split.
    - destruct (negative dlon); [|done].
      specialize (Hix eq_refl). by rewrite (bool_decide_true _ Hix).
    - destruct (negative dlat); [|done].
      specialize (Hiy eq_refl). by rewrite (bool_decide_true _ Hiy). }
  split.
  { intros Hn. split.
    - intros labels Hlab.
      by destruct (xr_reindex_reversed_spec _ _ _ (Hx1 Hn)) as (_ & Hs & _),
        (Hs labels Hlab).
    - intros Hnone. destruct (Hnx Hn Hnone) as (n & Hn' & Hlab).
      exists n. rewrite Hl2, Hlon, Hn. subst mx. rewrite Hn, Hnone. simpl. done. }
  split.
  { intros Hn. split.
    - intros labels Hlab.
      destruct (xr_reindex_reversed_spec _ _ _ (Hy1 Hn)) as (_ & Hs & _).
      rewrite Hl1 in Hs. by destruct (Hs labels Hlab).
    - intros Hnone. destruct (Hny Hn Hnone) as (n & Hn' & Hlab).
      exists n. rewrite Hlat, Hn. subst my. rewrite Hn, Hnone. simpl. done. }
  intros Hn Hlen. rewrite Hn. unfold ndim in Hnd. unfold size in Hlen.
  destruct (shape (c_values (od_lon obs_data))) as [|n [|? ?]] eqn:Hs; try done.
  simpl in Hlen. rewrite Nat.mul_1_r in Hlen. by rewrite (flip_axis_1d _ n).
Qed.

Lemma vector_1d (a : ndarray) : ndim a = 1 → vector a = Some (buf a).
Proof. intros. unfold vector. by rewrite decide_True. Qed.

Lemma np_diff0_short (v : list float) : length v < 2 → np_diff0 v = None.
Proof.
  intros Hl. unfold np_diff0. by rewrite (lookup_ge_None_2 v 1) by lia.
Qed.

(** X22: an axis with a single point cannot be ordered: the first
    difference does not exist and [get_obs_data] raises an
    [IndexError].  This holds for one-dimensional longitudes or
    latitudes with fewer than two elements and for two-dimensional ones
    with fewer than two columns of longitudes or fewer than two rows of
    latitudes. *)
Theorem get_obs_data_short_axis (obs_data : ObsData) :
  (ndim (c_values (od_lon obs_data)) = 1 →
   length (buf (c_values (od_lon obs_data))) < 2
   ∨ length (buf (c_values (od_lat obs_data))) < 2 →
   get_obs_data obs_data = None)
  ∧ (∀ ny nx, shape (c_values (od_lon obs_data)) = [ny; nx] → nx < 2 →
       get_obs_data obs_data = None)
  ∧ (∀ ny nx my mx, shape (c_values (od_lon obs_data)) = [ny; nx] →
       shape (c_values (od_lat obs_data)) = [my; mx] → my < 2 →
       get_obs_data obs_data = None).
Proof.
  unfold get_obs_data. split_and!.
  - intros Hnd Hshort.
    destruct (head (filter (λ x, x ∈ spcdim_x) _)) as [xd|]; [|reflexivity].
    cbn [mbind option_bind].
    destruct (head (filter (λ y, y ∈ spcdim_y) _)) as [yd|]; [|reflexivity].
    cbn [mbind option_bind].
    rewrite decide_True by done.
    rewrite (vector_1d (c_values (od_lon obs_data))) by done.
    cbn [mbind option_bind].
    destruct (np_diff0 (buf (c_values (od_lon obs_data)))) as [dlon|] eqn:Hdlon;
      [|reflexivity]. cbn [mbind option_bind].
    destruct Hshort as [Hs|Hs]; [by rewrite np_diff0_short in Hdlon|].
    assert (Hlat : vector (c_values (od_lat obs_data)) ≫= np_diff0 = None).
    { unfold vector. case_decide; [|reflexivity]. by apply np_diff0_short. }
    destruct (if negative dlon then _ else _) as [[lons1 od1]|]; [|reflexivity].
    cbn [mbind option_bind]. by rewrite Hlat.
  - intros ny nx Hs Hnx.
    destruct (head (filter (λ x, x ∈ spcdim_x) _)) as [xd|]; [|reflexivity].
    cbn [mbind option_bind].
    destruct (head (filter (λ y, y ∈ spcdim_y) _)) as [yd|]; [|reflexivity].
    cbn [mbind option_bind].
    unfold ndim. rewrite Hs. cbn [length].
    rewrite decide_False by done. rewrite decide_True by done.
    assert (Hrow : row0 (c_values (od_lon obs_data)) ≫= np_diff0 = None).
    { unfold row0. rewrite Hs. case_decide; [done|]. cbn [mbind option_bind].
      apply np_diff0_short. rewrite length_take. lia. }
    by rewrite Hrow.
  - intros ny nx my mx Hs Hl Hmy.
    destruct (head (filter (λ x, x ∈ spcdim_x) _)) as [xd|]; [|reflexivity].
    cbn [mbind option_bind].
    destruct (head (filter (λ y, y ∈ spcdim_y) _)) as [yd|]; [|reflexivity].
    cbn [mbind option_bind].
    unfold ndim. rewrite Hs. cbn [length].
    rewrite decide_False by done. rewrite decide_True by done.
    destruct (row0 (c_values (od_lon obs_data)) ≫= np_diff0) as [dlon|]; [|reflexivity].
    cbn [mbind option_bind].
    assert (Hcol : col0 (c_values (od_lat obs_data)) ≫= np_diff0 = None).
    { unfold col0. rewrite Hl.
      destruct (mapM head _) as [col|] eqn:Hcol; [|reflexivity]. cbn [mbind option_bind].
      apply np_diff0_short. apply length_mapM in Hcol.
      rewrite length_reshape, length_replicate in Hcol. lia. }
    destruct (if negative dlon then _ else _) as [[lons1 od1]|]; [|reflexivity].
    cbn [mbind option_bind]. by rewrite Hcol.
Qed.

(** X23: on a two-dimensional grid whose longitudes increase along a
    row and whose latitudes decrease down a column, the latitudes of the
    grid are turned upside down and the longitudes of the grid are
    returned as they were read.  With an index on y the dataset is put
    in the order of the reversed labels: its latitudes are those of the
    returned grid, and its longitudes are turned with them; an index
    with a label that occurs twice makes [get_obs_data] raise.  Without
    an index on y the dataset only receives the labels
    [n - 1, ..., 0]: its latitudes and variables stay as read while the
    latitudes of the grid are turned. *)
Theorem get_obs_data_2d_latitudes (obs_data : ObsData) (xd yd : string) (ny nx : nat)
    (dlon dlat : float) :
  head (filter (λ x, x ∈ spcdim_x) (od_dims obs_data).*1) = Some xd →
  head (filter (λ y, y ∈ spcdim_y) (od_dims obs_data).*1) = Some yd →
  c_dims (od_lon obs_data) = [yd; xd] →
  c_dims (od_lat obs_data) = [yd; xd] →
  shape (c_values (od_lon obs_data)) = [ny; nx] →
  shape (c_values (od_lat obs_data)) = [ny; nx] →
  row0 (c_values (od_lon obs_data)) ≫= np_diff0 = Some dlon →
  negative dlon = false →
  col0 (c_values (od_lat obs_data)) ≫= np_diff0 = Some dlat →
  negative dlat = true →
  (∀ labels, od_labels yd obs_data = Some labels → is_unique labels = false →
     get_obs_data obs_data = None)
  ∧ ((∀ labels, od_labels yd obs_data = Some labels → is_unique labels = true) →
     ∃ obs_data' grid,
       get_obs_data obs_data = Some (obs_data', grid)
       ∧ g_lat grid = flip_axis 0 (c_values (od_lat obs_data))
       ∧ g_lon grid = c_values (od_lon obs_data)
       ∧ (is_Some (od_labels yd obs_data) →
          obs_data' = od_reversed yd obs_data
          ∧ c_values (od_lat obs_data') = g_lat grid
          ∧ c_values (od_lon obs_data') = flip_axis 0 (c_values (od_lon obs_data)))
       ∧ (od_labels yd obs_data = None →
          ∃ n, assoc yd (od_dims obs_data) = Some n
               ∧ obs_data' = od_set_index yd (rev (default_labels n)) obs_data
               ∧ c_values (od_lat obs_data') = c_values (od_lat obs_data)
               ∧ c_values (od_lon obs_data') = c_values (od_lon obs_data)
               ∧ od_vars obs_data' = od_vars obs_data)).
Proof.
  intros Hxd Hyd Hcx Hcy Hs Hl Hdlon Hnlon Hdlat Hnlat.
  assert (Hstart : get_obs_data obs_data
                   = obs_data' ← xr_reindex_reversed yd obs_data;
                     Some (obs_data',
                           {| g_lon := c_values (od_lon obs_data);
                              g_lat := flip_axis 0 (c_values (od_lat obs_data));
                              g_lon_b := None; g_lat_b := None |})).
  { unfold get_obs_data. rewrite Hxd, Hyd. cbn [mbind option_bind].
    unfold ndim. rewrite Hs. cbn [length].
    rewrite decide_False by done. rewrite decide_True by done.
    rewrite Hdlon. cbn [mbind option_bind]. rewrite Hnlon. cbn [mbind option_bind].
    rewrite Hdlat. cbn [mbind option_bind]. rewrite Hnlat.
    unfold np_flipud, ndim. rewrite Hl. cbn [length].
    rewrite decide_False by done. cbn [mbind option_bind].
    by destruct (xr_reindex_reversed yd obs_data). }
  rewrite Hstart. split.
  { intros labels Hlab Hu. unfold xr_reindex_reversed. by rewrite Hlab, Hu. }
  intros Hu.
  destruct (xr_reindex_reversed_is_Some yd obs_data) as [obs_data' Hre]; [|done|].
  { apply head_Some_elem_of, list_elem_of_filter in Hyd. tauto. }
  rewrite Hre. cbn [mbind option_bind].
  destruct (xr_reindex_reversed_spec _ _ _ Hre) as (_ & Hsome & Hnone).
  eexists _, _. split; [reflexivity|]. cbn [g_lon g_lat]. split; [done|]. split; [done|].
  split.
  - intros [labels Hlab]. destruct (Hsome labels Hlab) as [_ ->].
    split; [done|]. cbn [od_reversed od_lon od_lat c_values].
    rewrite Hcx, Hcy. unfold flip_dim. by rewrite !index_of_head.
  - intros Hlab. destruct (Hnone Hlab) as (n & Hn & -> & _). by exists n.
Qed.

(** ** [save_to_disk] *)

Lemma assoc_set_attr (k v : string) (a : attrs) : assoc k (set_attr k v a) = Some v.
Proof.
  induction a as [|[k' v'] a IH]; simpl; [by rewrite decide_True|].
  case_decide as Hk; simpl; [by rewrite decide_True|]. by rewrite decide_False.
Qed.

Lemma set_attr_idemp (k v : string) (a : attrs) :
  set_attr k v (set_attr k v a) = set_attr k v a.
Proof.
  induction a as [|[k' v'] a IH]; simpl; [by rewrite decide_True|].
  case_decide as Hk; simpl; [by rewrite decide_True|].
  rewrite decide_False by done. by rewrite IH.
Qed.

Lemma with_attr_idemp (k v : string) (d : Dataset) :
  with_attr k v (with_attr k v d) = with_attr k v d.
Proof. unfold with_attr. simpl. by rewrite set_attr_idemp. Qed.

Section save_region.
Context (label stat_name odir var grid : string) (sy ey : Z)
        (tsuffix tres thr tstat : string).

Abbreviation save_r :=
  (save_region label stat_name odir var grid sy ey tsuffix tres thr tstat).
Abbreviation stamp := (with_attr "Analysed time" (analysed_time sy ey tsuffix)).
Abbreviation region_path r :=
  (os_path_join odir
     [stat_name;
      stat_file_name label stat_name var thr tres tstat
        (Some (replace_char " "%char "_"%char r)) grid sy ey tsuffix]).

Lemma save_region_fold_None (regs : list string) : foldl save_r None regs = None.
Proof. by induction regs. Qed.

(** The loop over the regions: one file per region, in order, each
    dataset stamped before it is written; the datasets of the regions
    are stamped in the result, the domain is not touched. *)
Lemma save_region_fold (regs : list string) (data data' : PStats)
    (written written' : list (string * Dataset)) :
  foldl save_r (Some (data, written)) regs = Some (data', written') →
  st_domain data' = st_domain data
  ∧ (∃ new,
       written' = written ++ new
       ∧ new.*1 = (λ r, region_path r) <$> regs
       ∧ Forall (λ pd, ∃ ds, pd.2 = stamp ds) new)
  ∧ (regs = [] → data' = data)
  ∧ (regs ≠ [] →
     ∃ regions regions',
       st_regions data = Some regions
       ∧ st_regions data' = Some regions'
       ∧ (∀ r, r ∈ regs → ∃ ds, regions !! r = Some ds ∧ regions' !! r = Some (stamp ds))
       ∧ (∀ r, r ∉ regs → regions' !! r = regions !! r)).
Proof.
  revert data written. induction regs as [|r regs IH]; intros data written.
  { intros [= <- <-]. split_and!; [done| |done|done].
    exists []. by rewrite app_nil_r. }
  change (foldl save_r (Some (data, written)) (r :: regs))
    with (foldl save_r (save_r (Some (data, written)) r) regs).
  destruct (save_r (Some (data, written)) r) as [[data1 written1]|] eqn:Hstep;
    [|by rewrite save_region_fold_None].
  intros Hf. destruct (IH _ _ Hf) as (Hdom & (new & -> & Hpaths & Hst) & Hnil & Hcons).
  clear IH. unfold save_region in Hstep. simpl in Hstep.
  apply bind_Some in Hstep as (regions & Hregs & Hstep).
  apply bind_Some in Hstep as (ds & Hds & [= <- <-]).
  split_and!.
  - by rewrite Hdom.
  - eexists (_ :: new). split; [by rewrite <- app_assoc|]. split.
    + csimpl. by rewrite Hpaths.
    + constructor; [by eexists|done].
  - done.
  - intros _. exists regions. destruct regs as [|r' regs'].
    + rewrite (Hnil eq_refl). simpl. eexists. split_and!; [done..| |].
      * intros r0 ->%list_elem_of_singleton. exists ds. by rewrite lookup_insert_eq.
      * intros r0 [Hne _]%not_elem_of_cons. by rewrite lookup_insert_ne.
    + destruct Hcons as (regions1 & regions' & Hr1 & Hr' & Hin & Hout); [done|].
      simpl in Hr1. injection Hr1 as <-. exists regions'. split_and!; [done..| |].
      * intros r0 Hr0.
        destruct (decide (r0 ∈ r' :: regs')) as [Hin'|Hin'].
        -- destruct (Hin r0 Hin') as (ds0 & Hds0 & Hds0').
           destruct (decide (r0 = r)) as [->|Hne].
           ++ rewrite lookup_insert_eq in Hds0. injection Hds0 as <-.
              exists ds. by rewrite Hds0', with_attr_idemp.
           ++ rewrite lookup_insert_ne in Hds0 by done. eauto.
        -- assert (r0 = r) as -> by (by apply elem_of_cons in Hr0 as [?|?]).
           exists ds. by rewrite Hout, lookup_insert_eq.
      * intros r0 [Hne Hr0]%not_elem_of_cons.
        by rewrite Hout, lookup_insert_ne.
Qed.

Lemma save_region_fold_is_Some (regs : list string) (data : PStats)
    (written : list (string * Dataset)) (regions : gmap string Dataset) :
  st_regions data = Some regions →
  (∀ r, r ∈ regs → is_Some (regions !! r)) →
  is_Some (foldl save_r (Some (data, written)) regs).
Proof.
  revert data written regions. induction regs as [|r regs IH];
    intros data written regions Hregs Hall; [by eexists|].
  change (foldl save_r (Some (data, written)) (r :: regs))
    with (foldl save_r (save_r (Some (data, written)) r) regs).
  destruct (Hall r) as [ds Hds]; [by left|].
  unfold save_region at 2. simpl. rewrite Hregs. simpl. rewrite Hds. simpl.
  eapply IH; [done|]. intros r0 Hr0. simpl.
  destruct (decide (r0 = r)) as [->|Hne]; [by rewrite lookup_insert_eq|].
  rewrite lookup_insert_ne by done. apply Hall. by right.
Qed.
End save_region.

(** X24: [save_to_disk] writes one file for every region, in the
    order of the regions, and then the file of the domain; every
    dataset it writes carries the attribute 'Analysed time' with the
    years and the months, and the datasets it was given carry it
    afterwards.  The name of a statistic over a cycle includes the
    statistic in time; without it in the configuration such a
    statistic is a [KeyError]. *)
Theorem save_to_disk_writes (data : PStats) (label stat odir var grid : string)
    (sy ey : Z) (tsuffix : string) (stat_dict : gmap string string) (tres thr : string)
    (regs : option (list string)) (written : list (string * Dataset)) :
  (stat ∈ cycle_stats → stat_dict !! "time stat" = None →
   save_to_disk data label stat odir var grid sy ey tsuffix stat_dict tres thr regs written
   = None)
  ∧ ∀ data' written',
      save_to_disk data label stat odir var grid sy ey tsuffix stat_dict tres thr regs
        written = Some (data', written') →
      ∃ tstat new,
        (stat ∉ cycle_stats → tstat = "")
        ∧ (stat ∈ cycle_stats →
           ∃ ts, stat_dict !! "time stat" = Some ts
                 ∧ tstat = "_" +:+ replace_char " "%char "_"%char ts)
        ∧ written' = written ++ new
        ∧ new.*1
          = ((λ r, os_path_join odir
                     [replace_char " "%char "_"%char stat;
                      stat_file_name label (replace_char " "%char "_"%char stat) var thr
                        tres tstat (Some (replace_char " "%char "_"%char r)) grid sy ey
                        tsuffix]) <$> default [] regs)
            ++ [os_path_join odir
                  [replace_char " "%char "_"%char stat;
                   stat_file_name label (replace_char " "%char "_"%char stat) var thr
                     tres tstat None grid sy ey tsuffix]]
        ∧ Forall (λ pd, assoc "Analysed time" (ds_attrs pd.2)
                        = Some (analysed_time sy ey tsuffix)) new
        ∧ snd <$> last new
          = Some (with_attr "Analysed time" (analysed_time sy ey tsuffix) (st_domain data))
        ∧ st_domain data'
          = with_attr "Analysed time" (analysed_time sy ey tsuffix) (st_domain data).
Proof.
  unfold save_to_disk. split.
  - intros Hc Hn. rewrite decide_True by done. by rewrite Hn.
  - intros data' written' Hs.
    apply bind_Some in Hs as (tstat & Htstat & Hs).
    apply bind_Some in Hs as ([data1 written1] & Hloop & [= <- <-]).
    assert (Hl : st_domain data1 = st_domain data
                 ∧ ∃ new, written1 = written ++ new
                   ∧ new.*1 = (λ r, os_path_join odir
                       [replace_char " "%char "_"%char stat;
                        stat_file_name label (replace_char " "%char "_"%char stat) var thr
                          tres tstat (Some (replace_char " "%char "_"%char r)) grid sy ey
                          tsuffix]) <$> default [] regs
                   ∧ Forall (λ pd, ∃ ds, pd.2 = with_attr "Analysed time"
                                                  (analysed_time sy ey tsuffix) ds) new).
    { destruct regs as [regs|]; simpl.
      - destruct (save_region_fold _ _ _ _ _ _ _ _ _ _ _ _ _ _ _ _ Hloop)
          as (Hdom & Hnew & _). done.
      - injection Hloop as <- <-. split; [done|]. exists []. by rewrite app_nil_r. }
    destruct Hl as (Hdom & new & -> & Hpaths & Hst).
    exists tstat, (new ++ [(os_path_join odir
                     [replace_char " "%char "_"%char stat;
                      stat_file_name label (replace_char " "%char "_"%char stat) var thr
                        tres tstat None grid sy ey tsuffix],
                   with_attr "Analysed time" (analysed_time sy ey tsuffix)
                     (st_domain data))]).
    split_and!.
    + intros Hc. rewrite decide_False in Htstat by done. by injection Htstat.
    + intros Hc. rewrite decide_True in Htstat by done.
      apply bind_Some in Htstat as (ts & Hts & [= <-]). eauto.
    + by rewrite <- app_assoc, Hdom.
    + by rewrite fmap_app, Hpaths.
    + apply Forall_app. split.
      * eapply Forall_impl; [exact Hst|]. intros [p d] [ds Hd]. simpl in *. subst d.
        apply assoc_set_attr.
      * apply Forall_singleton. apply assoc_set_attr.
    + by rewrite last_snoc.
    + simpl. by rewrite Hdom.
Qed.

(** With regions every result of [calc_stats] holds a dataset for each
    of them. *)
Lemma stats_for_regions `{Collaborators} (entry : Entry) (v stat : string) (pool : bool)
    (chunk_dim : string) (stats_config : gmap string StatConf) (regions : list string)
    (res : PStats) :
  stats_for entry v stat pool chunk_dim stats_config regions = Some res →
  regions ≠ [] →
  ∃ st_mdata, st_regions res = Some st_mdata
              ∧ ∀ r, r ∈ regions → is_Some (st_mdata !! r).
Proof.
  intros Hres Hne. unfold stats_for in Hres.
  apply bind_Some in Hres as (data & Hdata & Hres).
  apply bind_Some in Hres as (domain & Hdom & Hres).
  destruct regions as [|r0 rs] eqn:Hregs; [done|].
  rewrite <- Hregs in *. clear Hregs r0 rs Hne.
  apply bind_Some in Hres as (masks & Hmasks & Hres).
  apply bind_Some in Hres as (st_mdata & Hmd & [= <-]).
  exists st_mdata. split; [done|]. intros r Hr. destruct pool.
  - apply bind_Some in Hmd as (mdata & _ & Hst).
    destruct (proj1 (dict_comp_spec _ _ _ Hst) r Hr) as (st_r & _ & Hsr). eauto.
  - destruct (proj1 (dict_comp_spec _ _ _ Hmd) r Hr) as (st_r & _ & Hsr). eauto.
Qed.

(** X25: what [calc_stats] returns can be saved.  For the regions of
    the configuration, be they [None], an empty list or names, the
    result of every participant holds what [save_to_disk] reads with
    the same regions: it raises no [KeyError] for a region, and returns
    whenever the statistic in time of a statistic over a cycle is
    configured. *)
Theorem save_to_disk_after_calc_stats `{Collaborators}
    (ddict : gmap string (gmap string (gmap string (option Entry))))
    (vv : gmap string string) (stat : string) (pool : bool) (chunk_dim : string)
    (stats_config : gmap string StatConf) (regs : option (list string))
    (st_data : gmap string (gmap string PStats)) (v m : string) (res : PStats)
    (label odir grid : string) (sy ey : Z) (tsuffix : string)
    (stat_dict : gmap string string) (tres thr : string)
    (written : list (string * Dataset)) :
  calc_stats ddict vv stat pool chunk_dim stats_config (default [] regs) = Some st_data →
  st_data !! v ≫= (.!! m) = Some res →
  (stat ∈ cycle_stats → is_Some (stat_dict !! "time stat")) →
  is_Some (save_to_disk res label stat odir v grid sy ey tsuffix stat_dict tres thr regs
             written).
Proof.
  intros Hst Hres Hts.
  apply bind_Some in Hres as (st_v & Hsv & Hres).
  assert (Hv : is_Some (vv !! v)).
  { destruct (vv !! v) as [f|] eqn:Hvv; [eauto|]. exfalso.
    unfold calc_stats in Hst.
    destruct (calc_stats_fold _ _ _ _ _ _ _ _ _ (NoDup_fst_map_to_list vv) Hst)
      as [_ Hout].
    rewrite Hout, lookup_empty in Hsv; [done|].
    intros ([v' f] & -> & Hin%elem_of_map_to_list)%list_elem_of_fmap.
    simpl in Hvv. congruence. }
  destruct Hv as [f Hv].
  destruct (calc_stats_lookup _ _ _ _ _ _ _ _ _ _ Hst Hv)
    as (parts & st_v' & Hp & Hsv' & Hall).
  assert (st_v' = st_v) as -> by congruence.
  destruct (Hall m) as [Hdata Hnone].
  destruct (parts !! m) as [[entry|]|] eqn:Hpm;
    [|rewrite Hnone in Hres by eauto; done..].
  destruct (Hdata entry eq_refl) as (res' & Hfor & Hres').
  assert (res' = res) as -> by congruence.
  unfold save_to_disk.
  assert (Htstat : is_Some (if decide (stat ∈ cycle_stats)
                            then time_stat ← stat_dict !! "time stat";
                                 Some ("_" +:+ replace_char " "%char "_"%char time_stat)
                            else Some "")).
  { case_decide as Hc; [|eauto]. destruct (Hts Hc) as [ts ->]. simpl. eauto. }
  destruct Htstat as [tstat ->]. simpl.
  assert (Hloop : is_Some
            match regs with
            | Some regs =>
                foldl (save_region label (replace_char " "%char "_"%char stat) odir v grid
                         sy ey tsuffix tres thr tstat) (Some (res, written)) regs
            | None => Some (res, written)
            end).
  { destruct regs as [[|r0 regs]|]; [by eexists| |by eexists].
    destruct (stats_for_regions _ _ _ _ _ _ _ _ Hfor) as (st_mdata & Hmd & Hin); [done|].
    by eapply save_region_fold_is_Some. }
  destruct Hloop as [[data1 written1] ->]. simpl. eauto.
Qed.

(** ** The further properties on sample inputs *)

Lemma sample_grid_is_2d (H W : nat) (f : nat → nat → nat) : is_2d (sample_grid H W f) H W.
Proof. split; [done|]. simpl. by rewrite length_fmap, length_seq. Qed.

(** X3 (witness): a grid of 32 x 33 points is large enough. *)
Lemma get_grid_coords_is_Some_witness : is_Some (get_grid_coords nc_lambert ∅).
Proof.
  apply (get_grid_coords_is_Some nc_lambert ∅
           {| dv_dims := []; dv_data := mk_ndarray [] [0%float];
              dv_attrs := [("latitude_of_projection_origin", "63.0");
                           ("longitude_of_central_meridian", "15.0")] |} 32 33).
  - reflexivity.
  - by eexists.
  - by eexists.
  - apply sample_grid_is_2d.
  - apply sample_grid_is_2d.
  - split; lia.
Defined.

(** X4 (witness): one point inside a grid of 4 x 5 points the way
    around has seven points. *)
Lemma domain_once_around_witness :
  ∃ pts, _domain lat_4x5 lon_4x5 1 = Some pts ∧ length pts = 7.
Proof.
  destruct (domain_once_around lat_4x5 lon_4x5 4 5 1)
    as (pts & Hd & Hl & _).
  - apply sample_grid_is_2d.
  - apply sample_grid_is_2d.
  - lia.
  - lia.
  - lia.
  - exists pts. split; [exact Hd|exact Hl].
Defined.

(** X5 (witness): the corners of the 32 x 33 grid are read at the cells
    [(15, 15)] and [(17, 18)]. *)
Lemma get_grid_coords_corners_witness :
  ∃ gc' c0 c1 c2 c3,
    get_grid_coords nc_lambert ∅ = Some gc'
    ∧ gc' !! "crnrs" = Some (gc_floats [c0; c1; c2; c3])
    ∧ cell (c_values (ds_lat nc_lambert)) (17, 18) = Some c2
    ∧ ring_cell 15 32 33 0 ≠ (17, 18).
Proof.
  assert (Hs : is_Some (get_grid_coords nc_lambert ∅)) by (vm_compute; eauto).
  destruct Hs as [gc' Hr].
  destruct (get_grid_coords_corners nc_lambert ∅ gc' 32 33)
    as (lc & lat_0 & lon_0 & c0 & c1 & c2 & c3 & pts & _ & _ & _ & _ & _ & Hc & _ & _
        & H2 & _ & _ & _ & _ & Hring).
  - apply sample_grid_is_2d.
  - apply sample_grid_is_2d.
  - exact Hr.
  - exists gc', c0, c1, c2, c3. split; [exact Hr|]. split; [exact Hc|].
    split; [exact H2|]. apply (Hring ltac:(lia) ltac:(lia) 0). vm_compute. lia.
Defined.

(** X6 (witness): one model and two observations on their native
    grids. *)
Lemma remap_func_native_grid_witness :
  ∃ dd' gdict' lon,
    remap_func (H := sample_collaborators) dd_sample "tas" vconf_native ["m1"]
      [Some "obs"; Some "obs2"] gdict_empty = Some (dd', gdict')
    ∧ dd' = dd_sample
    ∧ gd_gridname gdict' = Some "native_grid"
    ∧ gd_lon gdict' = Some lon
    ∧ lon !! "obs" = Some (g_lon (e_grid entry_obs)).
Proof.
  destruct (remap_func_native_grid (H := sample_collaborators) dd_sample "tas"
              vconf_native ["m1"] [Some "obs"; Some "obs2"] gdict_empty eq_refl)
    as [Hsome Hres].
  destruct (proj2 Hsome) as [[dd' gdict'] Hr].
  { split.
    - intros m ->%list_elem_of_singleton. by eexists.
    - intros _ o [[= ->]|[= ->]%list_elem_of_singleton]%elem_of_cons; by eexists. }
  destruct (Hres dd' gdict' Hr) as (Hdd & Hname & lon & lat & Hlon & _ & _ & Hobs & _).
  destruct (Hobs ltac:(by compute_done) "obs" ltac:(by left)) as (e & He & Hl & _).
  assert (Some e = Some entry_obs) as [= ->] by (rewrite <- He; vm_compute; reflexivity).
  exists dd', gdict', lon. split; [exact Hr|]. split; [exact Hdd|].
  split; [exact Hname|]. split; [exact Hlon|exact Hl].
Defined.


(** X8 (witness): a target that is no participant. *)
Lemma remap_func_target_recorded_witness :
  remap_func (H := sample_collaborators) dd_sample "tas" vconf_unknown ["m1"]
    [Some "obs"; Some "obs2"] gdict_empty = None.
Proof.
  apply (proj1 (remap_func_target_recorded (H := sample_collaborators) dd_sample "tas"
                  vconf_unknown ["m1"] [Some "obs"; Some "obs2"] gdict_empty "era5"
                  eq_refl)); by compute_done.
Defined.

(** X9 (witness): two fields of 2 x 2 cells and a matrix of two rows
    and four columns. *)
Lemma rgr_calc_sizes_witness :
  is_Some (_rgr_calc (mk_ndarray [2; 2; 2] [1; 2; 3; 4; 5; 6; 7; 8]%float) A_sample (1, 2)).
Proof.
  apply (proj1 (rgr_calc_sizes (mk_ndarray [2; 2; 2] [1; 2; 3; 4; 5; 6; 7; 8]%float)
                  A_sample (1, 2) [2] 2 2 eq_refl)).
  split; [simpl; lia|]. split; [reflexivity|]. right. reflexivity.
Defined.

(** X10 (witness): the two fields one by one. *)
Lemma rgr_calc_blockwise_witness :
  ∃ out outs,
    _rgr_calc (mk_ndarray [2; 2; 2] [1; 2; 3; 4; 5; 6; 7; 8]%float) A_sample (1, 2)
    = Some out
    ∧ mapM (λ b, _rgr_calc b A_sample (1, 2))
        [mk_ndarray [1; 2; 2] [1; 2; 3; 4]%float; mk_ndarray [1; 2; 2] [5; 6; 7; 8]%float]
      = Some outs
    ∧ buf out = mjoin (buf <$> outs).
Proof.
  destruct (_rgr_calc (mk_ndarray [2; 2; 2] [1; 2; 3; 4; 5; 6; 7; 8]%float) A_sample
              (1, 2)) as [out|] eqn:Hout; [|vm_compute in Hout; discriminate].
  destruct (rgr_calc_blockwise (mk_ndarray [2; 2; 2] [1; 2; 3; 4; 5; 6; 7; 8]%float)
              A_sample (1, 2) 2 2 2 [1; 1]
              [mk_ndarray [1; 2; 2] [1; 2; 3; 4]%float;
               mk_ndarray [1; 2; 2] [5; 6; 7; 8]%float] out)
    as (outs & Hm & Hb & _).
  - reflexivity.
  - exact A_sample_wf.
  - exact Hout.
  - vm_compute; reflexivity.
  - exists out, outs. split; [reflexivity|]. split; [exact Hm|exact Hb].
Defined.

(** X11 (witness): 700 blocks of one time step, cut again and again. *)
Lemma manage_chunks_idempotent_witness :
  ∃ data', manage_chunks ds_700 "time" = Some data'
           ∧ manage_chunks data' "time" = Some data'.
Proof.
  destruct (manage_chunks ds_700 "time") as [data'|] eqn:Hm;
    [|vm_compute in Hm; discriminate].
  exists data'. split; [reflexivity|].
  apply (manage_chunks_idempotent ds_700 "time" data'); [by compute_done|exact Hm].
Defined.

(** X13 (witness): the model of the small pipeline has time blocks. *)
Lemma manage_chunks_time_is_Some_witness : is_Some (manage_chunks ds_model "time").
Proof.
  apply (manage_chunks_time_is_Some ds_model "time").
  - discriminate.
  - split; [by compute_done|]. repeat constructor.
  - repeat constructor.
  - by eexists.
Defined.

(** X15 (witness): model [m1], in two time blocks, regridded onto the
    grid of the observation. *)
Lemma regridding_blocks_witness :
  ∃ dset,
    regridding (H := sample_collaborators) dd_sample "m1" "tas" (grid_of ds_obs) "bilinear"
    = Some dset
    ∧ assoc "time" (ds_chunks dset) = Some [1; 1]
    ∧ assoc "x" (ds_chunks dset) = Some [2]
    ∧ is_Some (manage_chunks dset "time").
Proof.
  edestruct (regridding_blocks (H := sample_collaborators) dd_sample "m1" "tas"
               (grid_of ds_obs) "bilinear")
    as (tchunks & Htc & _ & Ht & _ & Hx & _ & _ & _ & _ & _ & _ & Hman).
  - vm_compute; reflexivity.
  - vm_compute; reflexivity.
  - vm_compute; reflexivity.
  - vm_compute; reflexivity.
  - vm_compute; reflexivity.
  - vm_compute; reflexivity.
  - split; [reflexivity|]. repeat constructor; simpl; lia.
  - assert (Some tchunks = Some [1; 1]) as [= ->]
      by (rewrite <- Htc; vm_compute; reflexivity).
    eexists. split; [reflexivity|]. split; [exact Ht|]. split; [exact Hx|].
    apply Hman; [repeat constructor|discriminate].
Defined.

(** X16 (witness): a mask of 2 x 2 points on the two time steps of the
    model. *)
Lemma get_masked_data_repeats_mask_witness :
  get_masked_data (H := sample_collaborators) ds_model "tas" mask_2x2
  = xr_where_drop (Collaborators := sample_collaborators) ds_model
      {| mask_shape := [2; 2; 2];
         mask_buf := [true; false; false; true; true; false; false; true] |}
      ["time"; "y"; "x"].
Proof.
  exact (proj1 (get_masked_data_repeats_mask (H := sample_collaborators) ds_model "tas"
                  mask_2x2
                  {| dv_dims := ["time"; "y"; "x"];
                     dv_data := mk_ndarray [2; 2; 2] [1; 2; 3; 4; 5; 6; 7; 8]%float;
                     dv_attrs := [("units", "K")] |} [2] eq_refl eq_refl eq_refl)).
Defined.

(** X17 (witness): a mask of 2 x 3 points on fields of 2 x 2 points. *)
Lemma get_masked_data_mismatch_witness :
  get_masked_data (H := sample_collaborators) ds_model "tas" mask_2x3 = None.
Proof.
  apply (get_masked_data_mismatch (H := sample_collaborators) ds_model "tas" mask_2x3
           {| dv_dims := ["time"; "y"; "x"];
              dv_data := mk_ndarray [2; 2; 2] [1; 2; 3; 4; 5; 6; 7; 8]%float;
              dv_attrs := [("units", "K")] |} [2] [2] [2] 3 2);
    try reflexivity; try lia.
  repeat constructor.
Defined.

(** X19 (witness): the one requested variable has an entry, with a
    result for model [m1] only. *)
Lemma calc_stats_keys_witness :
  ∃ st_data st_v,
    calc_stats (H := sample_collaborators) ddict_sample vv_sample "seasonal cycle" true
      "space" stats_config_sample ["R1"] = Some st_data
    ∧ st_data !! "tas" = Some st_v
    ∧ is_Some (st_v !! "m1")
    ∧ ¬ is_Some (st_v !! "m2")
    ∧ ¬ is_Some (st_data !! "pr").
Proof.
  destruct (calc_stats (H := sample_collaborators) ddict_sample vv_sample
              "seasonal cycle" true "space" stats_config_sample ["R1"])
    as [st_data|] eqn:Hc; [|vm_compute in Hc; discriminate].
  destruct (calc_stats_keys (H := sample_collaborators) ddict_sample vv_sample
              "seasonal cycle" true "space" stats_config_sample ["R1"] st_data Hc)
    as [Hvars Hparts].
  destruct (Hparts "tas" "day" eq_refl) as (parts & st_v & Hp & Hsv & Hkeys & _).
  assert (Some parts = Some parts_sample) as [= ->]
    by (rewrite <- Hp; vm_compute; reflexivity).
  exists st_data, st_v. split; [reflexivity|]. split; [exact Hsv|]. split_and!.
  - apply Hkeys. by exists entry_m1.
  - rewrite Hkeys. intros [e He]. vm_compute in He. discriminate.
  - rewrite Hvars. intros [f Hf]. vm_compute in Hf. discriminate.
Defined.

(** X21 (witness): longitudes and latitudes that are the coordinates
    of their own dimensions, both decreasing: grid and dataset agree.
    Longitudes on a dimension [x] without an index: the grid holds
    [1, 2, 3] and the dataset, as read, [3, 2, 1]. *)
Lemma get_obs_data_1d_consistent_witness :
  (∃ obs_data' grid,
     get_obs_data od_lonlat = Some (obs_data', grid)
     ∧ c_values (od_lon obs_data') = g_lon grid
     ∧ c_values (od_lat obs_data') = g_lat grid
     ∧ buf (g_lon grid) = [1; 2; 3]%float)
  ∧ (∃ obs_data' grid,
       get_obs_data (without_index od_1d) = Some (obs_data', grid)
       ∧ od_labels "x" obs_data' = Some [2; 1; 0]%float
       ∧ buf (c_values (od_lon obs_data')) = [3; 2; 1]%float
       ∧ buf (g_lon grid) = [1; 2; 3]%float).
Proof.
  split.
  - destruct (get_obs_data od_lonlat) as [[obs_data' grid]|] eqn:Hg;
      [|vm_compute in Hg; discriminate].
    destruct (get_obs_data_1d_consistent od_lonlat obs_data' grid "lon" "lat")
      as (dlon & dlat & Hdlon & _ & _ & _ & _ & _ & Hagree & _ & _ & Hrev).
    + reflexivity.
    + reflexivity.
    + reflexivity.
    + reflexivity.
    + reflexivity.
    + exact Hg.
    + destruct Hagree as [Hlon Hlat]; [intros _; vm_compute; eauto..|].
      exists obs_data', grid. split; [reflexivity|]. split; [exact Hlon|].
      split; [exact Hlat|]. rewrite Hrev; [reflexivity| |reflexivity].
      vm_compute in Hdlon. injection Hdlon as <-. reflexivity.
  - destruct (get_obs_data (without_index od_1d)) as [[obs_data' grid]|] eqn:Hg;
      [|vm_compute in Hg; discriminate].
    destruct (get_obs_data_1d_consistent (without_index od_1d) obs_data' grid "x" "y")
      as (dlon & dlat & Hdlon & _ & _ & _ & _ & _ & _ & Hbare & _ & Hrev).
    + reflexivity.
    + reflexivity.
    + reflexivity.
    + reflexivity.
    + reflexivity.
    + exact Hg.
    + assert (Hn : negative dlon = true)
        by (vm_compute in Hdlon; injection Hdlon as <-; reflexivity).
      destruct (Hbare Hn) as [_ Hnone].
      destruct Hnone as (n & Hsize & Hlab & Hlon & _); [reflexivity|].
      vm_compute in Hsize. injection Hsize as <-.
      exists obs_data', grid. split; [reflexivity|]. split; [exact Hlab|].
      split; [by rewrite Hlon|]. rewrite Hrev; [reflexivity|exact Hn|reflexivity].
Defined.

(** X23 (witness): latitudes that decrease down the rows, on a dataset
    with an index on [y] and on the same dataset without one. *)
Lemma get_obs_data_2d_latitudes_witness :
  (∃ obs_data' grid,
     get_obs_data od_2d_lat = Some (obs_data', grid)
     ∧ g_lat grid = mk_ndarray [2; 3] [0; 0; 0; 1; 1; 1]%float
     ∧ c_values (od_lat obs_data') = g_lat grid)
  ∧ (∃ obs_data' grid,
       get_obs_data (without_index od_2d_lat) = Some (obs_data', grid)
       ∧ g_lat grid = mk_ndarray [2; 3] [0; 0; 0; 1; 1; 1]%float
       ∧ c_values (od_lat obs_data') = mk_ndarray [2; 3] [1; 1; 1; 0; 0; 0]%float).
Proof.
  split.
  - destruct (get_obs_data_2d_latitudes od_2d_lat "x" "y" 2 3 1%float (-1)%float)
      as [_ Hret].
    + reflexivity.
    + reflexivity.
    + reflexivity.
    + reflexivity.
    + reflexivity.
    + reflexivity.
    + vm_compute; reflexivity.
    + reflexivity.
    + vm_compute; reflexivity.
    + reflexivity.
    + destruct Hret as (obs_data' & grid & Hg & Hlat & _ & Hidx & _).
      { intros labels [= <-]. reflexivity. }
      destruct Hidx as (_ & Hc & _); [vm_compute; eauto|].
      exists obs_data', grid. split; [exact Hg|]. split; [|exact Hc].
      rewrite Hlat. vm_compute. reflexivity.
  - destruct (get_obs_data_2d_latitudes (without_index od_2d_lat) "x" "y" 2 3
                1%float (-1)%float) as [_ Hret].
    + reflexivity.
    + reflexivity.
    + reflexivity.
    + reflexivity.
    + reflexivity.
    + reflexivity.
    + vm_compute; reflexivity.
    + reflexivity.
    + vm_compute; reflexivity.
    + reflexivity.
    + destruct Hret as (obs_data' & grid & Hg & Hlat & _ & _ & Hbare).
      { intros labels [=]. }
      destruct Hbare as (n & _ & _ & Hc & _); [reflexivity|].
      exists obs_data', grid. split; [exact Hg|].
      split; [rewrite Hlat; vm_compute; reflexivity|]. by rewrite Hc.
Defined.

(** X25 (witness): the result of model [m1], with one region, is
    saved. *)
Lemma save_to_disk_after_calc_stats_witness :
  ∃ st_data res,
    calc_stats (H := sample_collaborators) ddict_sample vv_sample "seasonal cycle" true
      "space" stats_config_sample ["R1"] = Some st_data
    ∧ st_data !! "tas" ≫= (.!! "m1") = Some res
    ∧ is_Some (save_to_disk res "m1" "seasonal cycle" "/out/stats" "tas" "grid_OBS"
                 1990 2000 "DJF" stat_dict_sample "day" "" (Some ["R1"]) []).
Proof.
  destruct (calc_stats (H := sample_collaborators) ddict_sample vv_sample
              "seasonal cycle" true "space" stats_config_sample ["R1"])
    as [st_data|] eqn:Hc; [|vm_compute in Hc; discriminate].
  destruct (st_data !! "tas" ≫= (.!! "m1")) as [res|] eqn:Hres;
    [|vm_compute in Hc; injection Hc as <-; vm_compute in Hres; discriminate].
  exists st_data, res. split; [reflexivity|]. split; [exact Hres|].
  apply (save_to_disk_after_calc_stats (H := sample_collaborators) ddict_sample vv_sample
           "seasonal cycle" true "space" stats_config_sample (Some ["R1"]) st_data
           "tas" "m1" res "m1" "/out/stats" "grid_OBS" 1990 2000 "DJF" stat_dict_sample
           "day" "" [] Hc Hres).
  intros _. by eexists.
Defined.

(** X1 (witness): spring. *)
Lemma get_month_string_is_Some_witness : is_Some (get_month_string (py_list [3; 4; 5]%Z)).
Proof.
  apply (proj2 (get_month_string_is_Some (py_list [3; 4; 5]%Z))).
  right. repeat constructor; lia.
Defined.

(** X12 (witness): the ten time steps of the 1000 x 1000 grid become
    one block. *)
Lemma manage_chunks_space_witness :
  ∃ data', manage_chunks ds_1000 "space" = Some data'
           ∧ assoc "time" (ds_chunks data') = Some [10].
Proof.
  destruct (manage_chunks ds_1000 "space") as [data'|] eqn:Hm;
    [|vm_compute in Hm; discriminate].
  destruct (proj2 (proj2 (manage_chunks_space ds_1000)) data' Hm)
    as (xd & yd & xsize & ysize & c & T & _ & _ & _ & _ & HT & _ & Ht & _).
  vm_compute in HT. injection HT as <-.
  exists data'. split; [reflexivity|exact Ht].
Defined.

(** X22 (witness): a single longitude. *)
Lemma get_obs_data_short_axis_witness : get_obs_data od_single = None.
Proof.
  apply (proj1 (get_obs_data_short_axis od_single)); [reflexivity|].
  left. simpl. lia.
Defined.

(** X24 (witness): the files of a seasonal cycle with one region. *)
Lemma save_to_disk_writes_witness :
  ∃ data' written',
    save_to_disk pstats_sample "m1" "seasonal cycle" "/out/stats" "tas" "grid_OBS"
      1990 2000 "DJF" stat_dict_sample "day" "" (Some ["North Sea"]) []
    = Some (data', written')
    ∧ written'.*1
      = ["/out/stats/seasonal_cycle/m1_seasonal_cycle_tas_day_mean_North_Sea_grid_OBS_1990-2000_DJF.nc";
         "/out/stats/seasonal_cycle/m1_seasonal_cycle_tas_day_mean_grid_OBS_1990-2000_DJF.nc"]
    ∧ assoc "Analysed time" (ds_attrs (st_domain data')) = Some "1990-2000 | DJF".
Proof.
  destruct (save_to_disk pstats_sample "m1" "seasonal cycle" "/out/stats" "tas" "grid_OBS"
              1990 2000 "DJF" stat_dict_sample "day" "" (Some ["North Sea"]) [])
    as [[data' written']|] eqn:Hs; [|vm_compute in Hs; discriminate].
  destruct (proj2 (save_to_disk_writes pstats_sample "m1" "seasonal cycle" "/out/stats"
                     "tas" "grid_OBS" 1990 2000 "DJF" stat_dict_sample "day" ""
                     (Some ["North Sea"]) []) data' written' Hs)
    as (tstat & new & _ & Hts & -> & Hpaths & _ & _ & Hdom).
  destruct (Hts ltac:(by compute_done)) as (ts & Hts' & ->).
  vm_compute in Hts'. injection Hts' as <-.
  exists data', new. split; [reflexivity|]. split.
  - rewrite Hpaths. vm_compute. reflexivity.
  - rewrite Hdom. vm_compute. reflexivity.
Defined.
